(** * qriososls: the local development engine

    A shallow embedding of the hot-reload engine of qriososls
    ([internal/engine/local/local.go], the runtime factory of
    [internal/engine/local/runtime] and [internal/engine/runtime_map.go])
    together with the properties its specification states about it.

    Conventions of the embedding.
    - Go strings are byte strings; they are modelled by [string] and the
      identifiers and paths handled here are taken to be ASCII, so that
      [strings.ToLower] is the map on the letters A..Z.
    - Paths use the Unix separator (the engine shells out to [sam], [go],
      [npm] and [pip] and builds Linux artifacts).
    - A Go [map] that is only looked up is a [gmap]; a Go [map] that is
      ranged over is the list of its entries in the order in which that
      [range] statement visits them (Go leaves the order unspecified, so every
      statement is made for an arbitrary such list).
    - Errors are values: a function returning [(T, error)] returns a
      [result T], an [error] alone is an [option string] holding the message.
    - The outside world (file system, tool chains, processes) is an abstract
      state threaded through the calls that touch it.
    - Time is counted in milliseconds; the reactor loop is followed through
      the instants at which it takes what it receives, and a call takes no
      time. *)

From Stdlib Require Import String Ascii List ZArith Lia Bool DecimalString.
From Stdlib Require Import Permutation.
From stdpp Require Import gmap strings list.
Import ListNotations.

Local Open Scope string_scope.

(** ** Package [strings] *)

Module GoStrings.

(** [strings.HasPrefix s prefix]. *)
Fixpoint HasPrefix (s prefix : string) : bool :=
  match prefix, s with
  | EmptyString, _ => true
  | String _ _, EmptyString => false
  | String p prefix', String c s' =>
      if Ascii.eqb c p then HasPrefix s' prefix' else false
  end.

(** [strings.Contains s substr]: [substr] starts at some offset of [s]. *)
Fixpoint Contains (s substr : string) : bool :=
  HasPrefix s substr
  || match s with
     | EmptyString => false
     | String _ s' => Contains s' substr
     end.

(** [strings.HasSuffix s suffix]:
    [len(s) >= len(suffix) && s[len(s)-len(suffix):] == suffix]. *)
Definition HasSuffix (s suffix : string) : bool :=
  (String.length suffix <=? String.length s)%nat
  && String.eqb
       (substring (String.length s - String.length suffix)
                  (String.length suffix) s)
       suffix.

Definition is_upper (c : ascii) : bool :=
  let n := nat_of_ascii c in ((65 <=? n) && (n <=? 90))%nat.

Definition lower_ascii (c : ascii) : ascii :=
  if is_upper c then ascii_of_nat (nat_of_ascii c + 32) else c.

(** [strings.ToLower] on ASCII text. *)
Fixpoint ToLower (s : string) : string :=
  match s with
  | EmptyString => EmptyString
  | String c s' => String (lower_ascii c) (ToLower s')
  end.

(** [strings.ReplaceAll s old ""] for a one-byte [old]. *)
Fixpoint RemoveByte (old : ascii) (s : string) : string :=
  match s with
  | EmptyString => EmptyString
  | String c s' =>
      if Ascii.eqb c old then RemoveByte old s' else String c (RemoveByte old s')
  end.

(** White space in the sense of [unicode.IsSpace], ASCII part. *)
Definition is_space (c : ascii) : bool :=
  let n := nat_of_ascii c in
  ((n =? 32) || ((9 <=? n) && (n <=? 13)))%nat.

Fixpoint TrimLeft (s : string) : string :=
  match s with
  | EmptyString => EmptyString
  | String c s' => if is_space c then TrimLeft s' else s
  end.

Fixpoint TrimRight (s : string) : string :=
  match s with
  | EmptyString => EmptyString
  | String c s' =>
      match TrimRight s' with
      | EmptyString => if is_space c then EmptyString else String c EmptyString
      | r => String c r
      end
  end.

(** [strings.TrimSpace]. *)
Definition TrimSpace (s : string) : string := TrimRight (TrimLeft s).

(** [strings.Join elems sep]. *)
Fixpoint Join (elems : list string) (sep : string) : string :=
  match elems with
  | [] => ""
  | [e] => e
  | e :: rest => e ++ sep ++ Join rest sep
  end.

(** [strings.TrimLeft s cutset] and [strings.TrimRight s cutset] for a
    one-byte [cutset]. *)
Fixpoint TrimLeftByte (b : ascii) (s : string) : string :=
  match s with
  | EmptyString => EmptyString
  | String c s' => if Ascii.eqb c b then TrimLeftByte b s' else s
  end.

Fixpoint TrimRightByte (b : ascii) (s : string) : string :=
  match s with
  | EmptyString => EmptyString
  | String c s' =>
      match TrimRightByte b s' with
      | EmptyString => if Ascii.eqb c b then EmptyString else String c EmptyString
      | r => String c r
      end
  end.

(** [strings.Trim s cutset] for a one-byte [cutset]. *)
Definition TrimByte (b : ascii) (s : string) : string :=
  TrimRightByte b (TrimLeftByte b s).

(** [strings.ReplaceAll s old new] for one-byte [old] and [new]. *)
Fixpoint ReplaceByte (old new : ascii) (s : string) : string :=
  match s with
  | EmptyString => EmptyString
  | String c s' =>
      String (if Ascii.eqb c old then new else c) (ReplaceByte old new s')
  end.

(** [strings.ReplaceAll s (old old) (old)] for a byte [old]: the pairs are
    taken from the left and do not overlap. *)
Fixpoint HalvePairs (old : ascii) (s : string) : string :=
  match s with
  | EmptyString => EmptyString
  | String c s' =>
      match s' with
      | String d s'' =>
          if Ascii.eqb c old && Ascii.eqb d old
          then String old (HalvePairs old s'')
          else String c (HalvePairs old s')
      | EmptyString => s
      end
  end.

(** [strings.TrimPrefix s prefix] for a one-byte [prefix]. *)
Definition TrimPrefixByte (b : ascii) (s : string) : string :=
  match s with
  | String c s' => if Ascii.eqb c b then s' else s
  | EmptyString => EmptyString
  end.

End GoStrings.

(** ** Package [path/filepath] (Unix) *)

Module Filepath.

Definition slash : ascii := "/"%char.

(** The elements of a path between separators, empty ones included. *)
Fixpoint elements (path : string) : list string :=
  match path with
  | EmptyString => [""]
  | String c rest =>
      if Ascii.eqb c slash then "" :: elements rest
      else match elements rest with
           | [] => [String c ""]
           | e :: es => String c e :: es
           end
  end.

(** One round of the loop of [Clean]: [out] holds the elements kept so far,
    last one first.  A [..] removes the last real element when there is one;
    otherwise it is kept on a relative path and dropped on a rooted one. *)
Definition cleanElem (rooted : bool) (out : list string) (e : string)
  : list string :=
  if String.eqb e "" || String.eqb e "." then out
  else if String.eqb e ".." then
    match out with
    | top :: rest => if String.eqb top ".." then e :: out else rest
    | [] => if rooted then [] else [e]
    end
  else e :: out.

Definition isRooted (path : string) : bool :=
  match path with
  | String c _ => Ascii.eqb c slash
  | EmptyString => false
  end.

(** [filepath.Clean]. *)
Definition Clean (path : string) : string :=
  let rooted := isRooted path in
  let out := fold_left (cleanElem rooted) (elements path) [] in
  let body := GoStrings.Join (rev out) "/" in
  if rooted then "/" ++ body
  else if String.eqb body "" then "." else body.

(** [path[:i+1]] for [i] the index of the last separator. *)
Fixpoint uptoLastSlash (path : string) : string :=
  match path with
  | EmptyString => ""
  | String c rest =>
      match uptoLastSlash rest with
      | EmptyString => if Ascii.eqb c slash then "/" else ""
      | r => String c r
      end
  end.

(** [filepath.Dir]. *)
Definition Dir (path : string) : string := Clean (uptoLastSlash path).

(** Drops the trailing separators. *)
Fixpoint stripTrailingSlashes (path : string) : string :=
  match path with
  | EmptyString => ""
  | String c rest =>
      match stripTrailingSlashes rest with
      | EmptyString => if Ascii.eqb c slash then "" else String c ""
      | r => String c r
      end
  end.

(** [filepath.Base]. *)
Definition Base (path : string) : string :=
  if String.eqb path "" then "."
  else
    match last (elements (stripTrailingSlashes path)) with
    | None | Some EmptyString => "/"
    | Some e => e
    end.

(** [filepath.Join]: from the first element that is not empty on, the
    elements are joined with the separator and the result is cleaned; when
    all are empty the result is the empty string. *)
Fixpoint Join (elems : list string) : string :=
  match elems with
  | [] => ""
  | e :: rest =>
      if String.eqb e "" then Join rest
      else Clean (GoStrings.Join elems "/")
  end.

End Filepath.

Arguments Filepath.Join : simpl never.
Arguments Filepath.Clean : simpl never.
Arguments Filepath.Dir : simpl never.


(** ** Results of fallible calls *)

Inductive result (A : Type) : Type :=
| Ok (a : A)
| Err (msg : string).
Arguments Ok {A} a.
Arguments Err {A} msg.

(** ** Package [runtime]: the runtime kinds and their factory *)

Module Runtime.

(** The three implementations of the [Runtime] interface. *)
Inductive Runtime : Type :=
| GolangRuntime
| NodeJSRuntime
| PythonRuntime.

#[global] Instance Runtime_eq_dec : EqDecision Runtime.
Proof. solve_decision. Defined.

Definition Name (rt : Runtime) : string :=
  match rt with
  | GolangRuntime => "golang"
  | NodeJSRuntime => "nodejs"
  | PythonRuntime => "python"
  end.

Definition NeedsBuild (rt : Runtime) : bool :=
  match rt with
  | GolangRuntime => true
  | NodeJSRuntime => false
  | PythonRuntime => false
  end.

Definition WatchPatterns (rt : Runtime) : list string :=
  match rt with
  | GolangRuntime => ["*.go"; "go.mod"; "go.sum"]
  | NodeJSRuntime => ["*.js"; "*.ts"; "package.json"; "tsconfig.json"]
  | PythonRuntime => ["*.py"; "requirements.txt"]
  end.

Definition StartCommand (rt : Runtime) (binaryPath : string) : list string :=
  match rt with
  | GolangRuntime => [binaryPath]
  | NodeJSRuntime => ["node"; binaryPath]
  | PythonRuntime => ["python"; binaryPath]
  end.

(** [RuntimeFactory.GetRuntime]: the declared identifier is lower-cased and
    compared with two exact names and three prefixes, in this order. *)
Definition GetRuntime (awsRuntime : string) : result Runtime :=
  let runtime := GoStrings.ToLower awsRuntime in
  if String.eqb runtime "provided.al2" || String.eqb runtime "provided" then
    Ok GolangRuntime
  else if GoStrings.HasPrefix runtime "go" then Ok GolangRuntime
  else if GoStrings.HasPrefix runtime "node" then Ok NodeJSRuntime
  else if GoStrings.HasPrefix runtime "python" then Ok PythonRuntime
  else Err ("unsupported AWS Lambda runtime: " ++ awsRuntime).

(** What detection sees of the file system: for a directory path, the names
    of its entries, or nothing when the directory cannot be read. *)
Definition Listing : Type := string -> option (list string).

(** [filepath.Glob(filepath.Join(dir, "*" ++ ext))]: in a pattern [*ext] the
    star matches any run of bytes of an entry name, so the matches are the
    entries whose name ends with [ext]; an unreadable directory has none
    (the error of [Glob] is dropped by the callers). *)
Definition globStar (fs : Listing) (dir ext : string) : list string :=
  match fs dir with
  | None => []
  | Some names => List.filter (fun n => GoStrings.HasSuffix n ext) names
  end.

(** [_, err := os.Stat(filepath.Join(dir, name)); err == nil]. *)
Definition statOk (fs : Listing) (dir name : string) : bool :=
  match fs dir with
  | None => false
  | Some names => existsb (String.eqb name) names
  end.

Definition hasGoFiles (fs : Listing) (dir : string) : bool :=
  (0 <? length (globStar fs dir ".go"))%nat.

Definition hasNodeJSFiles (fs : Listing) (dir : string) : bool :=
  if statOk fs dir "package.json" then true
  else (0 <? length (globStar fs dir ".js"))%nat.

Definition hasPythonFiles (fs : Listing) (dir : string) : bool :=
  if statOk fs dir "requirements.txt" then true
  else (0 <? length (globStar fs dir ".py"))%nat.

(** [RuntimeFactory.GetRuntimeFromFunction]. *)
Definition GetRuntimeFromFunction (fs : Listing) (functionDir : string)
  : result Runtime :=
  if hasGoFiles fs functionDir then Ok GolangRuntime
  else if hasNodeJSFiles fs functionDir then Ok NodeJSRuntime
  else if hasPythonFiles fs functionDir then Ok PythonRuntime
  else Err ("could not detect runtime for function in: " ++ functionDir).


(** The kind of a resolution, forgetting the message of a failure. *)
Definition kindOf (r : result Runtime) : option Runtime :=
  match r with
  | Ok rt => Some rt
  | Err _ => None
  end.

(** The normalisation the specification describes for [resolve]: case
    folding followed by the removal of the separator bytes. *)
Definition isSeparator (c : ascii) : bool :=
  Ascii.eqb c "."%char || Ascii.eqb c "_"%char
  || Ascii.eqb c "-"%char || Ascii.eqb c " "%char.

Fixpoint stripSeparators (s : string) : string :=
  match s with
  | EmptyString => EmptyString
  | String c s' =>
      if isSeparator c then stripSeparators s' else String c (stripSeparators s')
  end.

Definition specNormalize (s : string) : string :=
  stripSeparators (GoStrings.ToLower s).

End Runtime.

(** ** Package [engine]: the mapping to the deployed runtime *)

Module Engine.

(** The values of [awslambda.Runtime] that [toLambdaRuntime] returns. *)
Inductive LambdaRuntime : Type :=
| NODEJS_20_X | NODEJS_18_X | PYTHON_3_12 | PYTHON_3_11
| JAVA_17 | DOTNET_8 | RUBY_3_2 | PROVIDED_AL2.

Definition oneOf (key : string) (names : list string) : bool :=
  existsb (String.eqb key) names.

(** [toLambdaRuntime]; [None] is the [nil] of the default case. *)
Definition toLambdaRuntime (s : string) : option LambdaRuntime :=
  let key := GoStrings.ToLower (GoStrings.TrimSpace s) in
  let key := GoStrings.RemoveByte "_"%char key in
  let key := GoStrings.RemoveByte "-"%char key in
  let key := GoStrings.RemoveByte " "%char key in
  if oneOf key ["nodejs20.x"; "nodejs20x"; "nodejs20"] then Some NODEJS_20_X
  else if oneOf key ["nodejs18.x"; "nodejs18x"; "nodejs18"] then Some NODEJS_18_X
  else if oneOf key ["python3.12"; "python312"] then Some PYTHON_3_12
  else if oneOf key ["python3.11"; "python311"] then Some PYTHON_3_11
  else if oneOf key ["java17"] then Some JAVA_17
  else if oneOf key ["dotnet8"; "dotnet8.0"; "dotnet80"; "dotnetcore8"] then Some DOTNET_8
  else if oneOf key ["ruby3.2"; "ruby32"] then Some RUBY_3_2
  else if oneOf key ["provided.al2"; "providedal2"; "provided"; "go1.x"; "go1x"; "go"]
  then Some PROVIDED_AL2
  else None.

(** The runtime kind with which the local engine runs what is deployed on
    a Lambda runtime: the three kinds it implements, none for the others. *)
Definition localKind (r : LambdaRuntime) : option Runtime.Runtime :=
  match r with
  | NODEJS_20_X | NODEJS_18_X => Some Runtime.NodeJSRuntime
  | PYTHON_3_12 | PYTHON_3_11 => Some Runtime.PythonRuntime
  | PROVIDED_AL2 => Some Runtime.GolangRuntime
  | JAVA_17 | DOTNET_8 | RUBY_3_2 => None
  end.

(** [norm]. *)
Definition norm (p : string) : string :=
  let s := "/" ++ GoStrings.TrimByte "/"%char
                    (GoStrings.ReplaceByte "\"%char "/"%char p) in
  GoStrings.HalvePairs "/"%char s.

(** [joinPath]. *)
Definition joinPath (resource path : string) : string :=
  let r := GoStrings.TrimSpace resource in
  let p := GoStrings.TrimSpace path in
  if String.eqb r "" || String.eqb r "/" then norm p
  else if String.eqb p "" || String.eqb p "/" then norm r
  else norm (r ++ "/" ++ GoStrings.TrimPrefixByte "/"%char p).

End Engine.

(** ** Package [config] *)

Module Config.

Record ApiConfig : Type := {
  Id : string;
  RootResourceId : string;
  ApiName : string;
}.

Record LambdaEvent : Type := {
  Type_ : string;
  Resource : string;
  Path : string;
  Method : string;
}.

Record LambdaFunc : Type := {
  FunctionName : string;
  Runtime : string;
  Handler : string;
  Code : string;
  MemorySize : Z;
  Timeout : Z;
  Events : list LambdaEvent;
}.

(** [Functions] is the Go map [map[string]LambdaFunc], given by its entries
    in the order a [range] over it visits them. *)
Record ServerlessConfig : Type := {
  Service : string;
  Stage : string;
  Api : option ApiConfig;
  Functions : list (string * LambdaFunc);
  RootPath : string;
}.

(** [cfg.Functions[name]]: the entry, or the zero [LambdaFunc]. *)
Definition zeroFunc : LambdaFunc :=
  {| FunctionName := ""; Runtime := ""; Handler := ""; Code := "";
     MemorySize := 0; Timeout := 0; Events := [] |}.

Fixpoint lookupFunc (fns : list (string * LambdaFunc)) (name : string)
  : LambdaFunc :=
  match fns with
  | [] => zeroFunc
  | (n, f) :: rest => if String.eqb n name then f else lookupFunc rest name
  end.

(** [isValidServiceName]: the pattern [^[a-zA-Z0-9-]+$]. *)
Definition isServiceChar (c : ascii) : bool :=
  let n := nat_of_ascii c in
  ((48 <=? n) && (n <=? 57) || (65 <=? n) && (n <=? 90)
   || (97 <=? n) && (n <=? 122) || (n =? 45))%nat.

Definition isValidServiceName (name : string) : bool :=
  negb (String.eqb name "")
  && forallb isServiceChar (list_ascii_of_string name).

(** The verb [%d]. *)
Definition decimal (n : nat) : string :=
  NilZero.string_of_uint (Nat.to_uint n).

(** [LambdaEvent.Validate]. *)
Definition LambdaEvent_Validate (e : LambdaEvent) (funcName : string)
    (index : nat) : option string :=
  if String.eqb (Type_ e) "" then
    Some ("event type is required for event " ++ decimal index
          ++ " in function '" ++ funcName ++ "'")
  else if String.eqb (Type_ e) "http" then
    if String.eqb (Path e) "" then
      Some ("path is required for HTTP events in function '" ++ funcName ++ "'")
    else if String.eqb (Method e) "" then
      Some ("method is required for HTTP events in function '" ++ funcName ++ "'")
    else None
  else None.

(** The loop over [f.Events], from index [i] on. *)
Fixpoint validateEventsFrom (i : nat) (events : list LambdaEvent)
    (funcName : string) : option string :=
  match events with
  | [] => None
  | e :: rest =>
      match LambdaEvent_Validate e funcName i with
      | Some err => Some err
      | None => validateEventsFrom (S i) rest funcName
      end
  end.

(** [LambdaFunc.Validate]. *)
Definition LambdaFunc_Validate (f : LambdaFunc) (funcName : string)
  : option string :=
  if String.eqb (FunctionName f) "" then
    Some ("functionName is required for function '" ++ funcName ++ "'")
  else if String.eqb (Handler f) "" then
    Some ("handler is required for function '" ++ funcName ++ "'")
  else if String.eqb (Runtime f) "" then
    Some ("runtime is required for function '" ++ funcName ++ "'")
  else if (MemorySize f <? 128)%Z || (10240 <? MemorySize f)%Z then
    Some ("memorySize must be between 128 and 10240 for function '"
          ++ funcName ++ "'")
  else if (Timeout f <? 1)%Z || (900 <? Timeout f)%Z then
    Some ("timeout must be between 1 and 900 seconds for function '"
          ++ funcName ++ "'")
  else validateEventsFrom 0 (Events f) funcName.

(** The loop over [c.Functions]. *)
Fixpoint validateFunctions (fns : list (string * LambdaFunc)) : option string :=
  match fns with
  | [] => None
  | (funcName, function) :: rest =>
      match LambdaFunc_Validate function funcName with
      | Some err => Some err
      | None => validateFunctions rest
      end
  end.

(** [ServerlessConfig.Validate]. *)
Definition Validate (c : ServerlessConfig) : option string :=
  if String.eqb (Service c) "" then Some "field 'service' is required"
  else if negb (isValidServiceName (Service c)) then
    Some ("service name '" ++ Service c
          ++ "' is invalid. Only alphanumeric and hyphens allowed")
  else if String.eqb (Stage c) "" then Some "field 'stage' is required"
  else if (length (Functions c) =? 0)%nat then
    Some "at least one function must be defined"
  else validateFunctions (Functions c).

(** What [Validate] asks of an event, of a function and of a configuration. *)
Definition eventOk (e : LambdaEvent) : bool :=
  negb (String.eqb (Type_ e) "")
  && (negb (String.eqb (Type_ e) "http")
      || negb (String.eqb (Path e) "") && negb (String.eqb (Method e) "")).

Definition functionOk (f : LambdaFunc) : bool :=
  negb (String.eqb (FunctionName f) "")
  && negb (String.eqb (Handler f) "")
  && negb (String.eqb (Runtime f) "")
  && (128 <=? MemorySize f)%Z && (MemorySize f <=? 10240)%Z
  && (1 <=? Timeout f)%Z && (Timeout f <=? 900)%Z
  && forallb eventOk (Events f).

Definition configOk (c : ServerlessConfig) : bool :=
  isValidServiceName (Service c)
  && negb (String.eqb (Stage c) "")
  && negb (length (Functions c) =? 0)%nat
  && forallb (fun e => functionOk (snd e)) (Functions c).

End Config.

(** ** Package [local]: the engine *)

Module Local.

(** [fsnotify.Op] is a bit set. *)
Definition Create : N := 1.
Definition Write : N := 2.
Definition Remove : N := 4.
Definition Rename : N := 8.
Definition Chmod : N := 16.

Record Event : Type := {
  Name : string;
  Op : N;
}.

(** A channel that is never sent on, such as [stopChan]: all that matters
    is whether it has been closed. *)
Inductive chan : Type := ChanOpen | ChanClosed.

Record Process : Type := { Pid : nat }.

(** The [fsnotify.Watcher] handle: [Close] is remembered by the watcher. *)
Record Watcher : Type := { isClosed : bool }.

(** [LocalRunner].  The mutexes and [lastBuild] are left out: the calls are
    followed on one thread and [lastBuild] is never read. *)
Record LocalRunner : Type := {
  cfg : Config.ServerlessConfig;
  watcher : option Watcher;
  apiProcess : option Process;
  stopChan : chan;
  functionRuntimes : gmap string Runtime.Runtime;
  watchedDirs : gmap string bool;
}.

(** [NewLocalRunner], once the watcher could be created. *)
Definition NewLocalRunner (c : Config.ServerlessConfig) : LocalRunner :=
  {| cfg := c;
     watcher := Some {| isClosed := false |};
     apiProcess := None;
     stopChan := ChanOpen;
     functionRuntimes := ∅;
     watchedDirs := ∅ |}.

Definition setRuntime (funcName : string) (rt : Runtime.Runtime)
    (lr : LocalRunner) : LocalRunner :=
  {| cfg := cfg lr; watcher := watcher lr; apiProcess := apiProcess lr;
     stopChan := stopChan lr;
     functionRuntimes := <[funcName := rt]> (functionRuntimes lr);
     watchedDirs := watchedDirs lr |}.

Definition setWatched (dirPath : string) (lr : LocalRunner) : LocalRunner :=
  {| cfg := cfg lr; watcher := watcher lr; apiProcess := apiProcess lr;
     stopChan := stopChan lr; functionRuntimes := functionRuntimes lr;
     watchedDirs := <[dirPath := true]> (watchedDirs lr) |}.

Definition setApiProcess (p : Process) (lr : LocalRunner) : LocalRunner :=
  {| cfg := cfg lr; watcher := watcher lr; apiProcess := Some p;
     stopChan := stopChan lr; functionRuntimes := functionRuntimes lr;
     watchedDirs := watchedDirs lr |}.

Definition setStopChan (c : chan) (lr : LocalRunner) : LocalRunner :=
  {| cfg := cfg lr; watcher := watcher lr; apiProcess := apiProcess lr;
     stopChan := c; functionRuntimes := functionRuntimes lr;
     watchedDirs := watchedDirs lr |}.

Definition setWatcher (w : Watcher) (lr : LocalRunner) : LocalRunner :=
  {| cfg := cfg lr; watcher := Some w; apiProcess := apiProcess lr;
     stopChan := stopChan lr; functionRuntimes := functionRuntimes lr;
     watchedDirs := watchedDirs lr |}.

(** The result of [os.Stat] as the engine looks at it: no error, an error
    for which [os.IsNotExist] holds, or another error. *)
Inductive StatResult : Type :=
| StatOk
| StatNotExist (err : string)
| StatFailed (err : string).

(** What a finished command leaves: what it printed and, when it failed,
    the error of [Run] or [CombinedOutput]. *)
Record CommandResult : Type := {
  output : string;
  exitErr : option string;
}.

(** The operations of the host the engine calls, over an abstract state [W]
    of the outside world. *)
Record Host (W : Type) : Type := {
  (** directory entries, for [os.Stat] and [filepath.Glob] in detection *)
  listDir : W -> Runtime.Listing;
  (** [os.MkdirAll(path, 0755)] *)
  mkdirAll : string -> W -> W * option string;
  (** a command run to its end: its name, its arguments, its working
      directory and the variables added to its environment *)
  runCommand : string -> list string -> string -> list string -> W
               -> W * CommandResult;
  (** [util.Sha256Hash] *)
  Sha256Hash : string -> string;
  (** [util.CopyCode(sourcePath, targetDir)] *)
  CopyCode : string -> string -> W -> W * option string;
  (** [os.Stat(path)] *)
  statFile : W -> string -> StatResult;
  (** [os.WriteFile(path, content, 0644)] *)
  writeFile : string -> string -> W -> W * option string;
  (** [exec.Command("sam", args...).Start()] *)
  startSam : list string -> W -> W * result Process;
  (** [lr.watcher.Add(dir)] *)
  watcherAdd : string -> W -> W * option string;
  (** [filepath.Glob(pattern)] *)
  globPattern : W -> string -> result (list string);
  (** [process.Kill()], its error dropped *)
  killProcess : Process -> W -> W;
}.
Arguments listDir {W} _ _ _.
Arguments mkdirAll {W} _ _ _.
Arguments runCommand {W} _ _ _ _ _ _.
Arguments Sha256Hash {W} _ _.
Arguments CopyCode {W} _ _ _ _.
Arguments statFile {W} _ _ _.
Arguments writeFile {W} _ _ _ _.
Arguments startSam {W} _ _ _.
Arguments watcherAdd {W} _ _ _.
Arguments globPattern {W} _ _ _.
Arguments killProcess {W} _ _ _.

(** What the engine does that can be observed from outside, in order.  Log
    lines are kept without their pictogram, and in ASCII. *)
Inductive Action : Type :=
| Log (line : string)
| LogEvent (op : N) (name : string)
| Probe (functionDir : string)
| BuildCall (funcName : string) (rt : Runtime.Runtime) (outputPath : string)
            (err : option string)
| Copy (filePath assetDir : string) (err : option string)
| WriteEnv (path : string) (err : option string)
| Spawn (args : list string)
| Watch (dirPath : string) (err : option string)
| Fired (at_ms : Z) (batch : list string)
| CloseStop
| Kill (p : Process)
| CloseWatcher.

(** A call either completes or panics (a [nil] interface is called, a closed
    channel is closed again). *)
Inductive outcome (A : Type) : Type :=
| Done (a : A)
| Panic (msg : string).
Arguments Done {A} a.
Arguments Panic {A} msg.

Record State (W : Type) : Type := {
  runner : LocalRunner;
  world : W;
  trace : list Action;
}.
Arguments runner {W} _.
Arguments world {W} _.
Arguments trace {W} _.
Arguments Build_State {W} _ _ _.

(** The monad of the engine: state and panics. *)
Definition M (W A : Type) : Type := State W -> outcome (A * State W).

#[global] Instance M_ret {W} : MRet (M W) :=
  fun A a s => Done (a, s).

#[global] Instance M_bind {W} : MBind (M W) :=
  fun A B k m s =>
    match m s with
    | Done (a, s') => k a s'
    | Panic msg => Panic msg
    end.

Definition getRunner {W} : M W LocalRunner :=
  fun s => Done (runner s, s).

Definition modifyRunner {W} (f : LocalRunner -> LocalRunner) : M W unit :=
  fun s => Done (tt, Build_State (f (runner s)) (world s) (trace s)).

Definition getWorld {W} : M W W :=
  fun s => Done (world s, s).

Definition onWorld {W A} (op : W -> W * A) : M W A :=
  fun s => let '(w, a) := op (world s) in
           Done (a, Build_State (runner s) w (trace s)).

Definition emit {W} (a : Action) : M W unit :=
  fun s => Done (tt, Build_State (runner s) (world s) (trace s ++ [a])).

Definition panic {W A} (msg : string) : M W A :=
  fun _ => Panic msg.

Fixpoint forEach {W A} (l : list A) (body : A -> M W unit) : M W unit :=
  match l with
  | [] => mret tt
  | x :: rest => body x;; forEach rest body
  end.

(** A call [m] started in [s] completes with value [a], leaves the runner
    as it was, and adds [out] to the trace. *)
Definition completes {W A} (m : M W A) (s : State W) (a : A)
    (s' : State W) (out : list Action) : Prop :=
  m s = Done (a, s')
  /\ runner s' = runner s
  /\ trace s' = (trace s ++ out)%list.

(** How a call of [Start] ends: with an error, or blocked in [keepAlive]
    while the reactor loop runs. *)
Inductive StartResult : Type :=
| StartFailed (err : string)
| Serving.

Section Engine.

Context {W : Type} (host : Host W).

(** [rt := lr.functionRuntimes[funcName]] followed by a method call on
    [rt]: a missing entry is the [nil] interface and the call panics. *)
Definition runtimeOf (funcName : string) : M W Runtime.Runtime :=
  lr ← getRunner;
  match functionRuntimes lr !! funcName with
  | Some rt => mret rt
  | None => panic "invalid memory address or nil pointer dereference"
  end.

(** [lr.runtimeFactory.GetRuntimeFromFunction(functionDir)]. *)
Definition detectRuntime (functionDir : string) : M W (result Runtime.Runtime) :=
  emit (Probe functionDir);;
  w ← getWorld;
  mret (Runtime.GetRuntimeFromFunction (listDir host w) functionDir).

(** The body of the loop of [initializeRuntimes] up to its error check: the
    configured runtime first, detection as the fallback. *)
Definition determineRuntime (function : Config.LambdaFunc) (functionDir : string)
  : M W (result Runtime.Runtime) :=
  if negb (String.eqb (Config.Runtime function) "") then
    match Runtime.GetRuntime (Config.Runtime function) with
    | Ok rt => mret (Ok rt)
    | Err e =>
        emit (Log ("Configured runtime '" ++ Config.Runtime function
                   ++ "' not supported, trying auto-detect: " ++ e));;
        detectRuntime functionDir
    end
  else detectRuntime functionDir.

Fixpoint initializeRuntimesFrom (fns : list (string * Config.LambdaFunc))
  : M W (option string) :=
  match fns with
  | [] => mret None
  | (funcName, function) :: rest =>
      lr ← getRunner;
      let codePath :=
        Filepath.Join [Config.RootPath (cfg lr);
                       Filepath.Clean (Config.Code function)] in
      let functionDir := Filepath.Dir codePath in
      r ← determineRuntime function functionDir;
      match r with
      | Err e =>
          mret (Some ("error determining runtime for " ++ funcName ++ ": " ++ e))
      | Ok rt =>
          modifyRunner (setRuntime funcName rt);;
          emit (Log ("Function " ++ funcName ++ ": " ++ Runtime.Name rt
                     ++ " runtime detected"));;
          initializeRuntimesFrom rest
      end
  end.

(** [initializeRuntimes]. *)
Definition initializeRuntimes : M W (option string) :=
  lr ← getRunner;
  initializeRuntimesFrom (Config.Functions (cfg lr)).

(** [getOutputPath]. *)
Definition getOutputPath (lr : LocalRunner) (function : Config.LambdaFunc)
    (rt : Runtime.Runtime) : string :=
  let codePath :=
    Filepath.Join [Config.RootPath (cfg lr);
                   Filepath.Clean (Config.Code function)] in
  match rt with
  | Runtime.GolangRuntime => codePath
  | Runtime.NodeJSRuntime => codePath
  | Runtime.PythonRuntime => Filepath.Dir codePath
  end.

Definition newline : string := String (ascii_of_nat 10) "".

(** The method [Build] of the three runtimes; what they print is left out. *)
Definition Build (rt : Runtime.Runtime) (functionDir outputPath : string)
    (w : W) : W * option string :=
  match rt with
  | Runtime.GolangRuntime =>
      let '(w, err) := mkdirAll host (Filepath.Dir outputPath) w in
      match err with
      | Some e => (w, Some ("error creating output directory: " ++ e))
      | None =>
          let '(w, r) :=
            runCommand host "go"
              ["build"; "-o"; outputPath ++ "/bootstrap"; "-ldflags"; "-s -w";
               outputPath]
              functionDir ["GOOS=linux"; "GOARCH=amd64"; "CGO_ENABLED=0"] w in
          match exitErr r with
          | Some e => (w, Some ("go build failed: " ++ e))
          | None => (w, None)
          end
      end
  | Runtime.NodeJSRuntime =>
      match statFile host w (Filepath.Join [functionDir; "package.json"]) with
      | StatOk =>
          let '(w, r) := runCommand host "npm" ["install"] functionDir [] w in
          match exitErr r with
          | Some e =>
              (w, Some ("npm install failed: " ++ e ++ newline ++ "Output: "
                        ++ output r))
          | None => (w, None)
          end
      | _ => (w, None)
      end
  | Runtime.PythonRuntime =>
      match statFile host w (Filepath.Join [functionDir; "requirements.txt"]) with
      | StatOk =>
          let '(w, r) :=
            runCommand host "pip"
              ["install"; "-r"; "requirements.txt"; "-t"; functionDir]
              functionDir [] w in
          match exitErr r with
          | Some e =>
              (w, Some ("pip install failed: " ++ e ++ newline ++ "Output: "
                        ++ output r))
          | None => (w, None)
          end
      | _ => (w, None)
      end
  end.

(** [buildFunction]: both arguments of [rt.Build] are the output path. *)
Definition buildFunction (funcName : string) (function : Config.LambdaFunc)
    (rt : Runtime.Runtime) : M W (option string) :=
  lr ← getRunner;
  let outputPath := getOutputPath lr function rt in
  err ← onWorld (Build rt outputPath outputPath);
  emit (BuildCall funcName rt outputPath err);;
  match err with
  | Some e => mret (Some ("build failed for " ++ funcName ++ ": " ++ e))
  | None =>
      emit (Log ("Built " ++ funcName ++ " -> " ++ outputPath));;
      mret None
  end.

Fixpoint buildAllFunctionsFrom (fns : list (string * Config.LambdaFunc))
  : M W (option string) :=
  match fns with
  | [] => mret None
  | (funcName, function) :: rest =>
      rt ← runtimeOf funcName;
      if Runtime.NeedsBuild rt then
        err ← buildFunction funcName function rt;
        match err with
        | Some e => mret (Some ("failed to build " ++ funcName ++ ": " ++ e))
        | None => buildAllFunctionsFrom rest
        end
      else
        emit (Log ("Skipping build for " ++ funcName ++ " (runtime: "
                   ++ Runtime.Name rt ++ ")"));;
        buildAllFunctionsFrom rest
  end.

(** [buildAllFunctions]. *)
Definition buildAllFunctions : M W (option string) :=
  lr ← getRunner;
  buildAllFunctionsFrom (Config.Functions (cfg lr)).

Definition templatePath : string :=
  "cdk.out/local-dev-qrioso-example-dev.template.json".

Definition envPath : string := "env.json".

Definition envContent : string :=
  "{
  'Parameters': {
    'STAGE': 'dev',
    'REGION': 'us-east-1',
    'IS_PROD': 'false'
  }
}".

(** [startLocalAPI] (the JSON of the default [env.json] is written here
    with single quotes; the pause after the start is left out). *)
Definition startLocalAPI : M W (option string) :=
  w ← getWorld;
  match statFile host w templatePath with
  | StatNotExist e =>
      mret (Some ("CDK template not found. Run 'qriosls synth' first: " ++ e))
  | _ =>
      match statFile host w envPath with
      | StatNotExist _ =>
          err ← onWorld (writeFile host envPath envContent);
          emit (WriteEnv envPath err);;
          match err with
          | Some e => emit (Log ("Could not create env.json: " ++ e))
          | None => mret tt
          end
      | _ => mret tt
      end;;
      w ← getWorld;
      let cmdArgs :=
        (["local"; "start-api"; "--template"; templatePath; "--port"; "3000";
          "--warm-containers"; "EAGER"]
         ++ match statFile host w envPath with
            | StatOk => ["--env-vars"; envPath]
            | _ => []
            end)%list
      in
      emit (Log ("Starting SAM CLI: sam " ++ GoStrings.Join cmdArgs " "));;
      r ← onWorld (startSam host cmdArgs);
      emit (Spawn cmdArgs);;
      match r with
      | Err e => mret (Some ("error starting SAM CLI: " ++ e))
      | Ok p =>
          modifyRunner (setApiProcess p);;
          emit (Log "Local API Gateway started on http://localhost:3000");;
          mret None
      end
  end.

(** [addWatchedDir]. *)
Definition addWatchedDir (dirPath : string) : M W (option string) :=
  lr ← getRunner;
  if default false (watchedDirs lr !! dirPath) then mret None
  else
    err ← onWorld (watcherAdd host dirPath);
    emit (Watch dirPath err);;
    match err with
    | Some e => mret (Some e)
    | None => modifyRunner (setWatched dirPath);; mret None
    end.

(** [setupFileWatchers], up to the start of the reactor goroutine.  The
    runtime of the function is first used after its directory could be
    watched. *)
Definition setupFileWatchers : M W (option string) :=
  emit (Log "Setting up file watchers...");;
  lr ← getRunner;
  forEach (Config.Functions (cfg lr)) (fun '(funcName, function) =>
    let completeCodePath :=
      Filepath.Join [Config.RootPath (cfg lr); Config.Code function] in
    err ← addWatchedDir completeCodePath;
    match err with
    | Some e => emit (Log ("Could not watch " ++ completeCodePath ++ ": " ++ e))
    | None =>
        rt ← runtimeOf funcName;
        emit (Log ("Watching " ++ completeCodePath ++ " for " ++ funcName
                   ++ " (" ++ Runtime.Name rt ++ ")"));;
        forEach (Runtime.WatchPatterns rt) (fun pattern =>
          let absPattern :=
            Filepath.Join [Config.RootPath (cfg lr); Config.Code function;
                           pattern] in
          w ← getWorld;
          match globPattern host w absPattern with
          | Err _ => mret tt
          | Ok matches =>
              forEach matches (fun match_ =>
                let matchDir := Filepath.Dir match_ in
                err ← addWatchedDir matchDir;
                match err with
                | Some e =>
                    emit (Log ("Could not watch " ++ matchDir ++ ": " ++ e))
                | None => mret tt
                end)
          end)
    end);;
  mret None.

(** [Start]; [debugFunctionInfo] only prints and is left out. *)
Definition Start : M W StartResult :=
  err ← initializeRuntimes;
  match err with
  | Some e => mret (StartFailed e)
  | None =>
  err ← buildAllFunctions;
  match err with
  | Some e => mret (StartFailed e)
  | None =>
  err ← startLocalAPI;
  match err with
  | Some e => mret (StartFailed e)
  | None =>
  err ← setupFileWatchers;
  match err with
  | Some e => mret (StartFailed e)
  | None =>
      emit (Log "Hot reload enabled for multiple runtimes!");;
      mret Serving
  end end end end.

(** [shouldIgnoreEvent]. *)
Definition ignorePatterns : list string :=
  ["~$"; ".swp"; ".tmp"; ".log"; "/.git/"; "/node_modules/"; ".idea/"].

Definition shouldIgnoreEvent (event : Event) : bool :=
  let fileName := Filepath.Base (Name event) in
  existsb (fun pattern =>
             GoStrings.Contains (Name event) pattern
             || GoStrings.HasSuffix fileName pattern)
          ignorePatterns.

(** [shouldIgnorePath]. *)
Definition ignoreDirs : list string := [".git"; "node_modules"; "cdk.out"; "tmp"].

Definition shouldIgnorePath (path : string) : bool :=
  existsb (fun dir => GoStrings.Contains path dir) ignoreDirs.

(** The directory [findFunctionByPath] compares a path with. *)
Definition absCodeDir (c : Config.ServerlessConfig) (function : Config.LambdaFunc)
  : string :=
  let codeDir := Filepath.Dir (Config.Code function) in
  Filepath.Join [Config.RootPath c; codeDir].

Fixpoint findFunctionIn (c : Config.ServerlessConfig)
    (fns : list (string * Config.LambdaFunc)) (filePath : string) : string :=
  match fns with
  | [] => ""
  | (funcName, function) :: rest =>
      if GoStrings.HasPrefix filePath (absCodeDir c function)
         && negb (shouldIgnorePath filePath)
      then funcName
      else findFunctionIn c rest filePath
  end.

(** [findFunctionByPath]. *)
Definition findFunctionByPath (c : Config.ServerlessConfig) (filePath : string)
  : string :=
  findFunctionIn c (Config.Functions c) filePath.

(** The owner of a path as the specification words it: of the functions
    whose source directory is a prefix of the path, the one with the longest
    directory (the first of them in case of a tie). *)
Definition longerMatch (c : Config.ServerlessConfig) (filePath : string)
    (best : option (string * nat)) (entry : string * Config.LambdaFunc)
  : option (string * nat) :=
  let d := absCodeDir c (snd entry) in
  if GoStrings.HasPrefix filePath d then
    match best with
    | Some (_, n) =>
        if (n <? String.length d)%nat then Some (fst entry, String.length d)
        else best
    | None => Some (fst entry, String.length d)
    end
  else best.

Definition ownerByLongestPrefix (c : Config.ServerlessConfig)
    (filePath : string) : string :=
  match fold_left (longerMatch c filePath) (Config.Functions c) None with
  | Some (funcName, _) => funcName
  | None => ""
  end.

(** [handleFileCreation]. *)
Definition handleFileCreation (filePath : string) : M W unit :=
  lr ← getRunner;
  let funcName := findFunctionByPath (cfg lr) filePath in
  if negb (String.eqb funcName "") then
    let hash := Sha256Hash host funcName in
    let assetDir := Config.RootPath (cfg lr) ++ "/cdk.out/asset." ++ hash in
    err ← onWorld (CopyCode host filePath assetDir);
    emit (Copy filePath assetDir err);;
    match err with
    | Some e => emit (Log ("Error copying file: " ++ e))
    | None =>
        emit (Log ("Copied " ++ Filepath.Base filePath ++ " to asset directory"))
    end
  else mret tt.

(** The body of the loop of [handleFileChange]. *)
Definition rebuildChanged (funcName : string) : M W unit :=
  lr ← getRunner;
  let function := Config.lookupFunc (Config.Functions (cfg lr)) funcName in
  rt ← runtimeOf funcName;
  if Runtime.NeedsBuild rt then
    err ← buildFunction funcName function rt;
    match err with
    | Some e => emit (Log ("Failed to rebuild " ++ funcName ++ ": " ++ e))
    | None =>
        emit (Log ("Recompiled " ++ funcName ++ " (" ++ Runtime.Name rt ++ ")"))
    end
  else
    emit (Log ("Runtime " ++ Runtime.Name rt ++ " doesn't need build")).

(** [handleFileChange]. *)
Definition handleFileChange (changedFunctions : list string) : M W unit :=
  emit (Log ("Changes detected in: ["
             ++ GoStrings.Join changedFunctions " " ++ "]"));;
  forEach changedFunctions rebuildChanged.

(** *** The reactor loop [watchForChanges]

    The local variables of the loop.  [debounceTimer] is the instant, in
    milliseconds, at which the armed timer delivers on its channel; a
    stopped or delivered timer has none. *)
Record Loop : Type := {
  changedFunctions : list string;
  changeSet : gmap string bool;
  debounceTimer : option Z;
}.

(** The state before the first round: the timer is created and stopped. *)
Definition idle : Loop :=
  {| changedFunctions := []; changeSet := ∅; debounceTimer := None |}.

(** What a round of the [select] can receive besides the timer. *)
Inductive Select : Type :=
| RecvEvent (event : Event)
| EventsClosed
| RecvError (err : string)
| ErrorsClosed
| RecvStop.

Definition debounceDelay : Z := 800.

(** The case [event, ok := <-lr.watcher.Events] with [ok], at instant [now]. *)
Definition onEvent (now : Z) (event : Event) (l : Loop) : M W Loop :=
  if N.eqb (Op event) Chmod || shouldIgnoreEvent event then mret l
  else
    emit (LogEvent (Op event) (Name event));;
    (if N.eqb (N.land (Op event) Create) Create
     then handleFileCreation (Name event) else mret tt);;
    lr ← getRunner;
    let funcName := findFunctionByPath (cfg lr) (Name event) in
    if negb (String.eqb funcName "") then
      let l' :=
        if negb (default false (changeSet l !! funcName)) then
          {| changedFunctions := changedFunctions l ++ [funcName];
             changeSet := <[funcName := true]> (changeSet l);
             debounceTimer := debounceTimer l |}
        else l in
      mret {| changedFunctions := changedFunctions l';
              changeSet := changeSet l';
              debounceTimer := Some (now + debounceDelay)%Z |}
    else mret l.

(** The case [<-debounceTimer.C], the timer delivering at instant [at_ms]. *)
Definition onTimer (at_ms : Z) (l : Loop) : M W Loop :=
  if (0 <? length (changedFunctions l))%nat then
    emit (Fired at_ms (changedFunctions l));;
    handleFileChange (changedFunctions l);;
    mret idle
  else
    mret {| changedFunctions := changedFunctions l;
            changeSet := changeSet l;
            debounceTimer := None |}.

(** A timer whose instant has come delivers before anything received at or
    after that instant is served. *)
Definition advance (now : Z) (l : Loop) : M W Loop :=
  match debounceTimer l with
  | Some d => if (d <=? now)%Z then onTimer d l else mret l
  | None => mret l
  end.

(** The loop over the receptions of the [select], each with the instant at
    which the loop takes it.  The flag tells whether the loop is still
    running after them. *)
Fixpoint serve (l : Loop) (inputs : list (Z * Select)) : M W (Loop * bool) :=
  match inputs with
  | [] => mret (l, true)
  | (now, input) :: rest =>
      l ← advance now l;
      match input with
      | RecvEvent event => l ← onEvent now event l; serve l rest
      | EventsClosed =>
          emit (Log "Watcher events channel closed");; mret (l, false)
      | RecvError err => emit (Log ("Watcher error: " ++ err));; serve l rest
      | ErrorsClosed => mret (l, false)
      | RecvStop => emit (Log "Received stop signal");; mret (l, false)
      end
  end.

(** Nothing more arrives: an armed timer delivers at its instant, and the
    loop stays blocked in the [select]. *)
Definition settle (l : Loop) : M W Loop :=
  match debounceTimer l with
  | Some d => onTimer d l
  | None => mret l
  end.

Definition reactor (l : Loop) (inputs : list (Z * Select)) : M W Loop :=
  '(l, running) ← serve l inputs;
  if running : bool then settle l else mret l.

(** [watchForChanges]: the given receptions, then silence. *)
Definition watchForChanges (inputs : list (Z * Select)) : M W Loop :=
  reactor idle inputs.

(** The loop state with one pending function and the timer armed by a
    reception at instant [t]. *)
Definition pendingOne (funcName : string) (t : Z) : Loop :=
  {| changedFunctions := [funcName];
     changeSet := {[funcName := true]};
     debounceTimer := Some (t + debounceDelay)%Z |}.

(** [close(lr.stopChan)]. *)
Definition closeStopChan : M W unit :=
  lr ← getRunner;
  match stopChan lr with
  | ChanOpen => modifyRunner (setStopChan ChanClosed);; emit CloseStop
  | ChanClosed => panic "close of closed channel"
  end.

(** [lr.watcher.Close()]: a watcher already closed returns at once. *)
Definition closeWatcher (w : Watcher) : M W unit :=
  if isClosed w then mret tt
  else modifyRunner (setWatcher {| isClosed := true |});; emit CloseWatcher.

(** [Stop].  Nothing is ever sent on [stopChan], so the receive of the
    [select] is ready exactly when the channel is closed. *)
Definition Stop : M W unit :=
  lr ← getRunner;
  match stopChan lr with
  | ChanClosed => mret tt
  | ChanOpen => closeStopChan
  end;;
  match apiProcess lr with
  | Some p =>
      emit (Log "Stopping SAM CLI...");;
      onWorld (fun w => (killProcess host p w, tt));;
      emit (Kill p)
  | None => mret tt
  end;;
  match watcher lr with
  | Some w => closeWatcher w
  | None => mret tt
  end.

(** [n] calls of [Stop] in a row. *)
Fixpoint StopTimes (n : nat) : M W unit :=
  match n with
  | O => mret tt
  | S n' => Stop;; StopTimes n'
  end.

End Engine.

(** *** Reading a trace and a runner *)

(** Whether the runtime resolved for a function needs a build. *)
Definition needsBuildIn (lr : LocalRunner) (funcName : string) : bool :=
  match functionRuntimes lr !! funcName with
  | Some rt => Runtime.NeedsBuild rt
  | None => false
  end.

(** A change event of function [funcName]: not a bare [Chmod], not ignored,
    and its path is mapped to [funcName] by [findFunctionByPath]. *)
Definition owned (c : Config.ServerlessConfig) (funcName : string)
    (event : Event) : bool :=
  negb (N.eqb (Op event) Chmod)
  && negb (shouldIgnoreEvent event)
  && String.eqb (findFunctionByPath c (Name event)) funcName
  && negb (String.eqb funcName "").

(** A burst after instant [t0]: every reception comes less than one
    debounce delay after the one before it. *)
Fixpoint burstFrom (t0 : Z) (events : list (Z * Event)) : bool :=
  match events with
  | [] => true
  | (t, _) :: rest =>
      (t0 <=? t)%Z && (t <? t0 + debounceDelay)%Z && burstFrom t rest
  end.

Fixpoint lastInstant (t0 : Z) (events : list (Z * Event)) : Z :=
  match events with
  | [] => t0
  | (t, _) :: rest => lastInstant t rest
  end.

Definition receptions (events : list (Z * Event)) : list (Z * Select) :=
  map (fun te => (fst te, RecvEvent (snd te))) events.

(** The function [funcName] was put forward by an event of [inputs] that
    matches no ignore rule. *)
Definition fromEvent (c : Config.ServerlessConfig)
    (inputs : list (Z * Select)) (funcName : string) : Prop :=
  exists t event,
    In (t, RecvEvent event) inputs
    /\ shouldIgnoreEvent event = false
    /\ shouldIgnorePath (Name event) = false
    /\ findFunctionByPath c (Name event) = funcName.

(** The runner once stop has been signalled and the watcher released. *)
Definition stopped (lr : LocalRunner) : Prop :=
  stopChan lr = ChanClosed
  /\ (watcher lr = None \/ watcher lr = Some {| isClosed := true |}).

(** The directory in which [initializeRuntimes] looks for markers. *)
Definition functionDirOf (c : Config.ServerlessConfig)
    (function : Config.LambdaFunc) : string :=
  Filepath.Dir (Filepath.Join [Config.RootPath c;
                               Filepath.Clean (Config.Code function)]).

(** The resolution policy as the specification words it: the declared
    identifier first, detection when there is none or when it is not
    supported. *)
Definition resolution (fs : Runtime.Listing) (c : Config.ServerlessConfig)
    (function : Config.LambdaFunc) : result Runtime.Runtime :=
  if String.eqb (Config.Runtime function) "" then
    Runtime.GetRuntimeFromFunction fs (functionDirOf c function)
  else
    match Runtime.GetRuntime (Config.Runtime function) with
    | Ok rt => Ok rt
    | Err _ => Runtime.GetRuntimeFromFunction fs (functionDirOf c function)
    end.

Definition resolves (fs : Runtime.Listing) (c : Config.ServerlessConfig)
    (function : Config.LambdaFunc) : bool :=
  match resolution fs c function with
  | Ok _ => true
  | Err _ => false
  end.

(** An action that only reads or prints. *)
Definition isQuiet (a : Action) : bool :=
  match a with
  | Log _ | LogEvent _ _ | Probe _ => true
  | _ => false
  end.

(** Whether a runtime has been resolved for a function. *)
Definition resolvedIn (lr : LocalRunner) (funcName : string) : bool :=
  match functionRuntimes lr !! funcName with
  | Some _ => true
  | None => false
  end.

(** The functions [rt.Build] was called for, in order. *)
Definition buildsOf (tr : list Action) : list string :=
  flat_map (fun a => match a with BuildCall f _ _ _ => [f] | _ => [] end) tr.

(** The batches handed to [handleFileChange], with the instant of each. *)
Definition firings (tr : list Action) : list (Z * list string) :=
  flat_map (fun a => match a with Fired t b => [(t, b)] | _ => [] end) tr.

Definition isLog (a : Action) : bool :=
  match a with
  | Log _ | LogEvent _ _ => true
  | _ => false
  end.

(** A trace without its log lines. *)
Definition effects (tr : list Action) : list Action :=
  List.filter (fun a => negb (isLog a)) tr.

Definition closesOf (tr : list Action) : nat :=
  length (List.filter (fun a => match a with CloseStop => true | _ => false end) tr).

(** A call [m] started in [s] completes with value [a] in state [s'],
    adding [out] to the trace (the runner may change). *)
Definition runs {W A} (m : M W A) (s : State W) (a : A)
    (s' : State W) (out : list Action) : Prop :=
  m s = Done (a, s') /\ trace s' = (trace s ++ out)%list.

(** The directories [lr.watcher.Add] accepted, in order. *)
Definition watchedOf (tr : list Action) : list string :=
  flat_map (fun a => match a with Watch d None => [d] | _ => [] end) tr.

(** [lr.watchedDirs[dirPath]]. *)
Definition isWatched (lr : LocalRunner) (dirPath : string) : bool :=
  default false (watchedDirs lr !! dirPath).

(** The copies [handleFileCreation] asked for: source and target directory. *)
Definition copiesOf (tr : list Action) : list (string * string) :=
  flat_map (fun a => match a with Copy p d _ => [(p, d)] | _ => [] end) tr.

(** The commands [startLocalAPI] started. *)
Definition spawnsOf (tr : list Action) : list (list string) :=
  flat_map (fun a => match a with Spawn args => [args] | _ => [] end) tr.

(** The actions of the phases of [Start] after the resolution.  A call of
    [rt.Build] counts only for a runtime that needs a build. *)
Definition isBuildPhase (a : Action) : bool :=
  match a with
  | Log _ => true
  | BuildCall _ rt _ _ => Runtime.NeedsBuild rt
  | _ => false
  end.

Definition isApiPhase (a : Action) : bool :=
  match a with
  | Log _ | WriteEnv _ _ | Spawn _ => true
  | _ => false
  end.

Definition isWatchPhase (a : Action) : bool :=
  match a with
  | Log _ | Watch _ _ => true
  | _ => false
  end.

(** The actions of the reactor loop. *)
Definition isReactorAction (a : Action) : bool :=
  match a with
  | Log _ | LogEvent _ _ | Copy _ _ _ | Fired _ _ => true
  | BuildCall _ rt _ _ => Runtime.NeedsBuild rt
  | _ => false
  end.

(** Two runners that differ at most in the watched directories. *)
Definition sameButWatched (lr lr' : LocalRunner) : Prop :=
  cfg lr' = cfg lr /\ watcher lr' = watcher lr
  /\ apiProcess lr' = apiProcess lr /\ stopChan lr' = stopChan lr
  /\ functionRuntimes lr' = functionRuntimes lr.

(** What a run of watch registrations does to the runner [lr]: it changes
    the watched set only; the directories the watcher accepted are distinct,
    were not watched before, and are, with those watched before, the ones
    watched after. *)
Definition watchProgress (lr lr' : LocalRunner) (out : list Action) : Prop :=
  sameButWatched lr lr'
  /\ Forall (fun a => isWatchPhase a = true) out
  /\ NoDup (watchedOf out)
  /\ (forall d, In d (watchedOf out) -> isWatched lr d = false)
  /\ (forall d, isWatched lr' d = true
                <-> isWatched lr d = true \/ In d (watchedOf out)).

(** Every function of the configuration has a runtime. *)
Definition allResolved (lr : LocalRunner) : Prop :=
  forallb (resolvedIn lr) (map fst (Config.Functions (cfg lr))) = true.

(** Two runners that differ at most in the resolved runtimes. *)
Definition sameButRuntimes (lr lr' : LocalRunner) : Prop :=
  cfg lr' = cfg lr /\ watcher lr' = watcher lr
  /\ apiProcess lr' = apiProcess lr /\ stopChan lr' = stopChan lr
  /\ watchedDirs lr' = watchedDirs lr.

(** The arguments [startLocalAPI] gives to [sam] in world [w]. *)
Definition samArgs {W} (host : Host W) (w : W) : list string :=
  (["local"; "start-api"; "--template"; templatePath; "--port"; "3000";
    "--warm-containers"; "EAGER"]
   ++ match statFile host w envPath with
      | StatOk => ["--env-vars"; envPath]
      | _ => []
      end)%list.

(** The state of the loop between two rounds: the pending list has no
    repetition, the set holds exactly the pending functions, and the timer
    is armed whenever a function is pending. *)
Definition loopInv (l : Loop) : Prop :=
  NoDup (changedFunctions l)
  /\ (forall f, default false (changeSet l !! f) = true
                <-> In f (changedFunctions l))
  /\ (changedFunctions l <> [] -> debounceTimer l <> None).

(** The loop state after a change event of [f] received at [now]. *)
Definition armed (f : string) (now : Z) (l : Loop) : Loop :=
  {| changedFunctions :=
       if default false (changeSet l !! f) then changedFunctions l
       else (changedFunctions l ++ [f])%list;
     changeSet :=
       if default false (changeSet l !! f) then changeSet l
       else <[f := true]> (changeSet l);
     debounceTimer := Some (now + debounceDelay)%Z |}.

(** Receptions that leave the loop running: events and watcher errors. *)
Definition keepsRunning (input : Z * Select) : bool :=
  match snd input with
  | RecvEvent _ | RecvError _ => true
  | _ => false
  end.

(** The function [funcName] has a change event among [inputs]. *)
Definition changedBy (c : Config.ServerlessConfig)
    (inputs : list (Z * Select)) (funcName : string) : Prop :=
  exists t event, In (t, RecvEvent event) inputs /\ owned c funcName event = true.

(** The function [funcName] is in a batch of the trace. *)
Definition firedIn (tr : list Action) (funcName : string) : Prop :=
  exists t batch, In (t, batch) (firings tr) /\ In funcName batch.

(** The receptions on which the loop returns: a closed channel. *)
Definition endsLoop (input : Select) : bool :=
  match input with
  | EventsClosed | ErrorsClosed | RecvStop => true
  | RecvEvent _ | RecvError _ => false
  end.


End Local.

(** ** Package [main]: the command [local] *)

Module Main.

Section Command.

Context {W : Type} (host : Local.Host W).



End Command.

End Main.

(** ** A small project, to run the engine on *)

Module Demo.

Definition func (runtime code : string) : Config.LambdaFunc :=
  {| Config.FunctionName := "fn"; Config.Runtime := runtime;
     Config.Handler := "bootstrap"; Config.Code := code;
     Config.MemorySize := 128; Config.Timeout := 30; Config.Events := [] |}.

Definition project (fns : list (string * Config.LambdaFunc))
  : Config.ServerlessConfig :=
  {| Config.Service := "demo"; Config.Stage := "dev"; Config.Api := None;
     Config.Functions := fns; Config.RootPath := "/proj" |}.

(** A host whose world never changes: [fs] lists the directories, the
    commands run in a directory of [broken] fail, everything else works;
    the digest is a stand-in. *)
Definition host (fs : Runtime.Listing) (broken : list string)
  : Local.Host unit :=
  {| Local.listDir := fun _ => fs;
     Local.mkdirAll := fun _ w => (w, None);
     Local.runCommand := fun _ _ dir _ w =>
       (w, {| Local.output := "";
              Local.exitErr := if existsb (String.eqb dir) broken
                               then Some "exit status 1" else None |});
     Local.Sha256Hash := fun name => "sha256:" ++ name;
     Local.CopyCode := fun _ _ w => (w, None);
     Local.statFile := fun _ _ => Local.StatOk;
     Local.writeFile := fun _ _ w => (w, None);
     Local.startSam := fun _ w => (w, Ok {| Local.Pid := 4242 |});
     Local.watcherAdd := fun _ w => (w, None);
     Local.globPattern := fun _ _ => Ok [];
     Local.killProcess := fun _ w => w |}.

(** The engine of a project once the given runtimes have been resolved. *)
Definition ready (c : Config.ServerlessConfig)
    (rts : list (string * Runtime.Runtime)) : Local.State unit :=
  Local.Build_State
    (fold_left (fun lr e => Local.setRuntime (fst e) (snd e) lr) rts
               (Local.NewLocalRunner c))
    tt [].

Definition noFiles : Runtime.Listing := fun _ => None.

Definition start (c : Config.ServerlessConfig) : Local.State unit :=
  Local.Build_State (Local.NewLocalRunner c) tt [].

(** What a call leaves behind: its value and the trace, or the panic. *)
Definition observe {A} (o : Local.outcome (A * Local.State unit))
  : option (A * list Local.Action) :=
  match o with
  | Local.Done (a, s) => Some (a, Local.trace s)
  | Local.Panic _ => None
  end.

(** Two Go functions, [orders] listed before [billing]. *)
Definition twoGo : Config.ServerlessConfig :=
  project [("orders", func "provided.al2" "functions/orders/bootstrap");
           ("billing", func "go1.x" "functions/billing/bootstrap")].

(** A Node.js function. *)
Definition oneNode : Config.ServerlessConfig :=
  project [("api", func "nodejs20.x" "functions/api/index.js")].

(** A function whose source directory lies inside the one of another. *)
Definition nested : Config.ServerlessConfig :=
  project [("api", func "go1.x" "src/api/bootstrap");
           ("admin", func "go1.x" "src/api/admin/bootstrap")].

(** A directory holding the markers of all three kinds. *)
Definition mixedDir : Runtime.Listing :=
  fun dir =>
    if String.eqb dir "/proj/functions/mixed"
    then Some ["requirements.txt"; "package.json"; "main.go"; "app.py"]
    else None.

(** A function with an unsupported declared runtime, after a Go one. *)
Definition withUnknown : Config.ServerlessConfig :=
  project [("orders", func "go1.x" "functions/orders/bootstrap");
           ("reports", func "java17" "functions/reports/bootstrap")].

(** The directory of [reports] holds a Python source. *)
Definition reportsPy : Runtime.Listing :=
  fun dir =>
    if String.eqb dir "/proj/functions/reports" then Some ["report.py"] else None.

Definition writeTo (name : string) : Local.Event :=
  {| Local.Name := name; Local.Op := Local.Write |}.

(** The host of [host] with no synthesized template. *)
Definition hostNoTemplate (fs : Runtime.Listing) (broken : list string)
  : Local.Host unit :=
  {| Local.listDir := Local.listDir (host fs broken);
     Local.mkdirAll := Local.mkdirAll (host fs broken);
     Local.runCommand := Local.runCommand (host fs broken);
     Local.Sha256Hash := Local.Sha256Hash (host fs broken);
     Local.CopyCode := Local.CopyCode (host fs broken);
     Local.statFile := fun _ path =>
       if String.eqb path Local.templatePath
       then Local.StatNotExist
              ("stat " ++ path ++ ": no such file or directory")
       else Local.StatOk;
     Local.writeFile := Local.writeFile (host fs broken);
     Local.startSam := Local.startSam (host fs broken);
     Local.watcherAdd := Local.watcherAdd (host fs broken);
     Local.globPattern := Local.globPattern (host fs broken);
     Local.killProcess := Local.killProcess (host fs broken) |}.

Definition createAt (name : string) : Local.Event :=
  {| Local.Name := name; Local.Op := Local.Create |}.

(** A configuration [Validate] accepts. *)
Definition validFunc : Config.LambdaFunc :=
  {| Config.FunctionName := "orders-fn"; Config.Runtime := "provided.al2";
     Config.Handler := "bootstrap"; Config.Code := "functions/orders/bootstrap";
     Config.MemorySize := 128; Config.Timeout := 30;
     Config.Events :=
       [{| Config.Type_ := "http"; Config.Resource := "/orders";
           Config.Path := "/{id}"; Config.Method := "GET" |}] |}.

Definition validProject : Config.ServerlessConfig :=
  {| Config.Service := "demo-1"; Config.Stage := "dev"; Config.Api := None;
     Config.Functions := [("orders", validFunc); ("billing", validFunc)];
     Config.RootPath := "/proj" |}.

(** The same project with its functions listed the other way round. *)
Definition validProjectSwapped : Config.ServerlessConfig :=
  {| Config.Service := "demo-1"; Config.Stage := "dev"; Config.Api := None;
     Config.Functions := [("billing", validFunc); ("orders", validFunc)];
     Config.RootPath := "/proj" |}.

(** The two Go functions of [twoGo] with their runtimes resolved. *)
Definition twoGoReady : Local.State unit :=
  ready twoGo [("orders", Runtime.GolangRuntime);
               ("billing", Runtime.GolangRuntime)].


End Demo.

(** * Properties *)

Example clean_1 : Filepath.Clean "a//b/./c/.." = "a/b". Proof. reflexivity. Qed.
Example clean_2 : Filepath.Clean "/../a/../.." = "/". Proof. reflexivity. Qed.
Example clean_3 : Filepath.Clean "../../a/../../b" = "../../../b". Proof. reflexivity. Qed.
Example clean_4 : Filepath.Clean "" = ".". Proof. reflexivity. Qed.
Example dir_1 : Filepath.Dir "functions/hello/main.go" = "functions/hello". Proof. reflexivity. Qed.
Example dir_2 : Filepath.Dir "main.go" = ".". Proof. reflexivity. Qed.
Example dir_3 : Filepath.Dir "/a" = "/". Proof. reflexivity. Qed.
Example base_1 : Filepath.Base "/a/b/c.swp" = "c.swp". Proof. reflexivity. Qed.
Example base_2 : Filepath.Base "///" = "/". Proof. reflexivity. Qed.
Example base_3 : Filepath.Base "a/b/" = "b". Proof. reflexivity. Qed.
Example join_1 : Filepath.Join ["/proj"; "functions/hello"] = "/proj/functions/hello". Proof. reflexivity. Qed.
Example join_2 : Filepath.Join [""; "."] = ".". Proof. reflexivity. Qed.
Example join_3 : Filepath.Join ["/proj/"; "../x/"] = "/x". Proof. reflexivity. Qed.
Example suffix_1 : GoStrings.HasSuffix "main.go" ".go" = true. Proof. reflexivity. Qed.
Example suffix_2 : GoStrings.HasSuffix "go" ".go" = false. Proof. reflexivity. Qed.
Example lower_1 : GoStrings.ToLower "Provided_AL2" = "provided_al2". Proof. reflexivity. Qed.
Example trim_1 : GoStrings.TrimSpace "  go 1.x  " = "go 1.x". Proof. reflexivity. Qed.
Example getRuntime_1 : Runtime.GetRuntime "Go1.x" = Ok Runtime.GolangRuntime. Proof. reflexivity. Qed.
Example getRuntime_2 : Runtime.GetRuntime "NODEJS20.x" = Ok Runtime.NodeJSRuntime. Proof. reflexivity. Qed.
Example getRuntime_3 : Runtime.GetRuntime "java17" = Err "unsupported AWS Lambda runtime: java17". Proof. reflexivity. Qed.
Example toLambda_1 : Engine.toLambdaRuntime " Provided_AL2 " = Some Engine.PROVIDED_AL2. Proof. reflexivity. Qed.
Example toLambda_2 : Engine.toLambdaRuntime "provided.al2" = Some Engine.PROVIDED_AL2. Proof. reflexivity. Qed.
Example toLambda_3 : Engine.toLambdaRuntime "node-js_20.x" = Some Engine.NODEJS_20_X. Proof. reflexivity. Qed.

(** ** Runtime detection *)

Section Detection.

Variable fs : Runtime.Listing.
Variable dir : string.

(** A marker of the Go kind is an entry whose name ends with [.go]. *)
Lemma hasGoFiles_entry :
  Runtime.hasGoFiles fs dir = true <->
  exists names n, fs dir = Some names /\ In n names
                  /\ GoStrings.HasSuffix n ".go" = true.
Proof.
  unfold Runtime.hasGoFiles, Runtime.globStar.
  destruct (fs dir) as [names|]; simpl.
  - split.
    + intros H.
      destruct (List.filter (fun n => GoStrings.HasSuffix n ".go") names)
        as [|n l] eqn:E; [discriminate|].
      assert (Hin : In n (List.filter (fun n => GoStrings.HasSuffix n ".go") names))
        by (rewrite E; left; reflexivity).
      apply filter_In in Hin as [Hin Hs]. eauto.
    + intros (names' & n & [= <-] & Hin & Hs).
      assert (Hf : In n (List.filter (fun n => GoStrings.HasSuffix n ".go") names))
        by (apply filter_In; auto).
      destruct (List.filter _ names); [destruct Hf | reflexivity].
  - split; [discriminate|]. intros (? & ? & [=] & _).
Qed.


End Detection.

Example detect_mixed :
  Runtime.GetRuntimeFromFunction Demo.mixedDir "/proj/functions/mixed"
  = Ok Runtime.GolangRuntime.
Proof. reflexivity. Qed.

Example detect_nothing :
  Runtime.GetRuntimeFromFunction Demo.noFiles "/proj/functions/mixed"
  = Err "could not detect runtime for function in: /proj/functions/mixed".
Proof. reflexivity. Qed.

(** ** Resolution of a declared identifier *)

Lemma lower_ascii_idem c :
  GoStrings.lower_ascii (GoStrings.lower_ascii c) = GoStrings.lower_ascii c.
Proof.
  destruct c as [[] [] [] [] [] [] [] []]; reflexivity.
Qed.

Lemma ToLower_idem s : GoStrings.ToLower (GoStrings.ToLower s) = GoStrings.ToLower s.
Proof.
  induction s as [|c s IH]; simpl; [reflexivity|].
  now rewrite lower_ascii_idem, IH.
Qed.

(** The kind depends on the lower-cased identifier only. *)
Lemma GetRuntime_kind_lower s :
  Runtime.kindOf (Runtime.GetRuntime s)
  = Runtime.kindOf (Runtime.GetRuntime (GoStrings.ToLower s)).
Proof.
  unfold Runtime.GetRuntime. rewrite ToLower_idem.
  repeat match goal with |- context [if ?b then _ else _] => destruct b end;
    reflexivity.
Qed.

(** C7, as the code has it. [GetRuntime] folds the case of the identifier
    and nothing else: two identifiers that differ only in letter case
    resolve to the same kind, or are both unsupported. *)
Theorem GetRuntime_case_insensitive (s t : string) :
  GoStrings.ToLower s = GoStrings.ToLower t ->
  Runtime.kindOf (Runtime.GetRuntime s) = Runtime.kindOf (Runtime.GetRuntime t).
Proof.
  intros H. rewrite (GetRuntime_kind_lower s), (GetRuntime_kind_lower t).
  now rewrite H.
Qed.

(** Two spellings of one identifier that differ in case only. *)
Lemma GetRuntime_case_insensitive_witness :
  GoStrings.ToLower "Provided.AL2" = GoStrings.ToLower "provided.al2"
  /\ Runtime.kindOf (Runtime.GetRuntime "Provided.AL2")
     = Runtime.kindOf (Runtime.GetRuntime "provided.al2").
Proof.
  split; [reflexivity|].
  apply (GetRuntime_case_insensitive "Provided.AL2" "provided.al2").
  reflexivity.
Defined.

(** C7 as stated fails: the two spellings of the claim are equal once case
    is folded and separators are stripped, yet the first resolves to the Go
    kind and the second is unsupported. *)
Lemma GetRuntime_keeps_separators :
  Runtime.specNormalize "provided.al2" = Runtime.specNormalize "Provided_AL2"
  /\ Runtime.GetRuntime "provided.al2" = Ok Runtime.GolangRuntime
  /\ Runtime.GetRuntime "Provided_AL2"
     = Err "unsupported AWS Lambda runtime: Provided_AL2".
Proof. repeat split; reflexivity. Qed.

(** The mapping used for deployment does take both spellings alike. *)
Example toLambdaRuntime_both_spellings :
  Engine.toLambdaRuntime "provided.al2" = Engine.toLambdaRuntime "Provided_AL2".
Proof. reflexivity. Qed.

(** ** Ownership of a changed path *)

Lemma shouldIgnorePath_substring (path : string) :
  Local.shouldIgnorePath path = true <->
  exists dir, In dir Local.ignoreDirs /\ GoStrings.Contains path dir = true.
Proof. unfold Local.shouldIgnorePath. apply existsb_exists. Qed.

Lemma findFunctionIn_ignored c fns path :
  Local.shouldIgnorePath path = true -> Local.findFunctionIn c fns path = "".
Proof.
  intros H. induction fns as [|[name fn] fns IH]; simpl; [reflexivity|].
  rewrite H. simpl. rewrite andb_false_r. exact IH.
Qed.

Lemma findFunctionIn_first c fns path :
  Local.shouldIgnorePath path = false ->
  Local.findFunctionIn c fns path =
  match List.find (fun e => GoStrings.HasPrefix path (Local.absCodeDir c (snd e))) fns with
  | Some e => fst e
  | None => ""
  end.
Proof.
  intros H. induction fns as [|[name fn] fns IH]; simpl; [reflexivity|].
  rewrite H. simpl. rewrite andb_true_r.
  destruct (GoStrings.HasPrefix path (Local.absCodeDir c fn)); [reflexivity|exact IH].
Qed.

Lemma findFunctionIn_key c fns path :
  Local.findFunctionIn c fns path = ""
  \/ exists fn, In (Local.findFunctionIn c fns path, fn) fns.
Proof.
  induction fns as [|[name fn] fns IH]; simpl; [now left|].
  destruct (_ && _).
  - right. exists fn. now left.
  - destruct IH as [IH|[fn' IH]]; [now left|]. right. exists fn'. now right.
Qed.

(** ** Running the engine *)

Ltac run_m :=
  unfold mbind, Local.M_bind, mret, Local.M_ret, Local.emit, Local.getRunner,
    Local.modifyRunner, Local.getWorld, Local.onWorld, Local.panic; simpl.

Lemma completes_bind {W A B} (m : Local.M W A) (k : A -> Local.M W B)
    s a s1 out1 b s2 out2 :
  Local.completes m s a s1 out1 -> Local.completes (k a) s1 b s2 out2 ->
  Local.completes (m ≫= k) s b s2 (out1 ++ out2)%list.
Proof.
  intros (E1 & R1 & T1) (E2 & R2 & T2). unfold Local.completes.
  unfold mbind, Local.M_bind. rewrite E1. split; [exact E2|].
  split; [congruence|]. rewrite T2, T1. now rewrite app_assoc.
Qed.

Lemma completes_ret {W A} (a : A) (s : Local.State W) :
  Local.completes (mret a) s a s [].
Proof. unfold Local.completes. run_m. now rewrite app_nil_r. Qed.

Lemma completes_emit {W} (x : Local.Action) (s : Local.State W) :
  Local.completes (Local.emit x) s tt
    (Local.Build_State (Local.runner s) (Local.world s) (Local.trace s ++ [x])%list)
    [x].
Proof. unfold Local.completes. run_m. auto. Qed.

Lemma buildsOf_app tr1 tr2 :
  Local.buildsOf (tr1 ++ tr2)%list
  = (Local.buildsOf tr1 ++ Local.buildsOf tr2)%list.
Proof. unfold Local.buildsOf. apply flat_map_app. Qed.

Lemma firings_app tr1 tr2 :
  Local.firings (tr1 ++ tr2)%list
  = (Local.firings tr1 ++ Local.firings tr2)%list.
Proof. unfold Local.firings. apply flat_map_app. Qed.

Lemma effects_app tr1 tr2 :
  Local.effects (tr1 ++ tr2)%list
  = (Local.effects tr1 ++ Local.effects tr2)%list.
Proof. unfold Local.effects. apply List.filter_app. Qed.

Lemma logs_buildsOf tl :
  Forall (fun a => Local.isLog a = true) tl -> Local.buildsOf tl = [].
Proof.
  induction 1 as [|a l Ha _ IH]; [reflexivity|].
  destruct a; try discriminate Ha; exact IH.
Qed.

Lemma logs_firings tl :
  Forall (fun a => Local.isLog a = true) tl -> Local.firings tl = [].
Proof.
  induction 1 as [|a l Ha _ IH]; [reflexivity|].
  destruct a; try discriminate Ha; exact IH.
Qed.

Lemma logs_effects tl :
  Forall (fun a => Local.isLog a = true) tl -> Local.effects tl = [].
Proof.
  induction 1 as [|a l Ha _ IH]; [reflexivity|].
  unfold Local.effects. simpl. rewrite Ha. exact IH.
Qed.

Lemma logs_no_build tl f rt p e :
  Forall (fun a => Local.isLog a = true) tl -> ~ In (Local.BuildCall f rt p e) tl.
Proof.
  intros H Hin. rewrite List.Forall_forall in H. apply H in Hin. discriminate Hin.
Qed.

Section EngineFacts.

Context {W : Type} (host : Local.Host W).

(** [buildFunction] calls the tool chain once, whatever the result. *)
Lemma buildFunction_completes funcName function rt (s : Local.State W) :
  exists s' err,
    Local.completes (Local.buildFunction host funcName function rt) s
      (match err with
       | Some e => Some ("build failed for " ++ funcName ++ ": " ++ e)
       | None => None
       end)
      s'
      (Local.BuildCall funcName rt (Local.getOutputPath (Local.runner s) function rt) err
       :: match err with
          | Some _ => []
          | None =>
              [Local.Log ("Built " ++ funcName ++ " -> "
                          ++ Local.getOutputPath (Local.runner s) function rt)]
          end).
Proof.
  unfold Local.buildFunction, Local.completes. run_m.
  destruct (Local.Build host rt _ _ (Local.world s)) as [w' err] eqn:E.
  destruct err as [e|]; simpl.
  - eexists. exists (Some e). repeat split; reflexivity.
  - eexists. exists None. split; [reflexivity|split; [reflexivity|]].
    simpl. now rewrite <- app_assoc.
Qed.

(** One round of the loop of [handleFileChange]: a function whose runtime
    needs a build is built once and the result is logged; for the others a
    line is logged and nothing is built. *)
Lemma rebuildChanged_completes f rt (s : Local.State W) :
  Local.functionRuntimes (Local.runner s) !! f = Some rt ->
  exists s' out,
    Local.completes (Local.rebuildChanged host f) s tt s' out
    /\ Local.buildsOf out = (if Runtime.NeedsBuild rt then [f] else [])
    /\ Local.firings out = []
    /\ (forall f' rt' p e, In (Local.BuildCall f' rt' p (Some e)) out ->
          In (Local.Log ("Failed to rebuild " ++ f' ++ ": build failed for "
                         ++ f' ++ ": " ++ e)) out).
Proof.
  intros Hrt. unfold Local.rebuildChanged.
  destruct (Runtime.NeedsBuild rt) eqn:Hnb.
  - destruct (buildFunction_completes f
                (Config.lookupFunc (Config.Functions (Local.cfg (Local.runner s))) f)
                rt s) as (s1 & err & E & R & T).
    destruct err as [e|].
    + eexists. eexists. split; [unfold Local.completes|].
      * unfold Local.runtimeOf. run_m. rewrite Hrt. run_m. rewrite Hnb, E. run_m.
        split; [reflexivity|split; [exact R|]].
        rewrite T, <- app_assoc. reflexivity.
      * simpl. repeat split; auto.
        intros f' rt' p e' [Hin|[Hin|[]]]; [|discriminate Hin].
        injection Hin as <- <- <- <-. right. now left.
    + eexists. eexists. split; [unfold Local.completes|].
      * unfold Local.runtimeOf. run_m. rewrite Hrt. run_m. rewrite Hnb, E. run_m.
        split; [reflexivity|split; [exact R|]].
        rewrite T, <- app_assoc. reflexivity.
      * simpl. repeat split; auto.
        intros f' rt' p e' [Hin|[Hin|[Hin|[]]]]; discriminate Hin.
  - eexists. eexists. split; [unfold Local.completes|].
    + unfold Local.runtimeOf. run_m. rewrite Hrt. run_m. rewrite Hnb. run_m.
      repeat split; reflexivity.
    + simpl. repeat split; auto. intros ? ? ? ? [Hc|[]]. discriminate Hc.
Qed.

Lemma forEach_rebuildChanged batch : forall (s : Local.State W),
  (forall f, In f batch -> is_Some (Local.functionRuntimes (Local.runner s) !! f)) ->
  exists s' out,
    Local.completes (Local.forEach batch (Local.rebuildChanged host)) s tt s' out
    /\ Local.buildsOf out = List.filter (Local.needsBuildIn (Local.runner s)) batch
    /\ Local.firings out = []
    /\ (forall f rt p e, In (Local.BuildCall f rt p (Some e)) out ->
          In (Local.Log ("Failed to rebuild " ++ f ++ ": build failed for "
                         ++ f ++ ": " ++ e)) out).
Proof.
  induction batch as [|f batch IH]; intros s Hres.
  - exists s, []. split; [apply completes_ret|]. simpl. repeat split; auto.
  - destruct (Hres f (or_introl eq_refl)) as [rt Hrt].
    destruct (rebuildChanged_completes f rt s Hrt) as (s1 & out1 & C1 & B1 & F1 & L1).
    assert (R1 : Local.runner s1 = Local.runner s) by apply C1.
    destruct (IH s1) as (s2 & out2 & C2 & B2 & F2 & L2).
    { intros g Hg. rewrite R1. apply Hres. now right. }
    exists s2, (out1 ++ out2)%list. split.
    { cbn [Local.forEach]. eapply completes_bind; [exact C1|exact C2]. }
    rewrite buildsOf_app, firings_app, B1, B2, F1, F2, R1.
    repeat split; auto.
    + simpl. unfold Local.needsBuildIn at 2. rewrite Hrt.
      destruct (Runtime.NeedsBuild rt); reflexivity.
    + intros f' rt' p e Hin. apply in_app_or in Hin as [Hin|Hin];
        apply in_or_app; [left; eapply L1|right; eapply L2]; eauto.
Qed.

Lemma resolvedIn_Some (lr : Local.LocalRunner) f :
  Local.resolvedIn lr f = true ->
  exists rt, Local.functionRuntimes lr !! f = Some rt.
Proof.
  unfold Local.resolvedIn. destruct (_ !! f) as [rt|]; [eauto|discriminate].
Qed.

Lemma forallb_resolved (lr : Local.LocalRunner) batch :
  forallb (Local.resolvedIn lr) batch = true ->
  forall f, In f batch -> is_Some (Local.functionRuntimes lr !! f).
Proof.
  intros H f Hin. rewrite forallb_forall in H.
  destruct (resolvedIn_Some lr f (H f Hin)) as [rt Hrt]. now exists rt.
Qed.

(** The timer case with a non-empty pending list. *)
Lemma onTimer_fires (d : Z) (l : Local.Loop) (s : Local.State W) :
  Local.changedFunctions l <> [] ->
  forallb (Local.resolvedIn (Local.runner s)) (Local.changedFunctions l) = true ->
  exists s' out,
    Local.completes (Local.onTimer host d l) s Local.idle s' out
    /\ Local.firings out = [(d, Local.changedFunctions l)]
    /\ Local.buildsOf out
       = List.filter (Local.needsBuildIn (Local.runner s)) (Local.changedFunctions l)
    /\ (forallb (Local.needsBuildIn (Local.runner s)) (Local.changedFunctions l) = true ->
        Local.buildsOf out = Local.changedFunctions l)
    /\ (forall f rt p e, In (Local.BuildCall f rt p (Some e)) out ->
          In (Local.Log ("Failed to rebuild " ++ f ++ ": build failed for "
                         ++ f ++ ": " ++ e)) out).
Proof.
  intros Hne Hres. unfold Local.onTimer.
  destruct (Local.changedFunctions l) as [|f batch] eqn:Hl; [contradiction|].
  change (0 <? length (f :: batch))%nat with true. cbv iota.
  set (s1 := Local.Build_State (Local.runner s) (Local.world s)
               ((Local.trace s ++ [Local.Fired d (f :: batch)]) ++
                [Local.Log ("Changes detected in: ["
                            ++ GoStrings.Join (f :: batch) " " ++ "]")])%list).
  destruct (forEach_rebuildChanged (f :: batch) s1)
    as (s2 & out & (E & R & T) & B & F & L).
  { apply forallb_resolved. exact Hres. }
  exists s2. eexists. split.
  - eapply completes_bind; [apply completes_emit|].
    eapply completes_bind; [|apply completes_ret].
    unfold Local.handleFileChange.
    eapply completes_bind; [apply completes_emit|].
    split; [exact E|]. split; [exact R|exact T].
  - rewrite app_nil_r.
    cbn [app Local.firings flat_map]. fold (Local.firings out). rewrite F.
    cbn [app Local.buildsOf flat_map]. fold (Local.buildsOf out). rewrite B.
    change (Local.runner s1) with (Local.runner s).
    split; [reflexivity|]. split; [reflexivity|]. split.
    + intros Hall. clear -Hall. induction (f :: batch) as [|g gs IH]; [reflexivity|].
      simpl in *. apply andb_true_iff in Hall as [-> Hall]. now rewrite IH.
    + intros f' rt p e [Hc|[Hc|Hin]]; try discriminate Hc.
      right. right. eapply L; eauto.
Qed.


(** [handleFileCreation] copies at most one file and builds nothing; for a
    path that belongs to no function it does nothing at all. *)
Lemma handleFileCreation_completes path (s : Local.State W) :
  exists s' out,
    Local.completes (Local.handleFileCreation host path) s tt s' out
    /\ Local.buildsOf out = [] /\ Local.firings out = []
    /\ (Local.findFunctionByPath (Local.cfg (Local.runner s)) path = "" ->
        s' = s /\ out = []).
Proof.
  unfold Local.handleFileCreation, Local.completes. run_m.
  destruct (String.eqb (Local.findFunctionByPath _ path) "") eqn:Hf; simpl.
  - exists s, []. rewrite app_nil_r. repeat split; auto.
  - apply String.eqb_neq in Hf.
    destruct (Local.CopyCode host path _ (Local.world s)) as [w' err].
    destruct err as [e|]; simpl; eexists; eexists;
      (split;
       [split; [reflexivity|split; [reflexivity|rewrite <- app_assoc; reflexivity]]
       |simpl; repeat split; auto; contradiction]).
Qed.

(** An event that is a bare [Chmod], matches [shouldIgnoreEvent], or is
    mapped to no function leaves the loop state and the world as they are
    and at most logs the event. *)
Lemma onEvent_discards now event l (s : Local.State W) :
  N.eqb (Local.Op event) Local.Chmod || Local.shouldIgnoreEvent event = true
  \/ Local.findFunctionByPath (Local.cfg (Local.runner s)) (Local.Name event) = "" ->
  exists s' out,
    Local.completes (Local.onEvent host now event l) s l s' out
    /\ Local.world s' = Local.world s
    /\ Forall (fun a => Local.isLog a = true) out
    /\ (N.eqb (Local.Op event) Local.Chmod || Local.shouldIgnoreEvent event = true ->
        s' = s).
Proof.
  intros H. unfold Local.onEvent.
  destruct (N.eqb (Local.Op event) Local.Chmod || Local.shouldIgnoreEvent event) eqn:Hc.
  - exists s, []. split; [apply completes_ret|]. repeat split; auto.
  - destruct H as [H|H]; [discriminate H|].
    assert (Hcr : exists s1,
      Local.completes
        (if N.eqb (N.land (Local.Op event) Local.Create) Local.Create
         then Local.handleFileCreation host (Local.Name event) else mret tt)
        (Local.Build_State (Local.runner s) (Local.world s)
           (Local.trace s ++ [Local.LogEvent (Local.Op event) (Local.Name event)])%list)
        tt s1 []
      /\ s1 = Local.Build_State (Local.runner s) (Local.world s)
           (Local.trace s ++ [Local.LogEvent (Local.Op event) (Local.Name event)])%list).
    { eexists. split; [|reflexivity]. destruct (N.eqb _ Local.Create).
      - destruct (handleFileCreation_completes (Local.Name event)
                    (Local.Build_State (Local.runner s) (Local.world s)
                       (Local.trace s ++ [Local.LogEvent (Local.Op event) (Local.Name event)])%list))
          as (s1 & out1 & C & _ & _ & Hs).
        destruct (Hs H) as [-> ->]. exact C.
      - apply completes_ret. }
    destruct Hcr as (s1 & C1 & ->).
    exists (Local.Build_State (Local.runner s) (Local.world s)
              (Local.trace s ++ [Local.LogEvent (Local.Op event) (Local.Name event)])%list).
    exists [Local.LogEvent (Local.Op event) (Local.Name event)].
    split; [|split; [reflexivity|split; [repeat constructor|discriminate]]].
    change [Local.LogEvent (Local.Op event) (Local.Name event)]
      with ([Local.LogEvent (Local.Op event) (Local.Name event)] ++ [] ++ [])%list.
    eapply completes_bind; [apply completes_emit|].
    eapply completes_bind; [exact C1|].
    unfold Local.completes. run_m. rewrite H. simpl.
    rewrite app_nil_r. repeat split; reflexivity.
Qed.

(** An event of a function adds it to the pending list unless it is there
    already, and arms the timer one delay after the reception. *)
Lemma onEvent_owned now event l f (s : Local.State W) :
  Local.owned (Local.cfg (Local.runner s)) f event = true ->
  exists s' out,
    Local.completes (Local.onEvent host now event l) s
      {| Local.changedFunctions :=
           if default false (Local.changeSet l !! f)
           then Local.changedFunctions l
           else (Local.changedFunctions l ++ [f])%list;
         Local.changeSet :=
           if default false (Local.changeSet l !! f)
           then Local.changeSet l
           else <[f := true]> (Local.changeSet l);
         Local.debounceTimer := Some (now + Local.debounceDelay)%Z |}
      s' out
    /\ Local.buildsOf out = [] /\ Local.firings out = [].
Proof.
  unfold Local.owned. intros H.
  apply andb_true_iff in H as [H Hne]. apply andb_true_iff in H as [H Hf].
  apply andb_true_iff in H as [Hch Hig].
  apply negb_true_iff in Hch, Hig, Hne. apply String.eqb_eq in Hf.
  unfold Local.onEvent. rewrite Hch, Hig. cbn [orb].
  assert (Hcr : exists s1 out1,
    Local.completes
      (if N.eqb (N.land (Local.Op event) Local.Create) Local.Create
       then Local.handleFileCreation host (Local.Name event) else mret tt)
      (Local.Build_State (Local.runner s) (Local.world s)
         (Local.trace s ++ [Local.LogEvent (Local.Op event) (Local.Name event)])%list)
      tt s1 out1
    /\ Local.buildsOf out1 = [] /\ Local.firings out1 = []).
  { destruct (N.eqb _ Local.Create).
    - destruct (handleFileCreation_completes (Local.Name event)
                  (Local.Build_State (Local.runner s) (Local.world s)
                     (Local.trace s ++ [Local.LogEvent (Local.Op event) (Local.Name event)])%list))
        as (s1 & out1 & C & B & F & _). eauto.
    - eexists. exists []. split; [apply completes_ret|]. auto. }
  destruct Hcr as (s1 & out1 & C1 & B1 & F1).
  assert (R1 : Local.runner s1 = Local.runner s) by apply C1.
  exists s1. exists ([Local.LogEvent (Local.Op event) (Local.Name event)] ++ out1 ++ [])%list.
  split.
  - eapply completes_bind; [apply completes_emit|].
    eapply completes_bind; [exact C1|].
    unfold Local.completes. run_m. rewrite R1, Hf, Hne. simpl.
    rewrite app_nil_r.
    destruct (default false (Local.changeSet l !! f)); simpl;
      repeat split; try reflexivity; destruct l; reflexivity.
  - rewrite app_nil_r, buildsOf_app, firings_app, B1, F1. auto.
Qed.

(** The loop of [buildAllFunctions]: the builds are attempted in the order
    of the range, and the first failure ends the loop. *)
Lemma buildAllFunctionsFrom_completes fns : forall (s : Local.State W),
  forallb (Local.resolvedIn (Local.runner s)) (map fst fns) = true ->
  exists r s' out rest,
    Local.completes (Local.buildAllFunctionsFrom host fns) s r s' out
    /\ List.filter (Local.needsBuildIn (Local.runner s)) (map fst fns)
       = (Local.buildsOf out ++ rest)%list
    /\ match r with
       | None =>
           rest = [] /\ forall f rt p e, ~ In (Local.BuildCall f rt p (Some e)) out
       | Some msg =>
           exists pre f rt p e,
             out = (pre ++ [Local.BuildCall f rt p (Some e)])%list
             /\ (forall f' rt' p' e', ~ In (Local.BuildCall f' rt' p' (Some e')) pre)
             /\ msg = "failed to build " ++ f ++ ": build failed for " ++ f
                      ++ ": " ++ e
       end.
Proof.
  induction fns as [|[f fn] fns IH]; intros s Hres.
  - exists None, s, [], []. split; [apply completes_ret|].
    split; [reflexivity|]. split; [reflexivity|]. intros ? ? ? ? [].
  - simpl in Hres. apply andb_true_iff in Hres as [Hf Hres].
    destruct (resolvedIn_Some _ _ Hf) as [rt Hrt].
    assert (Hfilt :
      List.filter (Local.needsBuildIn (Local.runner s)) (map fst ((f, fn) :: fns))
      = if Runtime.NeedsBuild rt
        then f :: List.filter (Local.needsBuildIn (Local.runner s)) (map fst fns)
        else List.filter (Local.needsBuildIn (Local.runner s)) (map fst fns)).
    { simpl. unfold Local.needsBuildIn at 1. now rewrite Hrt. }
    rewrite Hfilt. clear Hfilt.
    cbn [Local.buildAllFunctionsFrom].
    destruct (Runtime.NeedsBuild rt) eqn:Hnb.
    + destruct (buildFunction_completes f fn rt s) as (s1 & err & E & R & T).
      destruct err as [e|].
      * exists (Some ("failed to build " ++ f ++ ": " ++
                        ("build failed for " ++ f ++ ": " ++ e))), s1.
        eexists. eexists. split; [unfold Local.completes|].
        -- unfold Local.runtimeOf. run_m. rewrite Hrt. run_m. rewrite Hnb, E. run_m.
           split; [reflexivity|split; [exact R|exact T]].
        -- simpl. split; [reflexivity|].
           exists [], f, rt, (Local.getOutputPath (Local.runner s) fn rt), e.
           split; [reflexivity|]. split; [intros ? ? ? ? []|reflexivity].
      * destruct (IH s1) as (r & s2 & out2 & rest & (E2 & R2 & T2) & Hf2 & Hr2).
        { rewrite R. exact Hres. }
        exists r, s2. eexists. exists rest. split; [unfold Local.completes|].
        -- unfold Local.runtimeOf. run_m. rewrite Hrt. run_m. rewrite Hnb, E. run_m.
           rewrite E2. split; [reflexivity|split; [congruence|]].
           rewrite T2, T, <- app_assoc. reflexivity.
        -- rewrite R in Hf2. simpl. rewrite Hf2. split; [reflexivity|].
           destruct r as [msg|].
           ++ destruct Hr2 as (pre & f' & rt' & p' & e' & -> & Hpre & ->).
              eexists (_ :: _ :: pre), f', rt', p', e'.
              split; [reflexivity|]. split; [|reflexivity].
              intros ? ? ? ? [Hc|[Hc|Hc]]; try discriminate Hc. eapply Hpre; eauto.
           ++ destruct Hr2 as [-> Hno]. split; [reflexivity|].
              intros ? ? ? ? [Hc|[Hc|Hc]]; try discriminate Hc. eapply Hno; eauto.
    + destruct (IH (Local.Build_State (Local.runner s) (Local.world s)
                      (Local.trace s ++ [Local.Log ("Skipping build for " ++ f
                         ++ " (runtime: " ++ Runtime.Name rt ++ ")")])%list))
        as (r & s2 & out2 & rest & (E2 & R2 & T2) & Hf2 & Hr2); [exact Hres|].
      exists r, s2. eexists. exists rest. split; [unfold Local.completes|].
      * unfold Local.runtimeOf. run_m. rewrite Hrt. run_m. rewrite Hnb. run_m.
        rewrite E2. split; [reflexivity|split; [exact R2|]].
        rewrite T2. simpl. rewrite <- app_assoc. reflexivity.
      * simpl in Hf2. simpl. split; [exact Hf2|].
        destruct r as [msg|].
        -- destruct Hr2 as (pre & f' & rt' & p' & e' & -> & Hpre & ->).
           eexists (_ :: pre), f', rt', p', e'.
           split; [reflexivity|]. split; [|reflexivity].
           intros ? ? ? ? [Hc|Hc]; try discriminate Hc. eapply Hpre; eauto.
        -- destruct Hr2 as [-> Hno]. split; [reflexivity|].
           intros ? ? ? ? [Hc|Hc]; try discriminate Hc. eapply Hno; eauto.
Qed.

End EngineFacts.

(** ** Resolution of the runtimes at startup *)

Section Resolution.

Context {W : Type} (host : Local.Host W).

(** The loop body of [initializeRuntimes] follows the policy, reads the
    directory only when the declared identifier is absent or unsupported,
    and changes nothing. *)
Lemma determineRuntime_policy (function : Config.LambdaFunc) (s : Local.State W) :
  exists out,
    Local.determineRuntime host function
      (Local.functionDirOf (Local.cfg (Local.runner s)) function) s
    = Local.Done
        (Local.resolution (Local.listDir host (Local.world s))
           (Local.cfg (Local.runner s)) function,
         Local.Build_State (Local.runner s) (Local.world s)
           (Local.trace s ++ out)%list)
    /\ Forall (fun a => Local.isQuiet a = true) out
    /\ (In (Local.Probe (Local.functionDirOf (Local.cfg (Local.runner s)) function)) out
        <-> Config.Runtime function = ""
            \/ exists e, Runtime.GetRuntime (Config.Runtime function) = Err e).
Proof.
  unfold Local.determineRuntime, Local.resolution, Local.detectRuntime.
  destruct (String.eqb (Config.Runtime function) "") eqn:Hd; cbn [negb].
  - apply String.eqb_eq in Hd. eexists. run_m. split; [reflexivity|].
    split; [repeat constructor|]. split; [auto|]. intros _. now left.
  - apply String.eqb_neq in Hd.
    destruct (Runtime.GetRuntime (Config.Runtime function)) as [rt|e] eqn:Hg.
    + exists []. run_m. rewrite app_nil_r. destruct s; cbn.
      split; [reflexivity|]. split; [constructor|].
      split; [intros []|]. intros [H|[e H]]; [contradiction|discriminate].
    + eexists. run_m. rewrite <- app_assoc. split; [reflexivity|].
      split; [repeat constructor|]. split; [|intros _; right; now left].
      intros _. right. eauto.
Qed.

(** The loop of [initializeRuntimes] up to the first function that neither
    resolves nor is detected. *)
Lemma initializeRuntimesFrom_fails c fs pre f function post e :
  forallb (Local.resolves fs c) (map snd pre) = true ->
  Local.resolution fs c function = Err e ->
  forall (s : Local.State W),
    Local.cfg (Local.runner s) = c ->
    Local.listDir host (Local.world s) = fs ->
    exists s' out,
      Local.initializeRuntimesFrom host (pre ++ (f, function) :: post) s
      = Local.Done
          (Some ("error determining runtime for " ++ f ++ ": " ++ e), s')
      /\ Local.trace s' = (Local.trace s ++ out)%list
      /\ Forall (fun a => Local.isQuiet a = true) out
      /\ Local.world s' = Local.world s
      /\ Local.apiProcess (Local.runner s') = Local.apiProcess (Local.runner s)
      /\ Local.watchedDirs (Local.runner s') = Local.watchedDirs (Local.runner s).
Proof.
  intros Hpre Hfail. induction pre as [|[g gfn] pre IH]; intros s Hc Hfs.
  - destruct (determineRuntime_policy function s) as (out & E & Hq & _).
    rewrite Hc, Hfs, Hfail in E.
    cbn [app Local.initializeRuntimesFrom].
    unfold Local.functionDirOf in E.
    exists (Local.Build_State (Local.runner s) (Local.world s)
              (Local.trace s ++ out)%list), out.
    split; [|repeat split; auto].
    run_m. rewrite Hc, E. reflexivity.
  - cbn [map snd forallb] in Hpre. apply andb_true_iff in Hpre as [Hg Hpre].
    unfold Local.resolves in Hg.
    destruct (Local.resolution fs c gfn) as [rt|] eqn:Hr; [|discriminate].
    destruct (determineRuntime_policy gfn s) as (out & E & Hq & _).
    rewrite Hc, Hfs, Hr in E. unfold Local.functionDirOf in E.
    set (s1 := Local.Build_State (Local.setRuntime g rt (Local.runner s))
                 (Local.world s)
                 ((Local.trace s ++ out) ++
                  [Local.Log ("Function " ++ g ++ ": " ++ Runtime.Name rt
                              ++ " runtime detected")])%list).
    destruct (IH Hpre s1) as (s' & out' & E' & T' & Hq' & Hw' & Hp' & Hd');
      [exact Hc|exact Hfs|].
    exists s', (out ++ [Local.Log ("Function " ++ g ++ ": " ++ Runtime.Name rt
                                   ++ " runtime detected")] ++ out')%list.
    split.
    { cbn [app Local.initializeRuntimesFrom]. run_m. rewrite Hc, E. run_m.
      exact E'. }
    split; [rewrite T'; unfold s1; cbn [Local.trace]; now rewrite <- !app_assoc|].
    split; [apply Forall_app; split; [exact Hq|constructor; [reflexivity|exact Hq']]|].
    repeat split; assumption.
Qed.

(** When every function resolves, the loop ends without error and a
    runtime is recorded for each of them. *)
Lemma initializeRuntimesFrom_succeeds c fs fns :
  forallb (Local.resolves fs c) (map snd fns) = true ->
  forall (s : Local.State W),
    Local.cfg (Local.runner s) = c ->
    Local.listDir host (Local.world s) = fs ->
    exists s',
      Local.initializeRuntimesFrom host fns s = Local.Done (None, s')
      /\ Local.cfg (Local.runner s') = c
      /\ Local.world s' = Local.world s
      /\ Local.buildsOf (Local.trace s') = Local.buildsOf (Local.trace s)
      /\ forall g,
           In g (map fst fns) \/ Local.resolvedIn (Local.runner s) g = true ->
           Local.resolvedIn (Local.runner s') g = true.
Proof.
  induction fns as [|[g gfn] fns IH]; intros Hall s Hc Hfs.
  - exists s. cbn. repeat split; auto. intros g [[]|H]; exact H.
  - cbn [map snd forallb] in Hall. apply andb_true_iff in Hall as [Hg Hall].
    unfold Local.resolves in Hg.
    destruct (Local.resolution fs c gfn) as [rt|] eqn:Hr; [|discriminate].
    destruct (determineRuntime_policy gfn s) as (out & E & Hq & _).
    rewrite Hc, Hfs, Hr in E. unfold Local.functionDirOf in E.
    set (s1 := Local.Build_State (Local.setRuntime g rt (Local.runner s))
                 (Local.world s)
                 ((Local.trace s ++ out) ++
                  [Local.Log ("Function " ++ g ++ ": " ++ Runtime.Name rt
                              ++ " runtime detected")])%list).
    destruct (IH Hall s1) as (s' & E' & Hc' & Hw' & Hb' & Hres'); [exact Hc|exact Hfs|].
    exists s'. split.
    { cbn [Local.initializeRuntimesFrom]. run_m. rewrite Hc, E. run_m. exact E'. }
    split; [exact Hc'|]. split; [exact Hw'|]. split.
    { rewrite Hb'. unfold s1. cbn [Local.trace]. rewrite !buildsOf_app.
      assert (Hn : Local.buildsOf out = []).
      { clear -Hq. induction Hq as [|a l Ha _ IHl]; [reflexivity|].
        destruct a; try discriminate Ha; exact IHl. }
      rewrite Hn. cbn. now rewrite !app_nil_r. }
    intros h Hh. apply Hres'.
    assert (Hset : forall k, k = g \/ Local.resolvedIn (Local.runner s) k = true ->
                     Local.resolvedIn (Local.runner s1) k = true).
    { intros k Hk. unfold Local.resolvedIn, s1. cbn.
      destruct (decide (g = k)) as [->|Hne]; [now rewrite lookup_insert_eq|].
      rewrite lookup_insert_ne by exact Hne.
      destruct Hk as [->|Hk]; [contradiction|exact Hk]. }
    cbn [map fst] in Hh. destruct Hh as [[<-|Hh]|Hh].
    + right. apply Hset. now left.
    + now left.
    + right. apply Hset. now right.
Qed.

(** After a successful [initializeRuntimes] every function of the
    configuration has a runtime, and no build has run yet: this is what the
    statements about builds and rebuilds assume of the runner. *)
Lemma initializeRuntimes_resolves_all (s : Local.State W) :
  forallb (Local.resolves (Local.listDir host (Local.world s))
             (Local.cfg (Local.runner s)))
          (map snd (Config.Functions (Local.cfg (Local.runner s)))) = true ->
  exists s',
    Local.initializeRuntimes host s = Local.Done (None, s')
    /\ Local.cfg (Local.runner s') = Local.cfg (Local.runner s)
    /\ Local.buildsOf (Local.trace s') = Local.buildsOf (Local.trace s)
    /\ forallb (Local.resolvedIn (Local.runner s'))
               (map fst (Config.Functions (Local.cfg (Local.runner s')))) = true.
Proof.
  intros Hall.
  destruct (initializeRuntimesFrom_succeeds _ _ _ Hall s eq_refl eq_refl)
    as (s' & E & Hc & _ & Hb & Hres).
  exists s'. split; [unfold Local.initializeRuntimes; run_m; exact E|].
  split; [exact Hc|]. split; [exact Hb|].
  rewrite Hc. apply forallb_forall. intros g Hg. apply Hres. now left.
Qed.

(** C5. For each function the engine takes the runtime the declared
    identifier resolves to, and reads the function directory for detection
    exactly when there is no declared identifier or it is not supported.
    When, in the order of the range, the functions before [f] all get a
    runtime and [f] gets none, [Start] returns the error that names [f] and
    wraps the detection failure; up to there it has only read directories
    and printed: nothing was built, the gateway was not started and no
    directory is watched. *)
Theorem Start_resolves_or_fails (s : Local.State W) :
  (forall function,
     exists out,
       Local.determineRuntime host function
         (Local.functionDirOf (Local.cfg (Local.runner s)) function) s
       = Local.Done
           (Local.resolution (Local.listDir host (Local.world s))
              (Local.cfg (Local.runner s)) function,
            Local.Build_State (Local.runner s) (Local.world s)
              (Local.trace s ++ out)%list)
       /\ (In (Local.Probe (Local.functionDirOf (Local.cfg (Local.runner s)) function)) out
           <-> Config.Runtime function = ""
               \/ exists e, Runtime.GetRuntime (Config.Runtime function) = Err e))
  /\ forall pre f function post e,
       Config.Functions (Local.cfg (Local.runner s)) = (pre ++ (f, function) :: post)%list ->
       forallb (Local.resolves (Local.listDir host (Local.world s))
                  (Local.cfg (Local.runner s))) (map snd pre) = true ->
       Local.resolution (Local.listDir host (Local.world s))
         (Local.cfg (Local.runner s)) function = Err e ->
       exists s' out,
         Local.Start host s
         = Local.Done
             (Local.StartFailed
                ("error determining runtime for " ++ f ++ ": " ++ e), s')
         /\ Local.trace s' = (Local.trace s ++ out)%list
         /\ Forall (fun a => Local.isQuiet a = true) out
         /\ Local.world s' = Local.world s
         /\ Local.apiProcess (Local.runner s') = Local.apiProcess (Local.runner s)
         /\ Local.watchedDirs (Local.runner s') = Local.watchedDirs (Local.runner s).
Proof.
  split.
  - intros function.
    destruct (determineRuntime_policy function s) as (out & E & _ & Hp).
    exists out. split; assumption.
  - intros pre f function post e Hfns Hpre Hfail.
    destruct (initializeRuntimesFrom_fails _ _ pre f function post e Hpre Hfail s
                eq_refl eq_refl) as (s' & out & E & T & Hq & Hw & Hp & Hd).
    exists s', out. split; [|repeat split; assumption].
    unfold Local.Start, Local.initializeRuntimes. run_m. rewrite Hfns, E.
    reflexivity.
Qed.

End Resolution.

(** On the demo project with an unsupported runtime and no marker file. *)
Lemma Start_resolves_or_fails_witness :
  exists s' out,
    Local.Start (Demo.host Demo.noFiles []) (Demo.start Demo.withUnknown)
    = Local.Done
        (Local.StartFailed
           ("error determining runtime for " ++ "reports" ++ ": "
            ++ "could not detect runtime for function in: /proj/functions/reports"),
         s')
    /\ Local.trace s' = (Local.trace (Demo.start Demo.withUnknown) ++ out)%list
    /\ Forall (fun a => Local.isQuiet a = true) out
    /\ Local.world s' = Local.world (Demo.start Demo.withUnknown)
    /\ Local.apiProcess (Local.runner s')
       = Local.apiProcess (Local.runner (Demo.start Demo.withUnknown))
    /\ Local.watchedDirs (Local.runner s')
       = Local.watchedDirs (Local.runner (Demo.start Demo.withUnknown)).
Proof.
  apply (proj2 (Start_resolves_or_fails (Demo.host Demo.noFiles [])
                  (Demo.start Demo.withUnknown))
           [("orders", Demo.func "go1.x" "functions/orders/bootstrap")]
           "reports" (Demo.func "java17" "functions/reports/bootstrap") []);
    reflexivity.
Defined.

(** The unsupported identifier falls back to detection, which finds the
    Python source; with no marker the startup fails and names the function. *)
Example start_falls_back_to_detection :
  Demo.observe
    (Local.initializeRuntimes (Demo.host Demo.reportsPy [])
       (Demo.start Demo.withUnknown))
  = Some
      (None,
       [Local.Log "Function orders: golang runtime detected";
        Local.Log "Configured runtime 'java17' not supported, trying auto-detect: unsupported AWS Lambda runtime: java17";
        Local.Probe "/proj/functions/reports";
        Local.Log "Function reports: python runtime detected"]).
Proof. vm_compute. reflexivity. Qed.

Example start_names_the_function :
  Demo.observe
    (Local.Start (Demo.host Demo.noFiles []) (Demo.start Demo.withUnknown))
  = Some
      (Local.StartFailed
         "error determining runtime for reports: could not detect runtime for function in: /proj/functions/reports",
       [Local.Log "Function orders: golang runtime detected";
        Local.Log "Configured runtime 'java17' not supported, trying auto-detect: unsupported AWS Lambda runtime: java17";
        Local.Probe "/proj/functions/reports"]).
Proof. vm_compute. reflexivity. Qed.

(** ** The initial build pass *)

Section InitialBuild.

Context {W : Type} (host : Local.Host W).

(** C1, as the code has it. Once a runtime is resolved for every function,
    [buildAllFunctions] does not panic and attempts the builds of the
    functions that need one in the order of its range; it returns no error
    when none of them fails, and then every such function was attempted.
    The first build that fails ends the pass: it is the last action of the
    pass, the error returned names that function and wraps its failure, and
    the functions left ([rest]) are not attempted. *)
Theorem buildAllFunctions_stops_at_first_failure (s : Local.State W) :
  forallb (Local.resolvedIn (Local.runner s))
          (map fst (Config.Functions (Local.cfg (Local.runner s)))) = true ->
  exists r s' out rest,
    Local.completes (Local.buildAllFunctions host) s r s' out
    /\ List.filter (Local.needsBuildIn (Local.runner s))
                   (map fst (Config.Functions (Local.cfg (Local.runner s))))
       = (Local.buildsOf out ++ rest)%list
    /\ match r with
       | None =>
           rest = [] /\ forall f rt p e, ~ In (Local.BuildCall f rt p (Some e)) out
       | Some msg =>
           exists pre f rt p e,
             out = (pre ++ [Local.BuildCall f rt p (Some e)])%list
             /\ (forall f' rt' p' e', ~ In (Local.BuildCall f' rt' p' (Some e')) pre)
             /\ msg = "failed to build " ++ f ++ ": build failed for " ++ f
                      ++ ": " ++ e
       end.
Proof.
  intros Hres.
  destruct (buildAllFunctionsFrom_completes host _ s Hres)
    as (r & s' & out & rest & (E & R & T) & Hf & Hr).
  exists r, s', out, rest. split; [|split; assumption].
  unfold Local.completes, Local.buildAllFunctions. run_m. auto.
Qed.

End InitialBuild.

(** On the demo project, the build of [billing] failing. *)
Lemma buildAllFunctions_stops_at_first_failure_witness :
  exists r s' out rest,
    Local.completes
      (Local.buildAllFunctions
         (Demo.host Demo.noFiles ["/proj/functions/billing/bootstrap"]))
      (Demo.ready Demo.twoGo [("orders", Runtime.GolangRuntime);
                              ("billing", Runtime.GolangRuntime)])
      r s' out
    /\ ["orders"; "billing"] = (Local.buildsOf out ++ rest)%list
    /\ match r with
       | None =>
           rest = [] /\ forall f rt p e, ~ In (Local.BuildCall f rt p (Some e)) out
       | Some msg =>
           exists pre f rt p e,
             out = (pre ++ [Local.BuildCall f rt p (Some e)])%list
             /\ (forall f' rt' p' e', ~ In (Local.BuildCall f' rt' p' (Some e')) pre)
             /\ msg = "failed to build " ++ f ++ ": build failed for " ++ f
                      ++ ": " ++ e
       end.
Proof.
  apply (buildAllFunctions_stops_at_first_failure
           (Demo.host Demo.noFiles ["/proj/functions/billing/bootstrap"])
           (Demo.ready Demo.twoGo [("orders", Runtime.GolangRuntime);
                                   ("billing", Runtime.GolangRuntime)])).
  reflexivity.
Defined.

(** C1 as stated fails: [orders] and [billing] both need a build; the build
    of [orders] fails, [Start] returns that failure at once and the build of
    [billing] is never attempted. *)
Lemma initial_build_aborts_the_batch :
  Local.needsBuildIn
    (Local.runner (Demo.ready Demo.twoGo [("orders", Runtime.GolangRuntime);
                                           ("billing", Runtime.GolangRuntime)]))
    "billing" = true
  /\ Demo.observe
       (Local.Start (Demo.host Demo.noFiles ["/proj/functions/orders/bootstrap"])
                    (Demo.start Demo.twoGo))
     = Some
         (Local.StartFailed
            "failed to build orders: build failed for orders: go build failed: exit status 1",
          [Local.Log "Function orders: golang runtime detected";
           Local.Log "Function billing: golang runtime detected";
           Local.BuildCall "orders" Runtime.GolangRuntime
             "/proj/functions/orders/bootstrap"
             (Some "go build failed: exit status 1")]).
Proof. split; vm_compute; reflexivity. Qed.

(** ** The rebuild of a pending batch *)

Section Rebuild.

Context {W : Type} (host : Local.Host W).

(** C6, as the code has it. When the timer delivers with a non-empty pending
    list whose functions all have a resolved runtime, the loop hands the
    whole list to [handleFileChange] once, does not panic and returns to the
    idle state.  The builds attempted are, in order, the pending functions
    whose runtime needs a build, one attempt each, whatever the attempts
    before them returned; for the other pending functions nothing is built.
    So the attempts are exactly the pending functions when all of them need
    a build.  Every failed attempt is logged. *)
Theorem onTimer_rebuilds_pending (d : Z) (l : Local.Loop) (s : Local.State W) :
  Local.changedFunctions l <> [] ->
  forallb (Local.resolvedIn (Local.runner s)) (Local.changedFunctions l) = true ->
  exists s' out,
    Local.completes (Local.onTimer host d l) s Local.idle s' out
    /\ Local.firings out = [(d, Local.changedFunctions l)]
    /\ Local.buildsOf out
       = List.filter (Local.needsBuildIn (Local.runner s)) (Local.changedFunctions l)
    /\ (forallb (Local.needsBuildIn (Local.runner s)) (Local.changedFunctions l) = true ->
        Local.buildsOf out = Local.changedFunctions l)
    /\ (forall f rt p e, In (Local.BuildCall f rt p (Some e)) out ->
          In (Local.Log ("Failed to rebuild " ++ f ++ ": build failed for "
                         ++ f ++ ": " ++ e)) out).
Proof. apply onTimer_fires. Qed.

End Rebuild.

(** On the demo project, both functions pending and the build of [orders]
    failing: [billing] is attempted all the same. *)
Lemma onTimer_rebuilds_pending_witness :
  exists s' out,
    Local.completes
      (Local.onTimer (Demo.host Demo.noFiles ["/proj/functions/orders/bootstrap"])
         800
         {| Local.changedFunctions := ["orders"; "billing"];
            Local.changeSet := {["orders" := true; "billing" := true]};
            Local.debounceTimer := Some 800%Z |})
      (Demo.ready Demo.twoGo [("orders", Runtime.GolangRuntime);
                              ("billing", Runtime.GolangRuntime)])
      Local.idle s' out
    /\ Local.firings out = [(800%Z, ["orders"; "billing"])]
    /\ Local.buildsOf out = ["orders"; "billing"].
Proof.
  destruct (onTimer_rebuilds_pending
              (Demo.host Demo.noFiles ["/proj/functions/orders/bootstrap"])
              800
              {| Local.changedFunctions := ["orders"; "billing"];
                 Local.changeSet := {["orders" := true; "billing" := true]};
                 Local.debounceTimer := Some 800%Z |}
              (Demo.ready Demo.twoGo [("orders", Runtime.GolangRuntime);
                                      ("billing", Runtime.GolangRuntime)]))
    as (s' & out & C & F & B & _).
  - discriminate.
  - reflexivity.
  - exists s', out. split; [exact C|]. split; [exact F|exact B].
Defined.

(** C6 as stated fails: a pending set of one function, [api], whose runtime
    is Node.js: the batch is handed over and no rebuild is attempted. *)
Lemma node_batch_is_not_rebuilt :
  Demo.observe
    ((Local.initializeRuntimes (Demo.host Demo.noFiles []);;
      Local.watchForChanges (Demo.host Demo.noFiles [])
        [(0%Z, Local.RecvEvent (Demo.writeTo "/proj/functions/api/index.js"))])
       (Demo.start Demo.oneNode))
  = Some
      (Local.idle,
       [Local.Log "Function api: nodejs runtime detected";
        Local.LogEvent 2 "/proj/functions/api/index.js";
        Local.Fired 800 ["api"];
        Local.Log "Changes detected in: [api]";
        Local.Log "Runtime nodejs doesn't need build"]).
Proof. vm_compute. reflexivity. Qed.

(** ** The owner of a changed path *)

Section Ownership.

Context {W : Type} (host : Local.Host W).

(** C10. A path that contains one of the substrings [.git], [node_modules],
    [cdk.out], [tmp] anywhere is mapped to no function, whatever the
    configuration; an event on such a path leaves the pending list and the
    timer as they are and builds and copies nothing. *)
Theorem findFunctionByPath_ignores_substring
    (c : Config.ServerlessConfig) (path dir : string) :
  In dir Local.ignoreDirs ->
  GoStrings.Contains path dir = true ->
  Local.findFunctionByPath c path = ""
  /\ forall now op l (s : Local.State W),
       Local.cfg (Local.runner s) = c ->
       exists s' out,
         Local.completes
           (Local.onEvent host now {| Local.Name := path; Local.Op := op |} l)
           s l s' out
         /\ Local.world s' = Local.world s
         /\ Local.effects out = [].
Proof.
  intros Hin Hc.
  assert (Hig : Local.shouldIgnorePath path = true)
    by (apply shouldIgnorePath_substring; eauto).
  assert (Hf : Local.findFunctionByPath c path = "")
    by (apply findFunctionIn_ignored; exact Hig).
  split; [exact Hf|].
  intros now op l s Hcfg.
  destruct (onEvent_discards host now {| Local.Name := path; Local.Op := op |} l s)
    as (s' & out & C & Hw & Hlog & _).
  { right. rewrite Hcfg. exact Hf. }
  exists s', out. split; [exact C|]. split; [exact Hw|].
  apply logs_effects. exact Hlog.
Qed.

(** C4, as the code has it. A path that no ignore substring occurs in is
    mapped to the first function, in the order of the range over the
    functions, whose source directory is a prefix of the path as a string;
    when there is none the result is empty, and an event on such a path
    leaves the pending list and the timer as they are and builds and copies
    nothing. *)
Theorem findFunctionByPath_first_prefix
    (c : Config.ServerlessConfig) (path : string) :
  Local.shouldIgnorePath path = false ->
  Local.findFunctionByPath c path
  = match List.find (fun e => GoStrings.HasPrefix path (Local.absCodeDir c (snd e)))
                    (Config.Functions c) with
    | Some e => fst e
    | None => ""
    end
  /\ (List.find (fun e => GoStrings.HasPrefix path (Local.absCodeDir c (snd e)))
                (Config.Functions c) = None ->
      forall now op l (s : Local.State W),
        Local.cfg (Local.runner s) = c ->
        exists s' out,
          Local.completes
            (Local.onEvent host now {| Local.Name := path; Local.Op := op |} l)
            s l s' out
          /\ Local.world s' = Local.world s
          /\ Local.effects out = []).
Proof.
  intros Hig.
  assert (Hf := findFunctionIn_first c (Config.Functions c) path Hig).
  split; [exact Hf|].
  intros Hnone now op l s Hcfg.
  destruct (onEvent_discards host now {| Local.Name := path; Local.Op := op |} l s)
    as (s' & out & C & Hw & Hlog & _).
  { right. rewrite Hcfg. cbn [Local.Name].
    fold (Local.findFunctionByPath c path) in Hf. rewrite Hf, Hnone.
    reflexivity. }
  exists s', out. split; [exact C|]. split; [exact Hw|].
  apply logs_effects. exact Hlog.
Qed.

End Ownership.

(** A template directory [tmpl] inside the sources of [orders]. *)
Lemma findFunctionByPath_ignores_substring_witness :
  Local.findFunctionByPath Demo.twoGo "/proj/functions/orders/tmpl/page.go" = "".
Proof.
  apply (findFunctionByPath_ignores_substring (Demo.host Demo.noFiles [])
           Demo.twoGo "/proj/functions/orders/tmpl/page.go" "tmp").
  - simpl. tauto.
  - reflexivity.
Defined.

(** The same directory without the substring is the one of [orders], and a
    file name that merely contains [tmp] is ignored too. *)
Example orders_page_owned :
  Local.findFunctionByPath Demo.twoGo "/proj/functions/orders/page.go" = "orders".
Proof. reflexivity. Qed.

Example my_tmp_handler_ignored :
  Local.findFunctionByPath Demo.twoGo "/proj/functions/orders/my-tmp-handler.go" = "".
Proof. reflexivity. Qed.

(** On the nested project, [api] is met first. *)
Lemma findFunctionByPath_first_prefix_witness :
  Local.findFunctionByPath Demo.nested "/proj/src/api/admin/handler.go" = "api".
Proof.
  apply (findFunctionByPath_first_prefix (Demo.host Demo.noFiles [])
           Demo.nested "/proj/src/api/admin/handler.go").
  reflexivity.
Defined.

(** The prefix is one of strings, not of path elements: a sibling directory
    whose name starts like the one of [api] is mapped to [api]. *)
Example sibling_directory_owned :
  Local.findFunctionByPath Demo.nested "/proj/src/apiary/main.go" = "api".
Proof. reflexivity. Qed.

(** C4 as stated fails: the path lies in the source directory of [admin],
    which is the longest directory that is a prefix of it, and it is mapped
    to [api], whose directory is a shorter prefix met first. *)
Lemma findFunctionByPath_not_longest_prefix :
  Local.shouldIgnoreEvent (Demo.writeTo "/proj/src/api/admin/handler.go") = false
  /\ Local.shouldIgnorePath "/proj/src/api/admin/handler.go" = false
  /\ Local.ownerByLongestPrefix Demo.nested "/proj/src/api/admin/handler.go" = "admin"
  /\ Local.findFunctionByPath Demo.nested "/proj/src/api/admin/handler.go" = "api".
Proof. repeat split; reflexivity. Qed.

(** ** Debouncing *)

Section Debounce.

Context {W : Type} (host : Local.Host W).

(** As long as the receptions of a burst of one function keep coming, the
    pending list holds the function once, the timer is armed one delay after
    the latest reception, and nothing fires. *)
Lemma serve_burst f events : forall t0 (s : Local.State W),
  forallb (Local.owned (Local.cfg (Local.runner s)) f) (map snd events) = true ->
  Local.burstFrom t0 events = true ->
  exists s' out,
    Local.completes
      (Local.serve host (Local.pendingOne f t0) (Local.receptions events)) s
      (Local.pendingOne f (Local.lastInstant t0 events), true) s' out
    /\ Local.buildsOf out = [] /\ Local.firings out = [].
Proof.
  induction events as [|[t event] events IH]; intros t0 s Hown Hburst.
  - exists s, []. split; [apply completes_ret|]. auto.
  - simpl in Hown, Hburst.
    apply andb_true_iff in Hown as [Hev Hown].
    apply andb_true_iff in Hburst as [Hburst Hrest].
    apply andb_true_iff in Hburst as [Hle Hlt].
    destruct (onEvent_owned host t event (Local.pendingOne f t0) f s Hev)
      as (s1 & out1 & C1 & B1 & F1).
    assert (R1 : Local.runner s1 = Local.runner s) by apply C1.
    cbn [Local.pendingOne Local.changeSet Local.changedFunctions] in C1.
    rewrite lookup_singleton_eq in C1. cbn [default] in C1.
    fold (Local.pendingOne f t) in C1.
    destruct (IH t s1) as (s2 & out2 & C2 & B2 & F2).
    { rewrite R1. exact Hown. }
    { exact Hrest. }
    exists s2, ([] ++ out1 ++ out2)%list. split.
    + cbn [Local.receptions map Local.serve fst snd].
      eapply completes_bind.
      * unfold Local.advance. cbn [Local.pendingOne Local.debounceTimer].
        apply Z.ltb_lt in Hlt. apply Z.leb_gt in Hlt.
        unfold Local.debounceDelay in *. rewrite Hlt. apply completes_ret.
      * eapply completes_bind; [exact C1|exact C2].
    + cbn [app]. rewrite buildsOf_app, firings_app, B1, B2, F1, F2. auto.
Qed.

(** C3, as the code has it. A burst of one or more change events of one
    function, each received less than one debounce delay after the one
    before it, followed by silence.  While the burst lasts the function is
    pending once, the timer is armed 800 ms after the latest reception and
    nothing is rebuilt.  Then the timer delivers once, 800 ms after the last
    reception, with that function alone as the batch, and the function is
    built exactly once if its runtime needs a build and not at all
    otherwise; the loop is idle again. *)
Theorem burst_fires_once (f : string) (rt : Runtime.Runtime)
    (t1 : Z) (event1 : Local.Event) (events : list (Z * Local.Event))
    (s : Local.State W) :
  Local.functionRuntimes (Local.runner s) !! f = Some rt ->
  Local.owned (Local.cfg (Local.runner s)) f event1 = true ->
  forallb (Local.owned (Local.cfg (Local.runner s)) f) (map snd events) = true ->
  Local.burstFrom t1 events = true ->
  (exists s1 out1,
     Local.completes
       (Local.serve host Local.idle (Local.receptions ((t1, event1) :: events))) s
       (Local.pendingOne f (Local.lastInstant t1 events), true) s1 out1
     /\ Local.buildsOf out1 = [] /\ Local.firings out1 = [])
  /\ exists s' out,
       Local.completes
         (Local.watchForChanges host (Local.receptions ((t1, event1) :: events))) s
         Local.idle s' out
       /\ Local.firings out
          = [((Local.lastInstant t1 events + Local.debounceDelay)%Z, [f])]
       /\ Local.buildsOf out = (if Runtime.NeedsBuild rt then [f] else []).
Proof.
  intros Hrt Hev1 Hown Hburst.
  destruct (onEvent_owned host t1 event1 Local.idle f s Hev1)
    as (s1 & out1 & C1 & B1 & F1).
  assert (R1 : Local.runner s1 = Local.runner s) by apply C1.
  cbn [Local.idle Local.changeSet Local.changedFunctions] in C1.
  rewrite lookup_empty in C1. cbn [default app] in C1.
  change (<[f:=true]> (∅ : gmap string bool)) with ({[f := true]} : gmap string bool) in C1.
  fold (Local.pendingOne f t1) in C1.
  destruct (serve_burst f events t1 s1) as (s2 & out2 & C2 & B2 & F2).
  { rewrite R1. exact Hown. }
  { exact Hburst. }
  assert (R2 : Local.runner s2 = Local.runner s)
    by (destruct C2 as (_ & R2 & _); congruence).
  assert (Cserve :
    Local.completes
      (Local.serve host Local.idle (Local.receptions ((t1, event1) :: events))) s
      (Local.pendingOne f (Local.lastInstant t1 events), true) s2
      ([] ++ out1 ++ out2)%list).
  { cbn [Local.receptions map Local.serve fst snd].
    eapply completes_bind; [apply completes_ret|].
    eapply completes_bind; [exact C1|exact C2]. }
  split.
  - exists s2, ([] ++ out1 ++ out2)%list. split; [exact Cserve|].
    cbn [app]. rewrite buildsOf_app, firings_app, B1, B2, F1, F2. auto.
  - destruct (onTimer_fires host
                (Local.lastInstant t1 events + Local.debounceDelay)%Z
                (Local.pendingOne f (Local.lastInstant t1 events)) s2)
      as (s3 & out3 & C3 & F3 & B3 & _).
    { discriminate. }
    { cbn [Local.pendingOne Local.changedFunctions forallb].
      unfold Local.resolvedIn. rewrite R2, Hrt. reflexivity. }
    exists s3, (([] ++ out1 ++ out2) ++ out3)%list. split.
    + unfold Local.watchForChanges, Local.reactor.
      eapply completes_bind; [exact Cserve|].
      cbn beta iota. unfold Local.settle.
      cbn [Local.pendingOne Local.debounceTimer]. exact C3.
    + cbn [app]. rewrite !buildsOf_app, !firings_app, B1, B2, F1, F2, B3, F3.
      cbn [app Local.pendingOne Local.changedFunctions List.filter].
      split; [reflexivity|].
      unfold Local.needsBuildIn. rewrite R2, Hrt.
      destruct (Runtime.NeedsBuild rt); reflexivity.
Qed.

End Debounce.

(** Two writes to a source file of [orders], 100 ms apart. *)
Lemma burst_fires_once_witness :
  exists s' out,
    Local.completes
      (Local.watchForChanges (Demo.host Demo.noFiles [])
         (Local.receptions
            [(0%Z, Demo.writeTo "/proj/functions/orders/main.go");
             (100%Z, Demo.writeTo "/proj/functions/orders/main.go")]))
      (Demo.ready Demo.twoGo [("orders", Runtime.GolangRuntime);
                              ("billing", Runtime.GolangRuntime)])
      Local.idle s' out
    /\ Local.firings out = [(900%Z, ["orders"])]
    /\ Local.buildsOf out = ["orders"].
Proof.
  apply (burst_fires_once (Demo.host Demo.noFiles []) "orders"
           Runtime.GolangRuntime 0
           (Demo.writeTo "/proj/functions/orders/main.go")
           [(100%Z, Demo.writeTo "/proj/functions/orders/main.go")]
           (Demo.ready Demo.twoGo [("orders", Runtime.GolangRuntime);
                                   ("billing", Runtime.GolangRuntime)]));
    reflexivity.
Defined.

(** C3 as stated fails: two writes, 100 ms apart, to a source file of the
    Node.js function [api]: the batch fires once, 800 ms after the second
    write, and the function is not rebuilt. *)
Lemma node_burst_is_not_rebuilt :
  Demo.observe
    ((Local.initializeRuntimes (Demo.host Demo.noFiles []);;
      Local.watchForChanges (Demo.host Demo.noFiles [])
        (Local.receptions
           [(0%Z, Demo.writeTo "/proj/functions/api/index.js");
            (100%Z, Demo.writeTo "/proj/functions/api/index.js")]))
       (Demo.start Demo.oneNode))
  = Some
      (Local.idle,
       [Local.Log "Function api: nodejs runtime detected";
        Local.LogEvent 2 "/proj/functions/api/index.js";
        Local.LogEvent 2 "/proj/functions/api/index.js";
        Local.Fired 900 ["api"];
        Local.Log "Changes detected in: [api]";
        Local.Log "Runtime nodejs doesn't need build"]).
Proof. vm_compute. reflexivity. Qed.

(** ** Ignored events *)

Section Ignored.

Context {W : Type} (host : Local.Host W).

(** What an event can do to the loop state: nothing, or put forward the
    function it is mapped to. *)
Lemma onEvent_completes now event l (s : Local.State W) :
  exists l' s' out,
    Local.completes (Local.onEvent host now event l) s l' s' out
    /\ Local.buildsOf out = [] /\ Local.firings out = []
    /\ (l' = l
        \/ Local.owned (Local.cfg (Local.runner s))
             (Local.findFunctionByPath (Local.cfg (Local.runner s)) (Local.Name event))
             event = true
           /\ Local.shouldIgnorePath (Local.Name event) = false
           /\ forall g, In g (Local.changedFunctions l') ->
                In g (Local.changedFunctions l)
                \/ g = Local.findFunctionByPath (Local.cfg (Local.runner s))
                         (Local.Name event)).
Proof.
  set (f := Local.findFunctionByPath (Local.cfg (Local.runner s)) (Local.Name event)).
  destruct (N.eqb (Local.Op event) Local.Chmod || Local.shouldIgnoreEvent event) eqn:Hc.
  - destruct (onEvent_discards host now event l s) as (s' & out & C & _ & Hlog & _);
      [now left|].
    exists l, s', out. split; [exact C|].
    rewrite (logs_buildsOf _ Hlog), (logs_firings _ Hlog). auto.
  - destruct (String.eqb f "") eqn:Hf.
    + apply String.eqb_eq in Hf.
      destruct (onEvent_discards host now event l s) as (s' & out & C & _ & Hlog & _);
        [now right|].
      exists l, s', out. split; [exact C|].
      rewrite (logs_buildsOf _ Hlog), (logs_firings _ Hlog). auto.
    + assert (Hown : Local.owned (Local.cfg (Local.runner s)) f event = true).
      { unfold Local.owned. apply orb_false_iff in Hc as [-> ->].
        fold f. rewrite String.eqb_refl, Hf. reflexivity. }
      destruct (onEvent_owned host now event l f s Hown) as (s' & out & C & B & F).
      eexists. exists s', out. split; [exact C|]. split; [exact B|]. split; [exact F|].
      right. split; [exact Hown|]. split.
      * destruct (Local.shouldIgnorePath (Local.Name event)) eqn:Hig; [|reflexivity].
        apply String.eqb_neq in Hf. exfalso. apply Hf.
        apply findFunctionIn_ignored. exact Hig.
      * cbn [Local.changedFunctions]. intros g Hg.
        destruct (default false (Local.changeSet l !! f)); [now left|].
        apply in_app_or in Hg as [Hg|[Hg|[]]]; [now left|now right].
Qed.

(** The timer case in general: the pending functions are handed over as
    one batch, when there are any. *)
Lemma onTimer_completes d l (s : Local.State W) :
  forallb (Local.resolvedIn (Local.runner s)) (Local.changedFunctions l) = true ->
  exists l' s' out,
    Local.completes (Local.onTimer host d l) s l' s' out
    /\ (forall g, In g (Local.changedFunctions l') -> In g (Local.changedFunctions l))
    /\ (forall t batch, In (t, batch) (Local.firings out) ->
          batch = Local.changedFunctions l).
Proof.
  intros Hres.
  destruct (Local.changedFunctions l) as [|f batch] eqn:Hl.
  - unfold Local.onTimer. rewrite Hl. cbn [length Nat.ltb Nat.leb].
    eexists. exists s, []. split; [apply completes_ret|].
    cbn [Local.changedFunctions]. split; [auto|]. intros ? ? [].
  - destruct (onTimer_fires host d l s) as (s' & out & C & F & _).
    { rewrite Hl. discriminate. }
    { rewrite Hl. exact Hres. }
    exists Local.idle, s', out. split; [exact C|]. split; [intros ? []|].
    rewrite F, Hl. intros t b [Hin|[]]. now inversion Hin.
Qed.

Lemma advance_completes now l (s : Local.State W) :
  forallb (Local.resolvedIn (Local.runner s)) (Local.changedFunctions l) = true ->
  exists l' s' out,
    Local.completes (Local.advance host now l) s l' s' out
    /\ (forall g, In g (Local.changedFunctions l') -> In g (Local.changedFunctions l))
    /\ (forall t batch, In (t, batch) (Local.firings out) ->
          batch = Local.changedFunctions l).
Proof.
  intros Hres. unfold Local.advance.
  destruct (Local.debounceTimer l) as [d|].
  - destruct (d <=? now)%Z; [apply onTimer_completes; exact Hres|].
    exists l, s, []. split; [apply completes_ret|]. split; [auto|]. intros ? ? [].
  - exists l, s, []. split; [apply completes_ret|]. split; [auto|]. intros ? ? [].
Qed.

Lemma found_is_resolved (lr : Local.LocalRunner) path :
  forallb (Local.resolvedIn lr) (map fst (Config.Functions (Local.cfg lr))) = true ->
  Local.findFunctionByPath (Local.cfg lr) path <> "" ->
  Local.resolvedIn lr (Local.findFunctionByPath (Local.cfg lr) path) = true.
Proof.
  intros Hall Hne. rewrite forallb_forall in Hall. apply Hall.
  destruct (findFunctionIn_key (Local.cfg lr) (Config.Functions (Local.cfg lr)) path)
    as [H|[fn H]]; [contradiction|].
  apply in_map_iff. exists (Local.findFunctionByPath (Local.cfg lr) path, fn).
  split; [reflexivity|exact H].
Qed.

(** Whatever is received, the loop does not panic, and every function that
    is pending or was handed over in a batch was pending before or was put
    forward by an event that matches no ignore rule. *)
Lemma serve_provenance inputs : forall l (s : Local.State W) (Src : string -> Prop),
  forallb (Local.resolvedIn (Local.runner s))
          (map fst (Config.Functions (Local.cfg (Local.runner s)))) = true ->
  (forall g, In g (Local.changedFunctions l) ->
     Local.resolvedIn (Local.runner s) g = true /\ Src g) ->
  exists r s' out,
    Local.completes (Local.serve host l inputs) s r s' out
    /\ (forall g, In g (Local.changedFunctions (fst r)) ->
          Local.resolvedIn (Local.runner s) g = true)
    /\ (forall g,
          In g (Local.changedFunctions (fst r))
          \/ (exists t batch, In (t, batch) (Local.firings out) /\ In g batch) ->
          Src g \/ Local.fromEvent (Local.cfg (Local.runner s)) inputs g).
Proof.
  induction inputs as [|[now input] inputs IH]; intros l s Src Hall Hl.
  - exists (l, true), s, []. split; [apply completes_ret|].
    split; [intros g Hg; apply Hl, Hg|].
    intros g [Hg|(t & b & [] & _)]. left. apply Hl, Hg.
  - assert (Hresl : forallb (Local.resolvedIn (Local.runner s))
                      (Local.changedFunctions l) = true).
    { apply forallb_forall. intros g Hg. apply Hl, Hg. }
    destruct (advance_completes now l s Hresl) as (l1 & s1 & out1 & C1 & Hl1 & Hf1).
    assert (R1 : Local.runner s1 = Local.runner s) by apply C1.
    assert (Hfired1 : forall g,
      (exists t batch, In (t, batch) (Local.firings out1) /\ In g batch) -> Src g).
    { intros g (t & b & Hin & Hg). rewrite (Hf1 _ _ Hin) in Hg. apply Hl, Hg. }
    assert (Hend : forall (k : Local.Loop -> Local.M W (Local.Loop * bool)) s2 out2,
      Local.completes (k l1) s1 (l1, false) s2 out2 ->
      Local.firings out2 = [] ->
      exists r s' out,
        Local.completes (Local.advance host now l ≫= k) s r s' out
        /\ (forall g, In g (Local.changedFunctions (fst r)) ->
              Local.resolvedIn (Local.runner s) g = true)
        /\ (forall g,
              In g (Local.changedFunctions (fst r))
              \/ (exists t batch, In (t, batch) (Local.firings out) /\ In g batch) ->
              Src g \/ Local.fromEvent (Local.cfg (Local.runner s))
                         ((now, input) :: inputs) g)).
    { intros k s2 out2 C2 F2. exists (l1, false), s2, (out1 ++ out2)%list.
      split; [eapply completes_bind; [exact C1|exact C2]|].
      cbn [fst]. split; [intros g Hg; apply Hl, Hl1, Hg|].
      rewrite firings_app, F2, app_nil_r.
      intros g [Hg|Hg]; left; [apply Hl, Hl1, Hg|apply Hfired1, Hg]. }
    assert (Hcont : forall (m : Local.M W unit) s2 out2,
      Local.completes m s1 tt s2 out2 ->
      Local.firings out2 = [] ->
      exists r s' out,
        Local.completes
          (l ← Local.advance host now l; m;; Local.serve host l inputs) s r s' out
        /\ (forall g, In g (Local.changedFunctions (fst r)) ->
              Local.resolvedIn (Local.runner s) g = true)
        /\ (forall g,
              In g (Local.changedFunctions (fst r))
              \/ (exists t batch, In (t, batch) (Local.firings out) /\ In g batch) ->
              Src g \/ Local.fromEvent (Local.cfg (Local.runner s))
                         ((now, input) :: inputs) g)).
    { intros m s2 out2 C2 F2.
      assert (R2 : Local.runner s2 = Local.runner s)
        by (destruct C2 as (_ & R2 & _); congruence).
      destruct (IH l1 s2 Src) as (r & s3 & out3 & C3 & Hr3 & Hp3).
      { rewrite R2. exact Hall. }
      { intros g Hg. rewrite R2. apply Hl, Hl1, Hg. }
      exists r, s3, (out1 ++ out2 ++ out3)%list. split.
      { eapply completes_bind; [exact C1|].
        eapply completes_bind; [exact C2|exact C3]. }
      rewrite R2 in Hr3, Hp3. split; [exact Hr3|].
      rewrite !firings_app, F2. cbn [app].
      intros g [Hg|(t & b & Hin & Hg)].
      - destruct (Hp3 g (or_introl Hg)) as [H|(t & ev & Hin & H)]; [now left|].
        right. exists t, ev. split; [now right|exact H].
      - apply in_app_or in Hin as [Hin|Hin]; [left; apply Hfired1; eauto|].
        destruct (Hp3 g (or_intror (ex_intro _ t (ex_intro _ b (conj Hin Hg)))))
          as [H|(t' & ev & Hin' & H)]; [now left|].
        right. exists t', ev. split; [now right|exact H]. }
    cbn [Local.serve]. destruct input as [event|  |err|  |].
    + (* an event *)
      destruct (onEvent_completes now event l1 s1)
        as (l2 & s2 & out2 & C2 & _ & F2 & Hcase).
      assert (R2 : Local.runner s2 = Local.runner s)
        by (destruct C2 as (_ & R2 & _); congruence).
      rewrite R1 in Hcase.
      set (f := Local.findFunctionByPath (Local.cfg (Local.runner s)) (Local.Name event))
        in *.
      destruct (IH l2 s2
                  (fun g => Src g
                            \/ Local.fromEvent (Local.cfg (Local.runner s))
                                 [(now, Local.RecvEvent event)] g))
        as (r & s3 & out3 & C3 & Hr3 & Hp3).
      { rewrite R2. exact Hall. }
      { intros g Hg. rewrite R2.
        destruct Hcase as [->|(Hown & Hig & Hin)].
        - split; [apply Hl, Hl1, Hg|left; apply Hl, Hl1, Hg].
        - destruct (Hin g Hg) as [Hg1| ->].
          + split; [apply Hl, Hl1, Hg1|left; apply Hl, Hl1, Hg1].
          + unfold Local.owned in Hown.
            apply andb_true_iff in Hown as [Hown Hne].
            apply andb_true_iff in Hown as [Hown _].
            apply andb_true_iff in Hown as [_ Hie].
            apply negb_true_iff in Hne, Hie. apply String.eqb_neq in Hne.
            split; [apply found_is_resolved; assumption|].
            right. exists now, event. split; [now left|]. auto. }
      exists r, s3, (out1 ++ out2 ++ out3)%list. split.
      { eapply completes_bind; [exact C1|].
        eapply completes_bind; [exact C2|exact C3]. }
      rewrite R2 in Hr3, Hp3. split; [exact Hr3|].
      rewrite !firings_app, F2. cbn [app].
      assert (Hlift : forall g,
        (Src g \/ Local.fromEvent (Local.cfg (Local.runner s))
                    [(now, Local.RecvEvent event)] g)
        \/ Local.fromEvent (Local.cfg (Local.runner s)) inputs g ->
        Src g \/ Local.fromEvent (Local.cfg (Local.runner s))
                   ((now, Local.RecvEvent event) :: inputs) g).
      { intros g [[H|(t & ev & [Hin|[]] & H)]|(t & ev & Hin & H)].
        - now left.
        - right. exists t, ev. split; [now left|exact H].
        - right. exists t, ev. split; [now right|exact H]. }
      intros g [Hg|(t & b & Hin & Hg)].
      * apply Hlift, Hp3. now left.
      * apply in_app_or in Hin as [Hin|Hin]; [left; apply Hfired1; eauto|].
        apply Hlift, Hp3. right. eauto.
    + eapply Hend
        with (out2 := ([Local.Log "Watcher events channel closed"] ++ [])%list);
        [|reflexivity].
      eapply completes_bind; [apply completes_emit|apply completes_ret].
    + eapply Hcont; [apply completes_emit|reflexivity].
    + eapply (Hend (fun l => mret (l, false))); [apply completes_ret|reflexivity].
    + eapply Hend
        with (out2 := ([Local.Log "Received stop signal"] ++ [])%list);
        [|reflexivity].
      eapply completes_bind; [apply completes_emit|apply completes_ret].
Qed.

(** C8. An event whose path matches an ignore rule of [shouldIgnoreEvent]
    or of [shouldIgnorePath] leaves the pending list, the timer and the
    world as they are and builds and copies nothing; when the rule is one
    of [shouldIgnoreEvent] nothing happens at all.  And for every sequence
    of receptions, with a runtime resolved for every function, the loop
    completes, and every function that is handed over in a batch, or is
    still pending at the end, was put forward by an event of the sequence
    that matches no ignore rule. *)
Theorem ignored_events_never_pending
    (inputs : list (Z * Local.Select)) (s : Local.State W) :
  forallb (Local.resolvedIn (Local.runner s))
          (map fst (Config.Functions (Local.cfg (Local.runner s)))) = true ->
  (forall now event l,
     Local.shouldIgnoreEvent event = true
     \/ Local.shouldIgnorePath (Local.Name event) = true ->
     exists s' out,
       Local.completes (Local.onEvent host now event l) s l s' out
       /\ Local.world s' = Local.world s
       /\ Local.effects out = []
       /\ (Local.shouldIgnoreEvent event = true -> s' = s))
  /\ exists l' s' out,
       Local.completes (Local.watchForChanges host inputs) s l' s' out
       /\ forall g,
            In g (Local.changedFunctions l')
            \/ (exists t batch, In (t, batch) (Local.firings out) /\ In g batch) ->
            Local.fromEvent (Local.cfg (Local.runner s)) inputs g.
Proof.
  intros Hall. split.
  - intros now event l Hig.
    destruct (onEvent_discards host now event l s) as (s' & out & C & Hw & Hlog & Hs).
    { destruct Hig as [Hig|Hig].
      - left. rewrite Hig. apply orb_true_r.
      - right. apply findFunctionIn_ignored. exact Hig. }
    exists s', out. split; [exact C|]. split; [exact Hw|].
    split; [apply logs_effects; exact Hlog|].
    intros Hig'. apply Hs. rewrite Hig'. apply orb_true_r.
  - destruct (serve_provenance inputs Local.idle s (fun _ => False) Hall)
      as ([l1 running] & s1 & out1 & C1 & Hr1 & Hp1).
    { intros g []. }
    cbn [fst] in Hr1, Hp1.
    assert (R1 : Local.runner s1 = Local.runner s) by apply C1.
    assert (Hp1' : forall g,
      In g (Local.changedFunctions l1)
      \/ (exists t batch, In (t, batch) (Local.firings out1) /\ In g batch) ->
      Local.fromEvent (Local.cfg (Local.runner s)) inputs g).
    { intros g Hg. destruct (Hp1 g Hg) as [[]|H]. exact H. }
    unfold Local.watchForChanges, Local.reactor.
    destruct running.
    + assert (Hset : exists l2 s2 out2,
        Local.completes (Local.settle host l1) s1 l2 s2 out2
        /\ (forall g, In g (Local.changedFunctions l2) ->
              In g (Local.changedFunctions l1))
        /\ (forall t batch, In (t, batch) (Local.firings out2) ->
              batch = Local.changedFunctions l1)).
      { unfold Local.settle. destruct (Local.debounceTimer l1) as [d|].
        - apply onTimer_completes. rewrite R1. apply forallb_forall. exact Hr1.
        - exists l1, s1, []. split; [apply completes_ret|]. split; [auto|].
          intros ? ? []. }
      destruct Hset as (l2 & s2 & out2 & C2 & Hl2 & Hf2).
      exists l2, s2, (out1 ++ out2)%list. split.
      * eapply completes_bind; [exact C1|exact C2].
      * rewrite firings_app. intros g [Hg|(t & b & Hin & Hg)].
        -- apply Hp1'. left. apply Hl2, Hg.
        -- apply in_app_or in Hin as [Hin|Hin].
           ++ apply Hp1'. right. eauto.
           ++ rewrite (Hf2 _ _ Hin) in Hg. apply Hp1'. now left.
    + exists l1, s1, (out1 ++ [])%list. split.
      * eapply completes_bind; [exact C1|apply completes_ret].
      * rewrite app_nil_r. exact Hp1'.
Qed.

End Ignored.

(** A swap file and a file of the staging directory. *)
Lemma ignored_events_never_pending_witness :
  exists l' s' out,
    Local.completes
      (Local.watchForChanges (Demo.host Demo.noFiles [])
         [(0%Z, Local.RecvEvent (Demo.writeTo "/proj/functions/orders/.main.go.swp"));
          (10%Z, Local.RecvEvent (Demo.writeTo "/proj/functions/billing/cdk.out/bootstrap"))])
      (Demo.ready Demo.twoGo [("orders", Runtime.GolangRuntime);
                              ("billing", Runtime.GolangRuntime)])
      l' s' out
    /\ forall g,
         In g (Local.changedFunctions l')
         \/ (exists t batch, In (t, batch) (Local.firings out) /\ In g batch) ->
         Local.fromEvent Demo.twoGo
           [(0%Z, Local.RecvEvent (Demo.writeTo "/proj/functions/orders/.main.go.swp"));
            (10%Z, Local.RecvEvent (Demo.writeTo "/proj/functions/billing/cdk.out/bootstrap"))]
           g.
Proof.
  apply (ignored_events_never_pending (Demo.host Demo.noFiles [])
           [(0%Z, Local.RecvEvent (Demo.writeTo "/proj/functions/orders/.main.go.swp"));
            (10%Z, Local.RecvEvent (Demo.writeTo "/proj/functions/billing/cdk.out/bootstrap"))]
           (Demo.ready Demo.twoGo [("orders", Runtime.GolangRuntime);
                                   ("billing", Runtime.GolangRuntime)])).
  reflexivity.
Defined.

(** The pattern [~$] is compared as text: a backup file whose name ends
    with a tilde matches no rule and counts as a change of its function. *)
Example backup_file_not_ignored :
  Local.shouldIgnoreEvent (Demo.writeTo "/proj/functions/orders/main.go~") = false
  /\ Local.findFunctionByPath Demo.twoGo "/proj/functions/orders/main.go~" = "orders".
Proof. split; reflexivity. Qed.

(** On the demo project: a swap file and a file of the staging directory
    are received, then a source file; only the last one leads to a rebuild. *)
Example ignored_then_source :
  Demo.observe
    (Local.watchForChanges (Demo.host Demo.noFiles [])
       [(0%Z, Local.RecvEvent (Demo.writeTo "/proj/functions/orders/.main.go.swp"));
        (10%Z, Local.RecvEvent (Demo.writeTo "/proj/functions/billing/cdk.out/bootstrap"));
        (20%Z, Local.RecvEvent (Demo.writeTo "/proj/functions/orders/main.go"))]
       (Demo.ready Demo.twoGo [("orders", Runtime.GolangRuntime);
                               ("billing", Runtime.GolangRuntime)]))
  = Some
      (Local.idle,
       [Local.LogEvent 2 "/proj/functions/billing/cdk.out/bootstrap";
        Local.LogEvent 2 "/proj/functions/orders/main.go";
        Local.Fired 820 ["orders"];
        Local.Log "Changes detected in: [orders]";
        Local.BuildCall "orders" Runtime.GolangRuntime
          "/proj/functions/orders/bootstrap" None;
        Local.Log "Built orders -> /proj/functions/orders/bootstrap";
        Local.Log "Recompiled orders (golang)"]).
Proof. vm_compute. reflexivity. Qed.

(** ** Shutdown *)

Section Shutdown.

Context {W : Type} (host : Local.Host W).

Lemma closesOf_app tr1 tr2 :
  Local.closesOf (tr1 ++ tr2)%list = (Local.closesOf tr1 + Local.closesOf tr2)%nat.
Proof. unfold Local.closesOf. now rewrite List.filter_app, length_app. Qed.

(** The first call: the channel is closed unless it was already, the
    process is killed if there is one, the watcher is closed. *)
Lemma Stop_first (s : Local.State W) :
  exists s' out,
    Local.Stop host s = Local.Done (tt, s')
    /\ Local.trace s' = (Local.trace s ++ out)%list
    /\ Local.stopped (Local.runner s')
    /\ Local.apiProcess (Local.runner s') = Local.apiProcess (Local.runner s)
    /\ Local.closesOf out
       = match Local.stopChan (Local.runner s) with
         | Local.ChanOpen => 1%nat
         | Local.ChanClosed => 0%nat
         end
    /\ match Local.apiProcess (Local.runner s) with
       | Some p => In (Local.Kill p) out
                   /\ Local.world s' = Local.killProcess host p (Local.world s)
       | None => Local.world s' = Local.world s
       end.
Proof.
  destruct s as [[c w p ch rts wd] wo tr].
  unfold Local.Stop, Local.closeStopChan, Local.closeWatcher, Local.stopped.
  destruct ch, p as [p|], w as [[[]]|]; run_m;
    eexists; eexists;
    (split; [reflexivity|]);
    (split; [rewrite <- ?app_assoc; try reflexivity; symmetry; apply app_nil_r|]);
    simpl; repeat split; auto; try tauto.
Qed.

(** A further call changes nothing in the runner and closes no channel. *)
Lemma Stop_again (s : Local.State W) :
  Local.stopped (Local.runner s) ->
  exists s' out,
    Local.Stop host s = Local.Done (tt, s')
    /\ Local.trace s' = (Local.trace s ++ out)%list
    /\ Local.runner s' = Local.runner s
    /\ Local.closesOf out = 0%nat.
Proof.
  destruct s as [[c w p ch rts wd] wo tr]. unfold Local.stopped. cbn.
  intros [-> Hw].
  unfold Local.Stop, Local.closeStopChan, Local.closeWatcher.
  destruct Hw as [-> | ->], p as [p|]; run_m;
    eexists; eexists;
    (split; [reflexivity|]);
    (split; [rewrite <- ?app_assoc; try reflexivity; symmetry; apply app_nil_r|]);
    simpl; auto.
Qed.

Lemma StopTimes_again n : forall (s : Local.State W),
  Local.stopped (Local.runner s) ->
  exists s' out,
    Local.StopTimes host n s = Local.Done (tt, s')
    /\ Local.trace s' = (Local.trace s ++ out)%list
    /\ Local.runner s' = Local.runner s
    /\ Local.closesOf out = 0%nat.
Proof.
  induction n as [|n IH]; intros s Hs.
  - exists s, []. cbn. rewrite app_nil_r. auto.
  - destruct (Stop_again s Hs) as (s1 & out1 & E1 & T1 & R1 & C1).
    destruct (IH s1) as (s2 & out2 & E2 & T2 & R2 & C2); [now rewrite R1|].
    exists s2, (out1 ++ out2)%list. cbn [Local.StopTimes].
    unfold mbind, Local.M_bind. rewrite E1, E2.
    split; [reflexivity|]. split; [now rewrite T2, T1, app_assoc|].
    split; [congruence|]. rewrite closesOf_app, C1, C2. reflexivity.
Qed.

(** C9. Any number of calls of [Stop] in a row complete without a panic.
    The first signals stop, kills the gateway process if there is one and
    closes the watcher; the calls after it find the channel closed and
    leave the runner as the first call left it; over all the calls the
    stop channel is closed once if it was open and never if it was closed. *)
Theorem Stop_idempotent (n : nat) (s : Local.State W) :
  exists s1 out1 s' out,
    Local.Stop host s = Local.Done (tt, s1)
    /\ Local.trace s1 = (Local.trace s ++ out1)%list
    /\ Local.stopChan (Local.runner s1) = Local.ChanClosed
    /\ (Local.watcher (Local.runner s1) = None
        \/ Local.watcher (Local.runner s1) = Some {| Local.isClosed := true |})
    /\ match Local.apiProcess (Local.runner s) with
       | Some p => In (Local.Kill p) out1
                   /\ Local.world s1 = Local.killProcess host p (Local.world s)
       | None => Local.world s1 = Local.world s
       end
    /\ Local.StopTimes host (S n) s = Local.Done (tt, s')
    /\ Local.trace s' = (Local.trace s ++ out)%list
    /\ Local.runner s' = Local.runner s1
    /\ Local.closesOf out
       = match Local.stopChan (Local.runner s) with
         | Local.ChanOpen => 1%nat
         | Local.ChanClosed => 0%nat
         end.
Proof.
  destruct (Stop_first s) as (s1 & out1 & E1 & T1 & [Hc Hw] & Hp & C1 & K1).
  destruct (StopTimes_again n s1 (conj Hc Hw)) as (s2 & out2 & E2 & T2 & R2 & C2).
  exists s1, out1, s2, (out1 ++ out2)%list.
  repeat (split; [assumption|]).
  cbn [Local.StopTimes]. unfold mbind, Local.M_bind. rewrite E1, E2.
  split; [reflexivity|]. split; [now rewrite T2, T1, app_assoc|].
  split; [exact R2|]. rewrite closesOf_app, C1, C2. lia.
Qed.

End Shutdown.

(** Three calls on a running engine. *)
Example stop_three_times :
  Demo.observe
    ((Local.Start (Demo.host Demo.noFiles []);;
      Local.StopTimes (Demo.host Demo.noFiles []) 3)
       (Demo.start Demo.oneNode))
  = Some
      (tt,
       [Local.Log "Function api: nodejs runtime detected";
        Local.Log "Skipping build for api (runtime: nodejs)";
        Local.Log
          "Starting SAM CLI: sam local start-api --template cdk.out/local-dev-qrioso-example-dev.template.json --port 3000 --warm-containers EAGER --env-vars env.json";
        Local.Spawn
          ["local"; "start-api"; "--template";
           "cdk.out/local-dev-qrioso-example-dev.template.json"; "--port";
           "3000"; "--warm-containers"; "EAGER"; "--env-vars"; "env.json"];
        Local.Log "Local API Gateway started on http://localhost:3000";
        Local.Log "Setting up file watchers...";
        Local.Watch "/proj/functions/api/index.js" None;
        Local.Log "Watching /proj/functions/api/index.js for api (nodejs)";
        Local.Log "Hot reload enabled for multiple runtimes!";
        Local.CloseStop;
        Local.Log "Stopping SAM CLI...";
        Local.Kill {| Local.Pid := 4242 |};
        Local.CloseWatcher;
        Local.Log "Stopping SAM CLI...";
        Local.Kill {| Local.Pid := 4242 |};
        Local.Log "Stopping SAM CLI...";
        Local.Kill {| Local.Pid := 4242 |}]).
Proof. vm_compute. reflexivity. Qed.

(** * Further properties of the engine *)

(** ** Runs that change the runner *)

Lemma runs_bind {W A B} (m : Local.M W A) (k : A -> Local.M W B)
    s a s1 out1 b s2 out2 :
  Local.runs m s a s1 out1 -> Local.runs (k a) s1 b s2 out2 ->
  Local.runs (m ≫= k) s b s2 (out1 ++ out2)%list.
Proof.
  intros (E1 & T1) (E2 & T2). unfold Local.runs.
  unfold mbind, Local.M_bind. rewrite E1. split; [exact E2|].
  rewrite T2, T1. now rewrite app_assoc.
Qed.

Lemma runs_ret {W A} (a : A) (s : Local.State W) :
  Local.runs (mret a) s a s [].
Proof. unfold Local.runs. run_m. now rewrite app_nil_r. Qed.

Lemma runs_emit {W} (x : Local.Action) (s : Local.State W) :
  Local.runs (Local.emit x) s tt
    (Local.Build_State (Local.runner s) (Local.world s) (Local.trace s ++ [x])%list)
    [x].
Proof. unfold Local.runs. run_m. auto. Qed.

Lemma runs_of_completes {W A} (m : Local.M W A) s a s' out :
  Local.completes m s a s' out -> Local.runs m s a s' out.
Proof. intros (E & _ & T). split; assumption. Qed.

(** A run has one result. *)
Lemma runs_unique {W A} (m : Local.M W A) s a1 s1 out1 a2 s2 out2 :
  Local.runs m s a1 s1 out1 -> Local.runs m s a2 s2 out2 ->
  a1 = a2 /\ s1 = s2 /\ out1 = out2.
Proof.
  intros (E1 & T1) (E2 & T2). rewrite E1 in E2. injection E2 as <- <-.
  repeat split. rewrite T1 in T2. now apply app_inv_head in T2.
Qed.

Lemma watchedOf_app tr1 tr2 :
  Local.watchedOf (tr1 ++ tr2)%list
  = (Local.watchedOf tr1 ++ Local.watchedOf tr2)%list.
Proof. unfold Local.watchedOf. apply flat_map_app. Qed.

(** ** Watch registration *)

Lemma sameButWatched_refl lr : Local.sameButWatched lr lr.
Proof. unfold Local.sameButWatched. auto. Qed.

Lemma sameButWatched_trans lr1 lr2 lr3 :
  Local.sameButWatched lr1 lr2 -> Local.sameButWatched lr2 lr3 ->
  Local.sameButWatched lr1 lr3.
Proof.
  unfold Local.sameButWatched. intros (A1 & B1 & C1 & D1 & E1) (A2 & B2 & C2 & D2 & E2).
  repeat split; congruence.
Qed.

Lemma sameButWatched_allResolved lr lr' :
  Local.sameButWatched lr lr' -> Local.allResolved lr -> Local.allResolved lr'.
Proof.
  unfold Local.allResolved, Local.resolvedIn. intros (Hc & _ & _ & _ & Hr) H.
  now rewrite Hc, Hr.
Qed.

Lemma watchProgress_refl lr : Local.watchProgress lr lr [].
Proof.
  unfold Local.watchProgress. split; [apply sameButWatched_refl|].
  split; [constructor|]. split; [constructor|]. split; [intros ? []|].
  intros d. simpl. tauto.
Qed.

Lemma watchProgress_trans lr1 lr2 lr3 out1 out2 :
  Local.watchProgress lr1 lr2 out1 -> Local.watchProgress lr2 lr3 out2 ->
  Local.watchProgress lr1 lr3 (out1 ++ out2)%list.
Proof.
  intros (S1 & F1 & N1 & D1 & W1) (S2 & F2 & N2 & D2 & W2).
  unfold Local.watchProgress. rewrite watchedOf_app.
  split; [eapply sameButWatched_trans; eassumption|].
  split; [apply Forall_app; split; assumption|].
  split.
  { apply NoDup_app. split; [exact N1|]. split; [|exact N2].
    intros d Hd1 Hd2. apply list_elem_of_In in Hd1, Hd2.
    assert (H : Local.isWatched lr2 d = true) by (apply W1; now right).
    rewrite (D2 d Hd2) in H. discriminate. }
  split.
  { intros d Hd. apply in_app_or in Hd as [Hd|Hd]; [now apply D1|].
    destruct (Local.isWatched lr1 d) eqn:Hw; [|reflexivity].
    assert (H : Local.isWatched lr2 d = true) by (apply W1; now left).
    rewrite (D2 d Hd) in H. discriminate. }
  intros d. rewrite W2, W1, in_app_iff. tauto.
Qed.

Lemma watchProgress_log lr line : Local.watchProgress lr lr [Local.Log line].
Proof.
  unfold Local.watchProgress. split; [apply sameButWatched_refl|].
  split; [repeat constructor|]. split; [constructor|]. split; [intros ? []|].
  intros d. simpl. tauto.
Qed.

Section Watching.

Context {W : Type} (host : Local.Host W).

(** The three ways [addWatchedDir] can go. *)
Lemma addWatchedDir_runs dirPath (s : Local.State W) :
  exists r s' out,
    Local.runs (Local.addWatchedDir host dirPath) s r s' out
    /\ Local.world s' = (if Local.isWatched (Local.runner s) dirPath
                         then Local.world s
                         else fst (Local.watcherAdd host dirPath (Local.world s)))
    /\ (Local.isWatched (Local.runner s) dirPath = true
        /\ r = None /\ s' = s /\ out = []
        \/ Local.isWatched (Local.runner s) dirPath = false
           /\ (exists e, r = Some e /\ out = [Local.Watch dirPath (Some e)]
                         /\ Local.runner s' = Local.runner s)
        \/ Local.isWatched (Local.runner s) dirPath = false
           /\ r = None /\ out = [Local.Watch dirPath None]
           /\ Local.runner s' = Local.setWatched dirPath (Local.runner s)).
Proof.
  unfold Local.addWatchedDir, Local.runs, Local.isWatched. run_m.
  destruct (default false (Local.watchedDirs (Local.runner s) !! dirPath)) eqn:Hw.
  - exists None, s, []. rewrite app_nil_r. split; [auto|]. split; [reflexivity|].
    left. auto.
  - destruct (Local.watcherAdd host dirPath (Local.world s)) as [w' err] eqn:E.
    destruct err as [e|]; simpl.
    + eexists. eexists. eexists. split; [split; reflexivity|].
      split; [reflexivity|]. right. left. split; [reflexivity|]. eauto.
    + eexists. eexists. eexists. split; [split; reflexivity|].
      split; [reflexivity|]. right. right. auto.
Qed.

Lemma isWatched_setWatched lr d d' :
  Local.isWatched (Local.setWatched d lr) d' = true
  <-> d' = d \/ Local.isWatched lr d' = true.
Proof.
  unfold Local.isWatched, Local.setWatched. cbn.
  destruct (decide (d = d')) as [->|Hne].
  - rewrite lookup_insert_eq. cbn. tauto.
  - rewrite lookup_insert_ne by exact Hne. split; [tauto|].
    intros [->|H]; [contradiction|exact H].
Qed.

Lemma addWatchedDir_progress dirPath (s : Local.State W) :
  exists r s' out,
    Local.runs (Local.addWatchedDir host dirPath) s r s' out
    /\ Local.watchProgress (Local.runner s) (Local.runner s') out.
Proof.
  destruct (addWatchedDir_runs dirPath s) as (r & s' & out & R & _ & Hc).
  exists r, s', out. split; [exact R|].
  destruct Hc as [(Hw & -> & -> & ->)|[(Hw & e & -> & -> & Hr)|(Hw & -> & -> & Hr)]].
  - apply watchProgress_refl.
  - rewrite Hr. unfold Local.watchProgress. split; [apply sameButWatched_refl|].
    split; [repeat constructor|]. split; [constructor|]. split; [intros ? []|].
    intros d. simpl. tauto.
  - rewrite Hr. unfold Local.watchProgress. split.
    { unfold Local.sameButWatched, Local.setWatched. cbn. auto. }
    split; [repeat constructor|]. cbn.
    split; [apply NoDup_cons; split; [intros H; inversion H|constructor]|].
    split; [intros d [<-|[]]; exact Hw|].
    intros d. rewrite isWatched_setWatched. split.
    + intros [->|H]; [right; now left|now left].
    + intros [H|[<-|[]]]; [now right|now left].
Qed.

(** X1. A directory that [addWatchedDir] has registered is not handed to
    the watcher again: the next call for it returns no error and changes
    nothing.  A call the watcher refuses leaves the directory unwatched. *)
Theorem addWatchedDir_once dirPath (s s1 : Local.State W) r :
  Local.addWatchedDir host dirPath s = Local.Done (r, s1) ->
  match r with
  | None =>
      Local.isWatched (Local.runner s1) dirPath = true
      /\ Local.addWatchedDir host dirPath s1 = Local.Done (None, s1)
  | Some _ =>
      Local.isWatched (Local.runner s1) dirPath = false
      /\ Local.runner s1 = Local.runner s
  end.
Proof.
  intros E.
  destruct (addWatchedDir_runs dirPath s) as (r' & s' & out & (E' & _) & _ & Hc).
  rewrite E in E'. injection E' as <- <-.
  assert (Hagain : Local.isWatched (Local.runner s1) dirPath = true ->
                   Local.addWatchedDir host dirPath s1 = Local.Done (None, s1)).
  { intros Hw.
    destruct (addWatchedDir_runs dirPath s1) as (r2 & s2 & out2 & (E2 & _) & _ & Hc2).
    destruct Hc2 as [(_ & -> & -> & _)|[(Hw2 & _)|(Hw2 & _)]];
      [exact E2|congruence|congruence]. }
  destruct Hc as [(Hw & -> & -> & _)|[(Hw & e & -> & _ & Hr)|(Hw & -> & _ & Hr)]].
  - split; [exact Hw|apply Hagain, Hw].
  - split; [now rewrite Hr|exact Hr].
  - assert (Hw1 : Local.isWatched (Local.runner s1) dirPath = true)
      by (rewrite Hr; apply isWatched_setWatched; now left).
    split; [exact Hw1|apply Hagain, Hw1].
Qed.

(** A loop whose rounds register watches does so as a whole. *)
Lemma forEach_progress {A} (lr0 : Local.LocalRunner) (l : list A)
    (body : A -> Local.M W unit) :
  (forall x, In x l -> forall s : Local.State W,
     Local.sameButWatched lr0 (Local.runner s) ->
     exists s' out,
       Local.runs (body x) s tt s' out
       /\ Local.watchProgress (Local.runner s) (Local.runner s') out) ->
  forall s : Local.State W,
    Local.sameButWatched lr0 (Local.runner s) ->
    exists s' out,
      Local.runs (Local.forEach l body) s tt s' out
      /\ Local.watchProgress (Local.runner s) (Local.runner s') out.
Proof.
  induction l as [|x l IH]; intros Hbody s Hs.
  - exists s, []. split; [apply runs_ret|apply watchProgress_refl].
  - destruct (Hbody x (or_introl eq_refl) s Hs) as (s1 & out1 & R1 & P1).
    destruct (IH (fun y Hy => Hbody y (or_intror Hy)) s1) as (s2 & out2 & R2 & P2).
    { eapply sameButWatched_trans; [exact Hs|apply P1]. }
    exists s2, (out1 ++ out2)%list. split.
    + cbn [Local.forEach]. eapply runs_bind; [exact R1|exact R2].
    + eapply watchProgress_trans; eassumption.
Qed.

Lemma allResolved_runtime (lr : Local.LocalRunner) funcName function :
  Local.allResolved lr ->
  In (funcName, function) (Config.Functions (Local.cfg lr)) ->
  exists rt, Local.functionRuntimes lr !! funcName = Some rt.
Proof.
  unfold Local.allResolved. intros H Hin. rewrite forallb_forall in H.
  apply resolvedIn_Some. apply H. apply in_map_iff.
  exists (funcName, function). split; [reflexivity|exact Hin].
Qed.

(** The round of [setupFileWatchers] for one match of a pattern. *)
Lemma watchMatch_progress match_ (s : Local.State W) :
  exists s' out,
    Local.runs
      (err ← Local.addWatchedDir host (Filepath.Dir match_);
       match err with
       | Some e =>
           Local.emit (Local.Log ("Could not watch " ++ Filepath.Dir match_
                                  ++ ": " ++ e))
       | None => mret tt
       end) s tt s' out
    /\ Local.watchProgress (Local.runner s) (Local.runner s') out.
Proof.
  destruct (addWatchedDir_progress (Filepath.Dir match_) s) as (r & s1 & out1 & R1 & P1).
  destruct r as [e|].
  - eexists. eexists. split.
    + eapply runs_bind; [exact R1|apply runs_emit].
    + eapply watchProgress_trans; [exact P1|apply watchProgress_log].
  - exists s1, (out1 ++ [])%list. split.
    + eapply runs_bind; [exact R1|apply runs_ret].
    + rewrite app_nil_r. exact P1.
Qed.

(** [setupFileWatchers] is a run of watch registrations that returns no
    error. *)
Lemma setupFileWatchers_progress (s : Local.State W) :
  Local.allResolved (Local.runner s) ->
  exists s' out,
    Local.runs (Local.setupFileWatchers host) s None s' out
    /\ Local.watchProgress (Local.runner s) (Local.runner s') out.
Proof.
  intros Hs. unfold Local.setupFileWatchers.
  set (s0 := Local.Build_State (Local.runner s) (Local.world s)
               (Local.trace s ++ [Local.Log "Setting up file watchers..."])%list).
  assert (Hloop : exists s' out,
    Local.runs
      (Local.forEach (Config.Functions (Local.cfg (Local.runner s)))
         (fun '(funcName, function) =>
            let completeCodePath :=
              Filepath.Join [Config.RootPath (Local.cfg (Local.runner s));
                             Config.Code function] in
            err ← Local.addWatchedDir host completeCodePath;
            match err with
            | Some e =>
                Local.emit (Local.Log ("Could not watch " ++ completeCodePath
                                       ++ ": " ++ e))
            | None =>
                rt ← Local.runtimeOf funcName;
                Local.emit (Local.Log ("Watching " ++ completeCodePath ++ " for "
                                       ++ funcName ++ " (" ++ Runtime.Name rt ++ ")"));;
                Local.forEach (Runtime.WatchPatterns rt) (fun pattern =>
                  let absPattern :=
                    Filepath.Join [Config.RootPath (Local.cfg (Local.runner s));
                                   Config.Code function; pattern] in
                  w ← Local.getWorld;
                  match Local.globPattern host w absPattern with
                  | Err _ => mret tt
                  | Ok matches =>
                      Local.forEach matches (fun match_ =>
                        let matchDir := Filepath.Dir match_ in
                        err ← Local.addWatchedDir host matchDir;
                        match err with
                        | Some e =>
                            Local.emit (Local.Log ("Could not watch " ++ matchDir
                                                   ++ ": " ++ e))
                        | None => mret tt
                        end)
                  end)
            end)) s0 tt s' out
    /\ Local.watchProgress (Local.runner s0) (Local.runner s') out).
  { apply (forEach_progress (Local.runner s)); [|apply sameButWatched_refl].
    intros [funcName function] Hin s1 Hs1. cbv zeta.
    destruct (addWatchedDir_progress
                (Filepath.Join [Config.RootPath (Local.cfg (Local.runner s));
                                Config.Code function]) s1)
      as (r & s2 & out2 & R2 & P2).
    destruct r as [e|].
    - eexists. eexists. split.
      + eapply runs_bind; [exact R2|apply runs_emit].
      + eapply watchProgress_trans; [exact P2|apply watchProgress_log].
    - assert (Hs2 : Local.sameButWatched (Local.runner s) (Local.runner s2))
        by (eapply sameButWatched_trans; [exact Hs1|apply P2]).
      destruct (allResolved_runtime _ _ _ Hs Hin) as [rt Hrt].
      assert (Hrt2 : Local.functionRuntimes (Local.runner s2) !! funcName = Some rt).
      { destruct Hs2 as (_ & _ & _ & _ & Hf). now rewrite Hf. }
      set (s3 := Local.Build_State (Local.runner s2) (Local.world s2)
                   (Local.trace s2 ++
                    [Local.Log ("Watching "
                       ++ Filepath.Join [Config.RootPath (Local.cfg (Local.runner s));
                                         Config.Code function]
                       ++ " for " ++ funcName ++ " (" ++ Runtime.Name rt ++ ")")])%list).
      destruct (forEach_progress (Local.runner s) (Runtime.WatchPatterns rt)
                  (fun pattern =>
                     let absPattern :=
                       Filepath.Join [Config.RootPath (Local.cfg (Local.runner s));
                                      Config.Code function; pattern] in
                     w ← Local.getWorld;
                     match Local.globPattern host w absPattern with
                     | Err _ => mret tt
                     | Ok matches =>
                         Local.forEach matches (fun match_ =>
                           let matchDir := Filepath.Dir match_ in
                           err ← Local.addWatchedDir host matchDir;
                           match err with
                           | Some e =>
                               Local.emit (Local.Log ("Could not watch " ++ matchDir
                                                      ++ ": " ++ e))
                           | None => mret tt
                           end)
                     end)) with (s := s3) as (s4 & out4 & R4 & P4).
      { intros pattern _ s5 Hs5. cbv zeta.
        destruct (Local.globPattern host (Local.world s5)
                    (Filepath.Join [Config.RootPath (Local.cfg (Local.runner s));
                                    Config.Code function; pattern]))
          as [matches|e] eqn:Hg.
        - destruct (forEach_progress (Local.runner s) matches
                      (fun match_ =>
                         let matchDir := Filepath.Dir match_ in
                         err ← Local.addWatchedDir host matchDir;
                         match err with
                         | Some e =>
                             Local.emit (Local.Log ("Could not watch " ++ matchDir
                                                    ++ ": " ++ e))
                         | None => mret tt
                         end)) with (s := s5) as (s6 & out6 & R6 & P6).
          { intros match_ _ s7 _. apply watchMatch_progress. }
          { exact Hs5. }
          exists s6, ([] ++ out6)%list. split; [|exact P6].
          eapply runs_bind.
          + unfold Local.runs, Local.getWorld. split; [reflexivity|].
            symmetry; apply app_nil_r.
          + cbv beta. rewrite Hg. exact R6.
        - exists s5, ([] ++ [])%list. split; [|apply watchProgress_refl].
          eapply runs_bind.
          + unfold Local.runs, Local.getWorld. split; [reflexivity|].
            symmetry; apply app_nil_r.
          + cbv beta. rewrite Hg. apply runs_ret. }
      { exact Hs2. }
      exists s4. eexists. split.
      + eapply runs_bind; [exact R2|]. cbv beta iota.
        eapply runs_bind.
        { unfold Local.runs, Local.runtimeOf. run_m. rewrite Hrt2.
          split; [reflexivity|symmetry; apply app_nil_r]. }
        eapply runs_bind; [apply runs_emit|exact R4].
      + eapply watchProgress_trans; [exact P2|].
        eapply (watchProgress_trans _ (Local.runner s2) _ []);
          [apply watchProgress_refl|].
        eapply (watchProgress_trans _ (Local.runner s3) _ [_]);
          [apply watchProgress_log|exact P4]. }
  destruct Hloop as (s' & out & R & P).
  exists s', ([Local.Log "Setting up file watchers..."] ++ [] ++ out ++ [])%list.
  split.
  - eapply runs_bind; [apply runs_emit|].
    eapply runs_bind; [unfold Local.runs, Local.getRunner; split;
                       [reflexivity|symmetry; apply app_nil_r]|].
    eapply runs_bind; [exact R|apply runs_ret].
  - cbn [app]. rewrite app_nil_r.
    change (Local.Log "Setting up file watchers..." :: out)
      with ([Local.Log "Setting up file watchers..."] ++ out)%list.
    eapply watchProgress_trans; [apply watchProgress_log|exact P].
Qed.

(** X2. With a runtime resolved for every function, [setupFileWatchers]
    completes and returns no error, whatever the watcher and the globbing
    answer.  It changes nothing of the runner but the watched set; every
    directory is handed to the watcher only while it is not yet watched, so
    the directories the watcher accepted are distinct and were not watched
    before, and the directories watched afterwards are those and the ones
    watched before. *)
Theorem setupFileWatchers_registers_once (s : Local.State W) :
  Local.allResolved (Local.runner s) ->
  exists s' out,
    Local.runs (Local.setupFileWatchers host) s None s' out
    /\ Local.watchProgress (Local.runner s) (Local.runner s') out.
Proof. apply setupFileWatchers_progress. Qed.

End Watching.

(** ** The startup sequence *)

Lemma quiet_no_build tl :
  Forall (fun a => Local.isQuiet a = true) tl -> Local.buildsOf tl = [].
Proof.
  induction 1 as [|a l Ha _ IH]; [reflexivity|].
  destruct a; try discriminate Ha; exact IH.
Qed.

Lemma spawnsOf_app tr1 tr2 :
  Local.spawnsOf (tr1 ++ tr2)%list
  = (Local.spawnsOf tr1 ++ Local.spawnsOf tr2)%list.
Proof. unfold Local.spawnsOf. apply flat_map_app. Qed.

Section Startup.

Context {W : Type} (host : Local.Host W).

(** [initializeRuntimes] always completes; it reads and prints only, and
    when it returns no error every function it went through has a runtime. *)
Lemma initializeRuntimesFrom_total fns : forall (s : Local.State W),
  exists r s' out,
    Local.runs (Local.initializeRuntimesFrom host fns) s r s' out
    /\ Forall (fun a => Local.isQuiet a = true) out
    /\ Local.world s' = Local.world s
    /\ Local.sameButRuntimes (Local.runner s) (Local.runner s')
    /\ (r = None ->
        forall g, In g (map fst fns) \/ Local.resolvedIn (Local.runner s) g = true ->
                  Local.resolvedIn (Local.runner s') g = true).
Proof.
  induction fns as [|[g gfn] fns IH]; intros s.
  - exists None, s, []. split; [apply runs_ret|]. split; [constructor|].
    split; [reflexivity|]. split; [unfold Local.sameButRuntimes; auto|].
    intros _ h [[]|H]; exact H.
  - destruct (determineRuntime_policy host gfn s) as (out & E & Hq & _).
    unfold Local.functionDirOf in E.
    destruct (Local.resolution (Local.listDir host (Local.world s))
                (Local.cfg (Local.runner s)) gfn) as [rt|e] eqn:Hr.
    + set (s1 := Local.Build_State (Local.setRuntime g rt (Local.runner s))
                   (Local.world s)
                   ((Local.trace s ++ out) ++
                    [Local.Log ("Function " ++ g ++ ": " ++ Runtime.Name rt
                                ++ " runtime detected")])%list).
      destruct (IH s1) as (r & s' & out' & (E' & T') & Hq' & Hw' & Hs' & Hres').
      exists r, s', (out ++ [Local.Log ("Function " ++ g ++ ": " ++ Runtime.Name rt
                                        ++ " runtime detected")] ++ out')%list.
      split.
      { split.
        - cbn [Local.initializeRuntimesFrom]. run_m. rewrite E. run_m. exact E'.
        - rewrite T'. unfold s1. cbn [Local.trace]. now rewrite <- !app_assoc. }
      split; [apply Forall_app; split; [exact Hq|constructor; [reflexivity|exact Hq']]|].
      split; [exact Hw'|]. split.
      { destruct Hs' as (A & B & C & D & F). unfold Local.sameButRuntimes.
        repeat split; assumption. }
      intros Hnone h Hh. apply (Hres' Hnone).
      assert (Hset : forall k, k = g \/ Local.resolvedIn (Local.runner s) k = true ->
                       Local.resolvedIn (Local.runner s1) k = true).
      { intros k Hk. unfold Local.resolvedIn, s1. cbn.
        destruct (decide (g = k)) as [->|Hne]; [now rewrite lookup_insert_eq|].
        rewrite lookup_insert_ne by exact Hne.
        destruct Hk as [->|Hk]; [contradiction|exact Hk]. }
      cbn [map fst] in Hh. destruct Hh as [[<-|Hh]|Hh].
      * right. apply Hset. now left.
      * now left.
      * right. apply Hset. now right.
    + exists (Some ("error determining runtime for " ++ g ++ ": " ++ e)).
      exists (Local.Build_State (Local.runner s) (Local.world s)
                (Local.trace s ++ out)%list), out.
      split.
      { split; [|reflexivity].
        cbn [Local.initializeRuntimesFrom]. run_m. rewrite E. reflexivity. }
      split; [exact Hq|]. split; [reflexivity|].
      split; [unfold Local.sameButRuntimes; auto|]. discriminate.
Qed.

(** The initial build pass only builds and prints. *)
Lemma buildAllFunctionsFrom_phase fns : forall (s : Local.State W),
  forallb (Local.resolvedIn (Local.runner s)) (map fst fns) = true ->
  exists r s' out,
    Local.completes (Local.buildAllFunctionsFrom host fns) s r s' out
    /\ Forall (fun a => Local.isBuildPhase a = true) out.
Proof.
  induction fns as [|[f fn] fns IH]; intros s Hres.
  - exists None, s, []. split; [apply completes_ret|constructor].
  - simpl in Hres. apply andb_true_iff in Hres as [Hf Hres].
    destruct (resolvedIn_Some _ _ Hf) as [rt Hrt].
    cbn [Local.buildAllFunctionsFrom].
    assert (Hrun : Local.completes (Local.runtimeOf f) s rt s []).
    { unfold Local.completes, Local.runtimeOf. run_m. rewrite Hrt.
      split; [reflexivity|]. split; [reflexivity|symmetry; apply app_nil_r]. }
    destruct (Runtime.NeedsBuild rt) eqn:Hnb.
    + destruct (buildFunction_completes host f fn rt s) as (s1 & err & C1).
      destruct err as [e|].
      * eexists. eexists. eexists. split.
        -- eapply completes_bind; [exact Hrun|]. cbv beta. rewrite Hnb.
           eapply completes_bind; [exact C1|apply completes_ret].
        -- simpl. constructor; [exact Hnb|constructor].
      * destruct (IH s1) as (r & s2 & out2 & C2 & F2).
        { destruct C1 as (_ & R1 & _). rewrite R1. exact Hres. }
        eexists. eexists. eexists. split.
        -- eapply completes_bind; [exact Hrun|]. cbv beta. rewrite Hnb.
           eapply completes_bind; [exact C1|exact C2].
        -- simpl. constructor; [exact Hnb|]. constructor; [reflexivity|exact F2].
    + destruct (IH (Local.Build_State (Local.runner s) (Local.world s)
                      (Local.trace s ++ [Local.Log ("Skipping build for " ++ f
                         ++ " (runtime: " ++ Runtime.Name rt ++ ")")])%list))
        as (r & s2 & out2 & C2 & F2); [exact Hres|].
      eexists. eexists. eexists. split.
      * eapply completes_bind; [exact Hrun|]. cbv beta. rewrite Hnb.
        eapply completes_bind; [apply completes_emit|exact C2].
      * cbn [app]. constructor; [reflexivity|exact F2].
Qed.

(** [startLocalAPI]: without the template nothing is done; with it [sam]
    is started once, and the handle is kept exactly when that succeeded.  A
    default [env.json] that cannot be written is no error. *)
Lemma startLocalAPI_runs (s : Local.State W) :
  exists r s' out,
    Local.runs (Local.startLocalAPI host) s r s' out
    /\ Forall (fun a => Local.isApiPhase a = true) out
    /\ Local.cfg (Local.runner s') = Local.cfg (Local.runner s)
    /\ Local.functionRuntimes (Local.runner s') = Local.functionRuntimes (Local.runner s)
    /\ Local.watchedDirs (Local.runner s') = Local.watchedDirs (Local.runner s)
    /\ match Local.statFile host (Local.world s) Local.templatePath with
       | Local.StatNotExist e =>
           r = Some ("CDK template not found. Run 'qriosls synth' first: " ++ e)
           /\ s' = s /\ out = []
       | _ =>
           (exists w, Local.spawnsOf out = [Local.samArgs host w])
           /\ match r with
              | None => exists p, Local.apiProcess (Local.runner s') = Some p
              | Some _ => Local.apiProcess (Local.runner s')
                          = Local.apiProcess (Local.runner s)
              end
       end.
Proof.
  unfold Local.startLocalAPI, Local.runs, Local.samArgs.
  destruct (Local.statFile host (Local.world s) Local.templatePath) eqn:Ht;
    run_m; rewrite ?Ht.
  2:{ eexists. exists s, []. rewrite app_nil_r.
      repeat split; auto. }
  all: destruct (Local.statFile host (Local.world s) Local.envPath) eqn:He; run_m.
  all: try (destruct (Local.writeFile host Local.envPath Local.envContent (Local.world s))
              as [w1 werr] eqn:Hw; destruct werr as [we|]; run_m).
  all: match goal with
       | |- context [Local.startSam host ?args ?w] =>
           destruct (Local.startSam host args w) as [w2 [p|e]] eqn:Hs
       end; run_m.
  all: eexists; eexists; eexists;
       (split; [split; [reflexivity|rewrite <- ?app_assoc; reflexivity]|]);
       (split; [repeat constructor|]); cbn;
       repeat split; eauto.
Qed.

Lemma initializeRuntimes_runs (s : Local.State W) :
  exists r s' out,
    Local.runs (Local.initializeRuntimes host) s r s' out
    /\ Forall (fun a => Local.isQuiet a = true) out
    /\ Local.world s' = Local.world s
    /\ Local.sameButRuntimes (Local.runner s) (Local.runner s')
    /\ (r = None -> Local.allResolved (Local.runner s')).
Proof.
  destruct (initializeRuntimesFrom_total
              (Config.Functions (Local.cfg (Local.runner s))) s)
    as (r & s' & out & (E & T) & Hq & Hw & Hs & Hres).
  exists r, s', out. split.
  { split; [unfold Local.initializeRuntimes; run_m; exact E|exact T]. }
  split; [exact Hq|]. split; [exact Hw|]. split; [exact Hs|].
  intros Hnone. unfold Local.allResolved. destruct Hs as (Hc & _).
  rewrite Hc. apply forallb_forall. intros g Hg. apply (Hres Hnone). now left.
Qed.

(** The whole of [Start]: it always completes, its actions come in the
    order of its four steps, and the runner keeps a process handle exactly
    when the sequence went through. *)
Lemma Start_runs (s : Local.State W) :
  exists r s' o1 o2 o3 o4,
    Local.runs (Local.Start host) s r s' (o1 ++ o2 ++ o3 ++ o4)%list
    /\ Forall (fun a => Local.isQuiet a = true) o1
    /\ Forall (fun a => Local.isBuildPhase a = true) o2
    /\ Forall (fun a => Local.isApiPhase a = true) o3
    /\ Forall (fun a => Local.isWatchPhase a = true) o4
    /\ Local.cfg (Local.runner s') = Local.cfg (Local.runner s)
    /\ match r with
       | Local.Serving =>
           (exists p, Local.apiProcess (Local.runner s') = Some p)
           /\ (exists w, Local.spawnsOf o3 = [Local.samArgs host w])
           /\ Local.allResolved (Local.runner s')
       | Local.StartFailed _ =>
           Local.apiProcess (Local.runner s') = Local.apiProcess (Local.runner s)
           /\ Local.watchedDirs (Local.runner s') = Local.watchedDirs (Local.runner s)
           /\ o4 = []
       end
    /\ (forall e,
          (forall w, Local.statFile host w Local.templatePath = Local.StatNotExist e) ->
          o3 = [] /\ exists e', r = Local.StartFailed e').
Proof.
  destruct (initializeRuntimes_runs s) as (r1 & s1 & o1 & R1 & Q1 & W1 & S1 & A1).
  destruct S1 as (Hc1 & Hwa1 & Hp1 & Hst1 & Hwd1).
  unfold Local.Start.
  destruct r1 as [e1|].
  { exists (Local.StartFailed e1), s1, o1, [], [], []. split.
    { rewrite !app_nil_r. rewrite <- (app_nil_r o1).
      eapply runs_bind; [exact R1|apply runs_ret]. }
    split; [exact Q1|]. split; [constructor|]. split; [constructor|].
    split; [constructor|]. split; [exact Hc1|]. split; [auto|].
    intros e _. split; [reflexivity|eauto]. }
  specialize (A1 eq_refl).
  destruct (buildAllFunctionsFrom_phase
              (Config.Functions (Local.cfg (Local.runner s1))) s1 A1)
    as (r2 & s2 & o2 & (E2 & Rn2 & T2) & F2).
  assert (R2 : Local.runs (Local.buildAllFunctions host) s1 r2 s2 o2).
  { split; [unfold Local.buildAllFunctions; run_m; exact E2|exact T2]. }
  destruct r2 as [e2|].
  { exists (Local.StartFailed e2), s2, o1, o2, [], []. split.
    { rewrite !app_nil_r.
      eapply runs_bind; [exact R1|]. cbv beta iota.
      rewrite <- (app_nil_r o2). eapply runs_bind; [exact R2|apply runs_ret]. }
    split; [exact Q1|]. split; [exact F2|]. split; [constructor|].
    split; [constructor|]. split; [congruence|].
    split; [repeat split; congruence|].
    intros e _. split; [reflexivity|eauto]. }
  destruct (startLocalAPI_runs s2) as (r3 & s3 & o3 & R3 & F3 & Hc3 & Hf3 & Hwd3 & Hcase).
  destruct r3 as [e3|].
  { exists (Local.StartFailed e3), s3, o1, o2, o3, []. split.
    { rewrite !app_nil_r.
      eapply runs_bind; [exact R1|]. cbv beta iota.
      eapply runs_bind; [exact R2|]. cbv beta iota.
      rewrite <- (app_nil_r o3). eapply runs_bind; [exact R3|apply runs_ret]. }
    split; [exact Q1|]. split; [exact F2|]. split; [exact F3|].
    split; [constructor|]. split; [congruence|]. split.
    { split; [|split; [congruence|reflexivity]].
      destruct (Local.statFile host (Local.world s2) Local.templatePath).
      - destruct Hcase as (_ & Hp). congruence.
      - destruct Hcase as (_ & -> & _). congruence.
      - destruct Hcase as (_ & Hp). congruence. }
    intros e He. rewrite He in Hcase. destruct Hcase as (_ & _ & ->).
    split; [reflexivity|eauto]. }
  assert (A3 : Local.allResolved (Local.runner s3)).
  { unfold Local.allResolved, Local.resolvedIn in *. rewrite Hc3, Hf3, Rn2. exact A1. }
  destruct (setupFileWatchers_progress host s3 A3) as (s4 & o4 & R4 & P4).
  destruct P4 as ((Hc4 & Hwa4 & Hp4 & Hst4 & Hf4) & F4 & _).
  exists Local.Serving.
  exists (Local.Build_State (Local.runner s4) (Local.world s4)
            (Local.trace s4 ++ [Local.Log "Hot reload enabled for multiple runtimes!"])%list).
  exists o1, o2, o3, (o4 ++ [Local.Log "Hot reload enabled for multiple runtimes!"] ++ [])%list.
  split.
  { eapply runs_bind; [exact R1|]. cbv beta iota.
    eapply runs_bind; [exact R2|]. cbv beta iota.
    eapply runs_bind; [exact R3|]. cbv beta iota.
    eapply runs_bind; [exact R4|]. cbv beta iota.
    eapply runs_bind; [apply runs_emit|apply runs_ret]. }
  split; [exact Q1|]. split; [exact F2|]. split; [exact F3|].
  split; [apply Forall_app; split; [exact F4|repeat constructor]|].
  cbn [Local.runner]. split; [congruence|]. split.
  { assert (Hsp : (exists w, Local.spawnsOf o3 = [Local.samArgs host w])
                  /\ exists p, Local.apiProcess (Local.runner s3) = Some p).
    { destruct (Local.statFile host (Local.world s2) Local.templatePath);
        [exact Hcase| |exact Hcase].
      destruct Hcase as (Hd & _). discriminate Hd. }
    destruct Hsp as (Hsp & p & Hp). split; [exists p; congruence|].
    split; [exact Hsp|].
    unfold Local.allResolved, Local.resolvedIn in *. rewrite Hc4, Hf4. exact A3. }
  intros e He. rewrite He in Hcase. destruct Hcase as (Hd & _). discriminate Hd.
Qed.

(** X3. [Start] always completes: no runtime is called that was not
    resolved.  Whatever the host answers, its actions come in four runs in
    this order: reading directories for detection, building, writing the
    default parameters and starting the gateway, registering watches.  So
    nothing is built once the gateway is started and nothing is watched
    before. *)
Theorem Start_in_phases (s : Local.State W) :
  exists r s' o1 o2 o3 o4,
    Local.runs (Local.Start host) s r s' (o1 ++ o2 ++ o3 ++ o4)%list
    /\ Forall (fun a => Local.isQuiet a = true) o1
    /\ Forall (fun a => Local.isBuildPhase a = true) o2
    /\ Forall (fun a => Local.isApiPhase a = true) o3
    /\ Forall (fun a => Local.isWatchPhase a = true) o4.
Proof.
  destruct (Start_runs s) as (r & s' & o1 & o2 & o3 & o4 & R & F1 & F2 & F3 & F4 & _).
  exists r, s', o1, o2, o3, o4. auto.
Qed.

Lemma phases_no_watch o1 o2 o3 :
  Forall (fun a => Local.isQuiet a = true) o1 ->
  Forall (fun a => Local.isBuildPhase a = true) o2 ->
  Forall (fun a => Local.isApiPhase a = true) o3 ->
  Local.watchedOf (o1 ++ o2 ++ o3)%list = [].
Proof.
  intros F1 F2 F3. rewrite !watchedOf_app.
  assert (H : forall (P : Local.Action -> bool) l,
            (forall a, P a = true -> forall d e, a <> Local.Watch d e) ->
            Forall (fun a => P a = true) l -> Local.watchedOf l = []).
  { intros P l HP Hl. induction Hl as [|a l Ha _ IH]; [reflexivity|].
    destruct a; try exact IH. exfalso. eapply HP; eauto. }
  rewrite (H Local.isQuiet _ ltac:(intros [] Ha ? ?; (discriminate Ha || discriminate)) F1).
  rewrite (H Local.isBuildPhase _ ltac:(intros [] Ha ? ?; (discriminate Ha || discriminate)) F2).
  rewrite (H Local.isApiPhase _ ltac:(intros [] Ha ? ?; (discriminate Ha || discriminate)) F3).
  reflexivity.
Qed.

(** X4. Started on a runner without a process, [Start] leaves a process
    handle in the runner exactly when it went through to serving, and then
    [sam] was started once; when it fails, the runner holds no process,
    and no directory has been handed to the watcher. *)
Theorem Start_handle_iff_serving (s : Local.State W) :
  Local.apiProcess (Local.runner s) = None ->
  exists r s' out,
    Local.runs (Local.Start host) s r s' out
    /\ (r = Local.Serving <-> exists p, Local.apiProcess (Local.runner s') = Some p)
    /\ (r = Local.Serving -> length (Local.spawnsOf out) = 1%nat)
    /\ (r <> Local.Serving ->
        Local.watchedOf out = []
        /\ Local.watchedDirs (Local.runner s') = Local.watchedDirs (Local.runner s)).
Proof.
  intros Hnone.
  destruct (Start_runs s)
    as (r & s' & o1 & o2 & o3 & o4 & R & F1 & F2 & F3 & F4 & _ & Hr & _).
  exists r, s', (o1 ++ o2 ++ o3 ++ o4)%list. split; [exact R|].
  destruct r as [e|].
  - destruct Hr as (Hp & Hwd & ->). rewrite Hnone in Hp. split.
    + split; [discriminate|]. intros [p H]. congruence.
    + split; [discriminate|]. intros _. rewrite app_nil_r.
      split; [apply phases_no_watch; assumption|exact Hwd].
  - destruct Hr as (Hp & (w & Hsp) & _). split; [split; auto|].
    split; [|intros H; contradiction].
    intros _. rewrite !spawnsOf_app, Hsp.
    assert (H : forall (P : Local.Action -> bool) l,
              (forall a, P a = true -> forall args, a <> Local.Spawn args) ->
              Forall (fun a => P a = true) l -> Local.spawnsOf l = []).
    { intros P l HP Hl. induction Hl as [|a l Ha _ IH]; [reflexivity|].
      destruct a; try exact IH. exfalso. eapply HP; eauto. }
    rewrite (H Local.isQuiet _ ltac:(intros [] Ha ?; (discriminate Ha || discriminate)) F1).
    rewrite (H Local.isBuildPhase _ ltac:(intros [] Ha ?; (discriminate Ha || discriminate)) F2).
    rewrite (H Local.isWatchPhase _ ltac:(intros [] Ha ?; (discriminate Ha || discriminate)) F4).
    reflexivity.
Qed.

(** X5. As long as the synthesized template is missing, [Start] fails,
    whatever else the host answers: [sam] is never started, no directory is
    handed to the watcher and the runner keeps the process handle it had. *)
Theorem Start_without_template (e : string) (s : Local.State W) :
  (forall w, Local.statFile host w Local.templatePath = Local.StatNotExist e) ->
  exists e' s' out,
    Local.runs (Local.Start host) s (Local.StartFailed e') s' out
    /\ Local.spawnsOf out = []
    /\ Local.watchedOf out = []
    /\ Local.apiProcess (Local.runner s') = Local.apiProcess (Local.runner s).
Proof.
  intros Ht.
  destruct (Start_runs s)
    as (r & s' & o1 & o2 & o3 & o4 & R & F1 & F2 & F3 & F4 & _ & Hr & Hno).
  destruct (Hno e Ht) as (-> & e' & ->).
  destruct Hr as (Hp & _ & ->).
  exists e', s', (o1 ++ o2 ++ [] ++ [])%list. split; [exact R|].
  split; [|split; [apply (phases_no_watch o1 o2 []); auto|exact Hp]].
  rewrite !spawnsOf_app.
  assert (H : forall (P : Local.Action -> bool) l,
            (forall a, P a = true -> forall args, a <> Local.Spawn args) ->
            Forall (fun a => P a = true) l -> Local.spawnsOf l = []).
  { intros P l HP Hl. induction Hl as [|a l Ha _ IH]; [reflexivity|].
    destruct a; try exact IH. exfalso. eapply HP; eauto. }
  rewrite (H Local.isQuiet _ ltac:(intros [] Ha ?; (discriminate Ha || discriminate)) F1).
  rewrite (H Local.isBuildPhase _ ltac:(intros [] Ha ?; (discriminate Ha || discriminate)) F2).
  reflexivity.
Qed.

End Startup.

(** ** The runtimes recorded at startup *)

Section Recorded.

Context {W : Type} (host : Local.Host W).

Lemma initializeRuntimesFrom_records fns : forall (s s' : Local.State W),
  NoDup (map fst fns) ->
  Local.initializeRuntimesFrom host fns s = Local.Done (None, s') ->
  (forall f function, In (f, function) fns ->
     Local.functionRuntimes (Local.runner s') !! f
     = Runtime.kindOf (Local.resolution (Local.listDir host (Local.world s))
                         (Local.cfg (Local.runner s)) function))
  /\ (forall g, ~ In g (map fst fns) ->
        Local.functionRuntimes (Local.runner s') !! g
        = Local.functionRuntimes (Local.runner s) !! g).
Proof.
  induction fns as [|[g gfn] fns IH]; intros s s' Hnd E.
  - cbn in E. injection E as <-. split; [intros ? ? []|auto].
  - apply NoDup_cons in Hnd as [Hg Hnd].
    rewrite list_elem_of_In in Hg.
    destruct (determineRuntime_policy host gfn s) as (out & Ed & _ & _).
    unfold Local.functionDirOf in Ed.
    cbn [Local.initializeRuntimesFrom] in E. revert E. run_m. rewrite Ed.
    destruct (Local.resolution (Local.listDir host (Local.world s))
                (Local.cfg (Local.runner s)) gfn) as [rt|e] eqn:Hr;
      run_m; [|discriminate].
    intros E. apply IH in E; [|exact Hnd]. cbn in E. destruct E as [Hin Hout].
    split.
    + intros f function [Heq|Hf].
      * injection Heq as <- <-. rewrite Hr. cbn.
        rewrite (Hout g Hg). apply lookup_insert_eq.
      * apply Hin, Hf.
    + intros h Hh. cbn [map fst] in Hh.
      rewrite Hout by (intros H; apply Hh; now right).
      apply lookup_insert_ne. intros ->. apply Hh. now left.
Qed.

(** X6. When [initializeRuntimes] returns no error on a configuration (a
    Go map: its keys are distinct), the runtime recorded for every function
    is the one the policy gives it (the declared one when supported, the
    detected one otherwise), and the entries of other names are as before. *)
Theorem initializeRuntimes_records (s s' : Local.State W) :
  NoDup (map fst (Config.Functions (Local.cfg (Local.runner s)))) ->
  Local.initializeRuntimes host s = Local.Done (None, s') ->
  (forall f function,
     In (f, function) (Config.Functions (Local.cfg (Local.runner s))) ->
     Local.functionRuntimes (Local.runner s') !! f
     = Runtime.kindOf (Local.resolution (Local.listDir host (Local.world s))
                         (Local.cfg (Local.runner s)) function))
  /\ (forall g, ~ In g (map fst (Config.Functions (Local.cfg (Local.runner s)))) ->
        Local.functionRuntimes (Local.runner s') !! g
        = Local.functionRuntimes (Local.runner s) !! g).
Proof.
  intros Hnd E. apply initializeRuntimesFrom_records; [exact Hnd|].
  revert E. unfold Local.initializeRuntimes. run_m. auto.
Qed.

End Recorded.

(** ** The reactor loop on any sequence of receptions *)

Lemma completes_unique {W A} (m : Local.M W A) s a1 s1 out1 a2 s2 out2 :
  Local.completes m s a1 s1 out1 -> Local.completes m s a2 s2 out2 ->
  a1 = a2 /\ s1 = s2 /\ out1 = out2.
Proof.
  intros C1 C2. eapply runs_unique; apply runs_of_completes; eassumption.
Qed.

Lemma buildPhase_reactor out :
  Forall (fun a => Local.isBuildPhase a = true) out ->
  Forall (fun a => Local.isReactorAction a = true) out.
Proof.
  apply List.Forall_impl. intros [] H; (discriminate H || exact H || reflexivity).
Qed.

Lemma logs_reactor out :
  Forall (fun a => Local.isLog a = true) out ->
  Forall (fun a => Local.isReactorAction a = true) out.
Proof.
  apply List.Forall_impl. intros [] H; (discriminate H || reflexivity).
Qed.

Lemma loopInv_idle : Local.loopInv Local.idle.
Proof.
  unfold Local.loopInv, Local.idle. cbn. split; [constructor|].
  split; [|intros H; now contradiction H].
  intros f. rewrite lookup_empty. cbn. split; [discriminate|intros []].
Qed.

Lemma loopInv_armed f now l :
  Local.loopInv l ->
  Local.loopInv (Local.armed f now l)
  /\ In f (Local.changedFunctions (Local.armed f now l))
  /\ (forall g, In g (Local.changedFunctions l) ->
                In g (Local.changedFunctions (Local.armed f now l)))
  /\ (forall g, In g (Local.changedFunctions (Local.armed f now l)) ->
                In g (Local.changedFunctions l) \/ g = f).
Proof.
  intros (Hnd & Hset & _). unfold Local.armed, Local.loopInv. cbn.
  destruct (default false (Local.changeSet l !! f)) eqn:Hf.
  - split; [split; [exact Hnd|split; [exact Hset|discriminate]]|].
    split; [apply Hset, Hf|]. split; [auto|]. intros g Hg. now left.
  - assert (Hnot : ~ In f (Local.changedFunctions l)).
    { intros H. apply Hset in H. congruence. }
    split.
    { split.
      - apply NoDup_app. split; [exact Hnd|]. split.
        + intros g Hg1 Hg2. apply list_elem_of_In in Hg1, Hg2.
          destruct Hg2 as [<-|[]]. contradiction.
        + apply NoDup_singleton.
      - split; [|discriminate]. intros g. rewrite in_app_iff.
        destruct (decide (f = g)) as [->|Hne].
        + rewrite lookup_insert_eq. cbn. split; [intros _; right; now left|auto].
        + rewrite lookup_insert_ne by exact Hne. rewrite Hset.
          split; [now left|]. intros [H|[H|[]]]; [exact H|contradiction]. }
    split; [apply in_or_app; right; now left|].
    split; [intros g Hg; apply in_or_app; now left|].
    intros g Hg. apply in_app_or in Hg as [Hg|[<-|[]]]; [now left|now right].
Qed.

Section Reactor.

Context {W : Type} (host : Local.Host W).

Lemma rebuildChanged_phase f rt (s : Local.State W) :
  Local.functionRuntimes (Local.runner s) !! f = Some rt ->
  exists s' out,
    Local.completes (Local.rebuildChanged host f) s tt s' out
    /\ Forall (fun a => Local.isBuildPhase a = true) out.
Proof.
  intros Hrt. unfold Local.rebuildChanged.
  assert (Hrun : Local.completes (Local.runtimeOf f) s rt s []).
  { unfold Local.completes, Local.runtimeOf. run_m. rewrite Hrt.
    split; [reflexivity|]. split; [reflexivity|symmetry; apply app_nil_r]. }
  assert (Hget : Local.completes Local.getRunner s (Local.runner s) s []).
  { unfold Local.completes, Local.getRunner.
    split; [reflexivity|]. split; [reflexivity|symmetry; apply app_nil_r]. }
  destruct (Runtime.NeedsBuild rt) eqn:Hnb.
  - destruct (buildFunction_completes host f
                (Config.lookupFunc (Config.Functions (Local.cfg (Local.runner s))) f)
                rt s) as (s1 & err & C1).
    destruct err as [e|].
    + eexists. eexists. split.
      * eapply completes_bind; [exact Hget|]. cbv beta zeta.
        eapply completes_bind; [exact Hrun|]. cbv beta. rewrite Hnb.
        eapply completes_bind; [exact C1|apply completes_emit].
      * simpl. repeat (constructor; [first [exact Hnb|reflexivity]|]). constructor.
    + eexists. eexists. split.
      * eapply completes_bind; [exact Hget|]. cbv beta zeta.
        eapply completes_bind; [exact Hrun|]. cbv beta. rewrite Hnb.
        eapply completes_bind; [exact C1|apply completes_emit].
      * simpl. repeat (constructor; [first [exact Hnb|reflexivity]|]). constructor.
  - eexists. eexists. split.
    + eapply completes_bind; [exact Hget|]. cbv beta zeta.
      eapply completes_bind; [exact Hrun|]. cbv beta. rewrite Hnb.
      apply completes_emit.
    + repeat constructor.
Qed.

Lemma forEach_rebuild_phase batch : forall (s : Local.State W),
  forallb (Local.resolvedIn (Local.runner s)) batch = true ->
  exists s' out,
    Local.completes (Local.forEach batch (Local.rebuildChanged host)) s tt s' out
    /\ Forall (fun a => Local.isBuildPhase a = true) out.
Proof.
  induction batch as [|f batch IH]; intros s Hres.
  - exists s, []. split; [apply completes_ret|constructor].
  - simpl in Hres. apply andb_true_iff in Hres as [Hf Hres].
    destruct (resolvedIn_Some _ _ Hf) as [rt Hrt].
    destruct (rebuildChanged_phase f rt s Hrt) as (s1 & out1 & C1 & F1).
    destruct (IH s1) as (s2 & out2 & C2 & F2).
    { destruct C1 as (_ & R1 & _). rewrite R1. exact Hres. }
    exists s2, (out1 ++ out2)%list. split.
    + cbn [Local.forEach]. eapply completes_bind; [exact C1|exact C2].
    + apply Forall_app. split; assumption.
Qed.

(** The timer case, with what it does to the loop state. *)
Lemma onTimer_step d l (s : Local.State W) :
  forallb (Local.resolvedIn (Local.runner s)) (Local.changedFunctions l) = true ->
  Local.loopInv l ->
  exists l1 s1 out,
    Local.completes (Local.onTimer host d l) s l1 s1 out
    /\ Local.loopInv l1
    /\ Local.changedFunctions l1 = []
    /\ Forall (fun a => Local.isReactorAction a = true) out
    /\ (forall t b, In (t, b) (Local.firings out) ->
          t = d /\ b = Local.changedFunctions l /\ b <> [])
    /\ (forall f, In f (Local.changedFunctions l) -> Local.firedIn out f).
Proof.
  intros Hres (Hnd & Hset & Harm).
  destruct (Local.changedFunctions l) as [|f batch] eqn:Hl.
  - unfold Local.onTimer. rewrite Hl. cbn [length Nat.ltb Nat.leb].
    eexists. exists s, []. split; [apply completes_ret|].
    split.
    { unfold Local.loopInv. cbn. split; [constructor|].
      split; [exact Hset|]. intros H. now contradiction H. }
    split; [reflexivity|]. split; [constructor|]. split; [intros ? ? []|intros ? []].
  - destruct (onTimer_fires host d l s) as (s1 & out & C & F & _).
    { rewrite Hl. discriminate. }
    { rewrite Hl. exact Hres. }
    exists Local.idle, s1, out. split; [exact C|]. split; [apply loopInv_idle|].
    split; [reflexivity|]. rewrite F, Hl. split.
    + (* the actions *)
      destruct (forEach_rebuild_phase (f :: batch)
                  (Local.Build_State (Local.runner s) (Local.world s)
                     ((Local.trace s ++ [Local.Fired d (f :: batch)]) ++
                      [Local.Log ("Changes detected in: ["
                                  ++ GoStrings.Join (f :: batch) " " ++ "]")])%list))
        as (s2 & out2 & C2 & F2); [exact Hres|].
      assert (C' : Local.completes (Local.onTimer host d l) s Local.idle s2
                     ([Local.Fired d (f :: batch)]
                      ++ ([Local.Log ("Changes detected in: ["
                                      ++ GoStrings.Join (f :: batch) " " ++ "]")]
                          ++ out2) ++ [])%list).
      { unfold Local.onTimer. rewrite Hl.
        change (0 <? length (f :: batch))%nat with true. cbv iota.
        eapply completes_bind; [apply completes_emit|].
        eapply completes_bind; [|apply completes_ret].
        unfold Local.handleFileChange.
        eapply completes_bind; [apply completes_emit|exact C2]. }
      destruct (completes_unique _ _ _ _ _ _ _ _ C C') as (_ & _ & ->).
      rewrite app_nil_r. constructor; [reflexivity|].
      constructor; [reflexivity|]. apply buildPhase_reactor, F2.
    + split.
      * intros t b [Hin|[]]. injection Hin as <- <-.
        split; [reflexivity|split; [reflexivity|discriminate]].
      * intros g Hg. exists d, (f :: batch).
        split; [rewrite F, Hl; now left|exact Hg].
Qed.

Lemma advance_step now l (s : Local.State W) :
  forallb (Local.resolvedIn (Local.runner s)) (Local.changedFunctions l) = true ->
  Local.loopInv l ->
  exists l1 s1 out,
    Local.completes (Local.advance host now l) s l1 s1 out
    /\ Local.loopInv l1
    /\ Forall (fun a => Local.isReactorAction a = true) out
    /\ (forall f, In f (Local.changedFunctions l1) -> In f (Local.changedFunctions l))
    /\ (forall t b, In (t, b) (Local.firings out) ->
          Local.debounceTimer l = Some t /\ b = Local.changedFunctions l /\ b <> [])
    /\ (forall f, In f (Local.changedFunctions l) ->
          In f (Local.changedFunctions l1) \/ Local.firedIn out f).
Proof.
  intros Hres Hinv. unfold Local.advance.
  assert (Hstay : exists l1 s1 out,
    Local.completes (mret l : Local.M W _) s l1 s1 out
    /\ Local.loopInv l1
    /\ Forall (fun a => Local.isReactorAction a = true) out
    /\ (forall f, In f (Local.changedFunctions l1) -> In f (Local.changedFunctions l))
    /\ (forall t b, In (t, b) (Local.firings out) ->
          Local.debounceTimer l = Some t /\ b = Local.changedFunctions l /\ b <> [])
    /\ (forall f, In f (Local.changedFunctions l) ->
          In f (Local.changedFunctions l1) \/ Local.firedIn out f)).
  { exists l, s, []. split; [apply completes_ret|]. split; [exact Hinv|].
    split; [constructor|]. split; [auto|]. split; [intros ? ? []|auto]. }
  destruct (Local.debounceTimer l) as [d|] eqn:Ht; [|exact Hstay].
  destruct (d <=? now)%Z; [|exact Hstay].
  destruct (onTimer_step d l s Hres Hinv) as (l1 & s1 & out & C & I1 & He & F & Hf & Hall).
  exists l1, s1, out. split; [exact C|]. split; [exact I1|]. split; [exact F|].
  split; [rewrite He; intros ? []|]. split.
  - intros t b Hin. destruct (Hf t b Hin) as (-> & -> & Hne). auto.
  - intros f Hin. right. apply Hall, Hin.
Qed.

(** [handleFileCreation] asks for one copy, into the asset directory of the
    owner of the path, or for none. *)
Lemma handleFileCreation_exact path (s : Local.State W) :
  exists s' out,
    Local.completes (Local.handleFileCreation host path) s tt s' out
    /\ (Local.findFunctionByPath (Local.cfg (Local.runner s)) path = "" /\ out = []
        \/ Local.findFunctionByPath (Local.cfg (Local.runner s)) path <> ""
           /\ exists err line,
                out = [Local.Copy path
                         (Config.RootPath (Local.cfg (Local.runner s))
                          ++ "/cdk.out/asset."
                          ++ Local.Sha256Hash host
                               (Local.findFunctionByPath
                                  (Local.cfg (Local.runner s)) path))
                         err;
                       Local.Log line]).
Proof.
  unfold Local.handleFileCreation, Local.completes. run_m.
  destruct (String.eqb (Local.findFunctionByPath _ path) "") eqn:Hf; simpl.
  - apply String.eqb_eq in Hf. exists s, []. rewrite app_nil_r.
    split; [auto|]. left. auto.
  - apply String.eqb_neq in Hf.
    destruct (Local.CopyCode host path _ (Local.world s)) as [w' err].
    destruct err as [e|]; simpl; eexists; eexists;
      (split;
       [split; [reflexivity|split; [reflexivity|rewrite <- app_assoc; reflexivity]]
       |right; split; [exact Hf|eexists; eexists; reflexivity]]).
Qed.

(** The event case, with what it does to the loop state. *)
Lemma onEvent_step now event l (s : Local.State W) :
  Local.loopInv l ->
  exists l' s' out,
    Local.completes (Local.onEvent host now event l) s l' s' out
    /\ Local.loopInv l'
    /\ Forall (fun a => Local.isReactorAction a = true) out
    /\ Local.firings out = []
    /\ (forall g, In g (Local.changedFunctions l) -> In g (Local.changedFunctions l'))
    /\ (forall g, In g (Local.changedFunctions l') ->
          In g (Local.changedFunctions l)
          \/ Local.owned (Local.cfg (Local.runner s)) g event = true)
    /\ (forall g, Local.owned (Local.cfg (Local.runner s)) g event = true ->
          In g (Local.changedFunctions l')).
Proof.
  intros Hinv.
  set (f := Local.findFunctionByPath (Local.cfg (Local.runner s)) (Local.Name event)).
  assert (Hownf : forall g, Local.owned (Local.cfg (Local.runner s)) g event = true ->
            g = f
            /\ N.eqb (Local.Op event) Local.Chmod || Local.shouldIgnoreEvent event = false
            /\ f <> "").
  { unfold Local.owned. intros g H.
    apply andb_true_iff in H as [H Hne]. apply andb_true_iff in H as [H Hf].
    apply andb_true_iff in H as [Hch Hig].
    apply negb_true_iff in Hch, Hig, Hne. apply String.eqb_eq in Hf.
    apply String.eqb_neq in Hne. fold f in Hf. subst g.
    split; [reflexivity|]. split; [now rewrite Hch, Hig|exact Hne]. }
  destruct (N.eqb (Local.Op event) Local.Chmod || Local.shouldIgnoreEvent event) eqn:Hc;
    [|destruct (String.eqb f "") eqn:Hf].
  - destruct (onEvent_discards host now event l s) as (s' & out & C & _ & Hlog & _);
      [now left|].
    exists l, s', out. split; [exact C|]. split; [exact Hinv|].
    split; [apply logs_reactor, Hlog|]. split; [apply logs_firings, Hlog|].
    split; [auto|]. split; [auto|].
    intros g Hg. destruct (Hownf g Hg) as (_ & H & _). discriminate H.
  - apply String.eqb_eq in Hf.
    destruct (onEvent_discards host now event l s) as (s' & out & C & _ & Hlog & _);
      [now right|].
    exists l, s', out. split; [exact C|]. split; [exact Hinv|].
    split; [apply logs_reactor, Hlog|]. split; [apply logs_firings, Hlog|].
    split; [auto|]. split; [auto|].
    intros g Hg. destruct (Hownf g Hg) as (_ & _ & H). contradiction.
  - assert (Hown : Local.owned (Local.cfg (Local.runner s)) f event = true).
    { unfold Local.owned. apply orb_false_iff in Hc as [-> ->].
      fold f. rewrite String.eqb_refl, Hf. reflexivity. }
    destruct (onEvent_owned host now event l f s Hown) as (s' & out & C & _ & F).
    fold (Local.armed f now l) in C.
    destruct (loopInv_armed f now l Hinv) as (I' & Hin & Hkeep & Hnew).
    exists (Local.armed f now l), s', out. split; [exact C|]. split; [exact I'|].
    split.
    { (* the actions *)
      set (s0 := Local.Build_State (Local.runner s) (Local.world s)
                   (Local.trace s ++ [Local.LogEvent (Local.Op event) (Local.Name event)])%list).
      assert (Hcr : exists s1 out1,
        Local.completes
          (if N.eqb (N.land (Local.Op event) Local.Create) Local.Create
           then Local.handleFileCreation host (Local.Name event) else mret tt)
          s0 tt s1 out1
        /\ Forall (fun a => Local.isReactorAction a = true) out1).
      { destruct (N.eqb _ Local.Create).
        - destruct (handleFileCreation_exact (Local.Name event) s0)
            as (s1 & out1 & C1 & [(_ & ->)|(_ & err & line & ->)]).
          + eexists. eexists. split; [exact C1|constructor].
          + eexists. eexists. split; [exact C1|repeat constructor].
        - eexists. exists []. split; [apply completes_ret|constructor]. }
      destruct Hcr as (s1 & out1 & C1 & F1).
      assert (R1 : Local.runner s1 = Local.runner s) by apply C1.
      assert (C' : Local.completes (Local.onEvent host now event l) s
                     (Local.armed f now l) s1
                     ([Local.LogEvent (Local.Op event) (Local.Name event)]
                      ++ out1 ++ [])%list).
      { unfold Local.onEvent. rewrite Hc.
        eapply completes_bind; [apply completes_emit|].
        eapply completes_bind; [exact C1|].
        unfold Local.completes. run_m. rewrite R1. fold f. rewrite Hf. simpl.
        rewrite app_nil_r. unfold Local.armed.
        destruct (default false (Local.changeSet l !! f)); simpl;
          repeat split; try reflexivity; destruct l; reflexivity. }
      destruct (completes_unique _ _ _ _ _ _ _ _ C C') as (_ & _ & ->).
      rewrite app_nil_r. constructor; [reflexivity|exact F1]. }
    split; [exact F|]. split; [exact Hkeep|]. split.
    + intros g Hg. destruct (Hnew g Hg) as [H| ->]; [now left|now right].
    + intros g Hg. destruct (Hownf g Hg) as (-> & _). exact Hin.
Qed.

End Reactor.

Lemma firedIn_app_l o1 o2 f : Local.firedIn o1 f -> Local.firedIn (o1 ++ o2)%list f.
Proof.
  intros (t & b & Hin & Hf). exists t, b. rewrite firings_app.
  split; [apply in_or_app; now left|exact Hf].
Qed.

Lemma firedIn_app_r o1 o2 f : Local.firedIn o2 f -> Local.firedIn (o1 ++ o2)%list f.
Proof.
  intros (t & b & Hin & Hf). exists t, b. rewrite firings_app.
  split; [apply in_or_app; now right|exact Hf].
Qed.

Lemma owned_resolved lr g event :
  Local.allResolved lr ->
  Local.owned (Local.cfg lr) g event = true ->
  Local.resolvedIn lr g = true.
Proof.
  intros Hall H. unfold Local.owned in H.
  apply andb_true_iff in H as [H Hne]. apply andb_true_iff in H as [_ Hf].
  apply negb_true_iff in Hne. apply String.eqb_eq in Hf. apply String.eqb_neq in Hne.
  subst g. apply found_is_resolved; assumption.
Qed.

Lemma reactor_no_watch out :
  Forall (fun a => Local.isReactorAction a = true) out ->
  Local.watchedOf out = [] /\ Local.spawnsOf out = [].
Proof.
  induction 1 as [|a out Ha _ (IH1 & IH2)]; [split; reflexivity|].
  destruct a; try discriminate Ha; cbn; split; assumption.
Qed.

Lemma reactor_builds_go out :
  Forall (fun a => Local.isReactorAction a = true) out ->
  forall f rt p e, In (Local.BuildCall f rt p e) out -> rt = Runtime.GolangRuntime.
Proof.
  intros F f rt p e Hin. rewrite List.Forall_forall in F. apply F in Hin.
  destruct rt; (reflexivity || discriminate Hin).
Qed.

Section Loop.

Context {W : Type} (host : Local.Host W).

(** The loop on any receptions: it does not panic, keeps its invariant,
    hands over only batches without repetition, and loses no change. *)
Lemma serve_inv inputs : forall l (s : Local.State W),
  Local.allResolved (Local.runner s) ->
  Local.loopInv l ->
  forallb (Local.resolvedIn (Local.runner s)) (Local.changedFunctions l) = true ->
  exists l' running s' out,
    Local.completes (Local.serve host l inputs) s (l', running) s' out
    /\ Local.loopInv l'
    /\ forallb (Local.resolvedIn (Local.runner s)) (Local.changedFunctions l') = true
    /\ Forall (fun a => Local.isReactorAction a = true) out
    /\ (forall t b, In (t, b) (Local.firings out) -> NoDup b /\ b <> [])
    /\ (forallb Local.keepsRunning inputs = true ->
        running = true
        /\ forall f, In f (Local.changedFunctions l)
                     \/ Local.changedBy (Local.cfg (Local.runner s)) inputs f ->
                     In f (Local.changedFunctions l') \/ Local.firedIn out f).
Proof.
  induction inputs as [|[now input] inputs IH]; intros l s Hall Hinv Hres.
  - exists l, true, s, []. split; [apply completes_ret|]. split; [exact Hinv|].
    split; [exact Hres|]. split; [constructor|]. split; [intros ? ? []|].
    intros _. split; [reflexivity|].
    intros f [Hf|(t & ev & [] & _)]. now left.
  - destruct (advance_step host now l s Hres Hinv)
      as (l1 & s1 & o1 & C1 & I1 & F1 & Hsub1 & Hfire1 & Hkeep1).
    assert (R1 : Local.runner s1 = Local.runner s) by apply C1.
    assert (Hres1 : forallb (Local.resolvedIn (Local.runner s))
                      (Local.changedFunctions l1) = true).
    { apply forallb_forall. intros g Hg. rewrite forallb_forall in Hres.
      apply Hres, Hsub1, Hg. }
    assert (Hb1 : forall t b, In (t, b) (Local.firings o1) -> NoDup b /\ b <> []).
    { intros t b Hin. destruct (Hfire1 t b Hin) as (_ & -> & Hne).
      split; [apply Hinv|exact Hne]. }
    destruct input as [event| |err| |].
    + (* an event *)
      destruct (onEvent_step host now event l1 s1 I1)
        as (l2 & s2 & o2 & C2 & I2 & F2 & Hfir2 & Hkeep2 & Hnew2 & Hown2).
      assert (R2 : Local.runner s2 = Local.runner s).
      { destruct C2 as (_ & R2 & _). congruence. }
      rewrite R1 in Hnew2, Hown2.
      assert (Hres2 : forallb (Local.resolvedIn (Local.runner s))
                        (Local.changedFunctions l2) = true).
      { apply forallb_forall. intros g Hg. destruct (Hnew2 g Hg) as [H|H].
        - rewrite forallb_forall in Hres1. apply Hres1, H.
        - eapply owned_resolved; eassumption. }
      destruct (IH l2 s2) as (l3 & run & s3 & o3 & C3 & I3 & Hres3 & F3 & Hb3 & Hlost3).
      { rewrite R2. exact Hall. }
      { exact I2. }
      { rewrite R2. exact Hres2. }
      rewrite R2 in Hres3, Hlost3.
      exists l3, run, s3, (o1 ++ o2 ++ o3)%list. split.
      { cbn [Local.serve]. eapply completes_bind; [exact C1|].
        eapply completes_bind; [exact C2|exact C3]. }
      split; [exact I3|]. split; [exact Hres3|].
      split; [apply Forall_app; split; [exact F1|apply Forall_app; split; assumption]|].
      split.
      { intros t b Hin. rewrite !firings_app, Hfir2 in Hin. cbn [app] in Hin.
        apply in_app_or in Hin as [Hin|Hin]; [eapply Hb1|eapply Hb3]; exact Hin. }
      intros Hk. cbn [forallb] in Hk. apply andb_true_iff in Hk as [_ Hk].
      destruct (Hlost3 Hk) as (-> & Hl3). split; [reflexivity|].
      assert (Hfrom2 : forall f, In f (Local.changedFunctions l2) ->
                In f (Local.changedFunctions l3)
                \/ Local.firedIn (o1 ++ o2 ++ o3)%list f).
      { intros f Hf. destruct (Hl3 f (or_introl Hf)) as [H|H]; [now left|right].
        apply firedIn_app_r, firedIn_app_r, H. }
      intros f [Hf|(t & ev & [Hin|Hin] & Hown)].
      * destruct (Hkeep1 f Hf) as [H|H].
        -- apply Hfrom2, Hkeep2, H.
        -- right. apply firedIn_app_l, H.
      * injection Hin as <- <-. apply Hfrom2, Hown2, Hown.
      * destruct (Hl3 f) as [H|H]; [right; exists t, ev; auto|now left|right].
        apply firedIn_app_r, firedIn_app_r, H.
    + (* the events channel is closed *)
      eexists l1, false, _, (o1 ++ [_] ++ [])%list. split.
      { cbn [Local.serve]. eapply completes_bind; [exact C1|].
        eapply completes_bind; [apply completes_emit|apply completes_ret]. }
      split; [exact I1|]. split; [exact Hres1|].
      split; [apply Forall_app; split; [exact F1|repeat constructor]|].
      split.
      { intros t b Hin. rewrite firings_app in Hin. cbn in Hin.
        rewrite app_nil_r in Hin. eapply Hb1, Hin. }
      intros Hk. discriminate Hk.
    + (* a watcher error *)
      set (s2 := Local.Build_State (Local.runner s1) (Local.world s1)
                   (Local.trace s1 ++ [Local.Log ("Watcher error: " ++ err)])%list).
      destruct (IH l1 s2) as (l3 & run & s3 & o3 & C3 & I3 & Hres3 & F3 & Hb3 & Hlost3).
      { cbn. rewrite R1. exact Hall. }
      { exact I1. }
      { cbn. rewrite R1. exact Hres1. }
      cbn [s2 Local.runner] in Hres3, Hlost3. rewrite R1 in Hres3, Hlost3.
      exists l3, run, s3, (o1 ++ [Local.Log ("Watcher error: " ++ err)] ++ o3)%list. split.
      { cbn [Local.serve]. eapply completes_bind; [exact C1|].
        eapply completes_bind; [apply completes_emit|exact C3]. }
      split; [exact I3|]. split; [exact Hres3|].
      split; [apply Forall_app; split; [exact F1|constructor; [reflexivity|exact F3]]|].
      split.
      { intros t b Hin. rewrite !firings_app in Hin. cbn [app] in Hin.
        apply in_app_or in Hin as [Hin|Hin]; [eapply Hb1|eapply Hb3]; exact Hin. }
      intros Hk. cbn [forallb] in Hk. apply andb_true_iff in Hk as [_ Hk].
      destruct (Hlost3 Hk) as (-> & Hl3). split; [reflexivity|].
      intros f [Hf|(t & ev & [Hin|Hin] & Hown)].
      * destruct (Hkeep1 f Hf) as [H|H].
        -- destruct (Hl3 f (or_introl H)) as [H'|H']; [now left|right].
           apply firedIn_app_r. apply (firedIn_app_r [_]), H'.
        -- right. apply firedIn_app_l, H.
      * discriminate Hin.
      * destruct (Hl3 f) as [H|H]; [right; exists t, ev; auto|now left|right].
        apply firedIn_app_r. apply (firedIn_app_r [_]), H.
    + (* the errors channel is closed *)
      eexists l1, false, _, (o1 ++ [])%list. split.
      { cbn [Local.serve]. eapply completes_bind; [exact C1|apply completes_ret]. }
      split; [exact I1|]. split; [exact Hres1|].
      rewrite app_nil_r. split; [exact F1|]. split; [exact Hb1|].
      intros Hk. discriminate Hk.
    + (* the stop channel is closed *)
      eexists l1, false, _, (o1 ++ [_] ++ [])%list. split.
      { cbn [Local.serve]. eapply completes_bind; [exact C1|].
        eapply completes_bind; [apply completes_emit|apply completes_ret]. }
      split; [exact I1|]. split; [exact Hres1|].
      split; [apply Forall_app; split; [exact F1|repeat constructor]|].
      split.
      { intros t b Hin. rewrite firings_app in Hin. cbn in Hin.
        rewrite app_nil_r in Hin. eapply Hb1, Hin. }
      intros Hk. discriminate Hk.
Qed.

(** The whole reactor: the receptions, then silence. *)
Lemma reactor_inv inputs l (s : Local.State W) :
  Local.allResolved (Local.runner s) ->
  Local.loopInv l ->
  forallb (Local.resolvedIn (Local.runner s)) (Local.changedFunctions l) = true ->
  exists l' s' out,
    Local.completes (Local.reactor host l inputs) s l' s' out
    /\ Local.loopInv l'
    /\ Forall (fun a => Local.isReactorAction a = true) out
    /\ (forall t b, In (t, b) (Local.firings out) -> NoDup b /\ b <> [])
    /\ (forallb Local.keepsRunning inputs = true ->
        Local.changedFunctions l' = []
        /\ forall f, In f (Local.changedFunctions l)
                     \/ Local.changedBy (Local.cfg (Local.runner s)) inputs f ->
                     Local.firedIn out f).
Proof.
  intros Hall Hinv Hres.
  destruct (serve_inv inputs l s Hall Hinv Hres)
    as (l1 & run & s1 & o1 & C1 & I1 & Hres1 & F1 & Hb1 & Hlost1).
  assert (R1 : Local.runner s1 = Local.runner s) by apply C1.
  destruct run.
  - assert (Hset : exists l2 s2 o2,
      Local.completes (Local.settle host l1) s1 l2 s2 o2
      /\ Local.loopInv l2
      /\ Local.changedFunctions l2 = []
      /\ Forall (fun a => Local.isReactorAction a = true) o2
      /\ (forall t b, In (t, b) (Local.firings o2) -> NoDup b /\ b <> [])
      /\ (forall f, In f (Local.changedFunctions l1) -> Local.firedIn o2 f)).
    { unfold Local.settle. destruct (Local.debounceTimer l1) as [d|] eqn:Ht.
      - destruct (onTimer_step host d l1 s1) as (l2 & s2 & o2 & C2 & I2 & He & F2 & Hf2 & Hall2);
          [rewrite R1; exact Hres1|exact I1|].
        exists l2, s2, o2. split; [exact C2|]. split; [exact I2|]. split; [exact He|].
        split; [exact F2|]. split; [|exact Hall2].
        intros t b Hin. destruct (Hf2 t b Hin) as (_ & -> & Hne).
        split; [apply I1|exact Hne].
      - assert (He : Local.changedFunctions l1 = []).
        { destruct (Local.changedFunctions l1) eqn:E; [reflexivity|].
          destruct I1 as (_ & _ & Harm). exfalso. apply Harm; [|exact Ht].
          rewrite E. discriminate. }
        exists l1, s1, []. split; [apply completes_ret|]. split; [exact I1|].
        split; [exact He|]. split; [constructor|]. split; [intros ? ? []|].
        rewrite He. intros ? []. }
    destruct Hset as (l2 & s2 & o2 & C2 & I2 & He & F2 & Hb2 & Hall2).
    exists l2, s2, (o1 ++ o2)%list. split.
    { unfold Local.reactor. eapply completes_bind; [exact C1|exact C2]. }
    split; [exact I2|]. split; [apply Forall_app; split; assumption|]. split.
    { intros t b Hin. rewrite firings_app in Hin.
      apply in_app_or in Hin as [Hin|Hin]; [eapply Hb1|eapply Hb2]; exact Hin. }
    intros Hk. split; [exact He|]. destruct (Hlost1 Hk) as (_ & Hl1).
    intros f Hf. destruct (Hl1 f Hf) as [H|H].
    + apply firedIn_app_r, Hall2, H.
    + apply firedIn_app_l, H.
  - exists l1, s1, (o1 ++ [])%list. split.
    { unfold Local.reactor. eapply completes_bind; [exact C1|apply completes_ret]. }
    split; [exact I1|]. rewrite app_nil_r. split; [exact F1|]. split; [exact Hb1|].
    intros Hk. destruct (Hlost1 Hk) as (Hrun & _). discriminate Hrun.
Qed.

(** X7. Whatever the watcher delivers, once every function has a runtime
    [watchForChanges] does not panic, and every batch it hands to
    [handleFileChange] is non-empty and names no function twice. *)
Theorem watchForChanges_batches inputs (s : Local.State W) :
  Local.allResolved (Local.runner s) ->
  exists l' s' out,
    Local.completes (Local.watchForChanges host inputs) s l' s' out
    /\ forall t batch, In (t, batch) (Local.firings out) ->
         NoDup batch /\ batch <> [].
Proof.
  intros Hall.
  destruct (reactor_inv inputs Local.idle s Hall loopInv_idle eq_refl)
    as (l' & s' & out & C & _ & _ & Hb & _).
  exists l', s', out. split; [exact C|exact Hb].
Qed.

(** X8. No change is lost: while the channels stay open, every function
    that has a change event is handed to [handleFileChange] in some batch,
    and when the events cease nothing is left pending. *)
Theorem watchForChanges_no_lost_change inputs (s : Local.State W) :
  Local.allResolved (Local.runner s) ->
  forallb Local.keepsRunning inputs = true ->
  exists l' s' out,
    Local.completes (Local.watchForChanges host inputs) s l' s' out
    /\ Local.changedFunctions l' = []
    /\ forall f, Local.changedBy (Local.cfg (Local.runner s)) inputs f ->
                 Local.firedIn out f.
Proof.
  intros Hall Hk.
  destruct (reactor_inv inputs Local.idle s Hall loopInv_idle eq_refl)
    as (l' & s' & out & C & _ & _ & _ & Hlost).
  destruct (Hlost Hk) as (He & Hf).
  exists l', s', out. split; [exact C|]. split; [exact He|].
  intros f H. apply Hf. now right.
Qed.

(** X9. [watchForChanges] never changes the runner: it registers no
    directory with the watcher, whatever is created while it runs, starts
    no process and closes nothing; it only logs, copies and builds, and the
    only runtime whose [Build] it calls is the Go one. *)
Theorem watchForChanges_only_rebuilds inputs (s : Local.State W) :
  Local.allResolved (Local.runner s) ->
  exists l' s' out,
    Local.runs (Local.watchForChanges host inputs) s l' s' out
    /\ Local.runner s' = Local.runner s
    /\ Local.watchedOf out = []
    /\ Local.spawnsOf out = []
    /\ Forall (fun a => Local.isReactorAction a = true) out
    /\ (forall f rt p e, In (Local.BuildCall f rt p e) out ->
          rt = Runtime.GolangRuntime).
Proof.
  intros Hall.
  destruct (reactor_inv inputs Local.idle s Hall loopInv_idle eq_refl)
    as (l' & s' & out & C & _ & F & _).
  exists l', s', out. split; [apply runs_of_completes, C|].
  split; [apply C|]. destruct (reactor_no_watch out F) as (H1 & H2).
  split; [exact H1|]. split; [exact H2|]. split; [exact F|].
  apply reactor_builds_go, F.
Qed.

End Loop.

(** ** Copies of created files *)

Lemma str_app_assoc (a b c : string) : ((a ++ b) ++ c = a ++ (b ++ c))%string.
Proof.
  induction a as [|x a IH]; [reflexivity|].
  change (String x ((a ++ b) ++ c) = String x (a ++ (b ++ c)))%string.
  now rewrite IH.
Qed.

Lemma HasPrefix_app (p s : string) : GoStrings.HasPrefix (p ++ s) p = true.
Proof.
  induction p as [|x p IH]; [now destruct s|].
  change (GoStrings.HasPrefix (String x (p ++ s)) (String x p) = true).
  simpl. rewrite Ascii.eqb_refl. exact IH.
Qed.

Lemma Contains_unfold (s sub : string) :
  GoStrings.Contains s sub
  = GoStrings.HasPrefix s sub
    || match s with
       | EmptyString => false
       | String _ s' => GoStrings.Contains s' sub
       end.
Proof. destruct s; reflexivity. Qed.

Lemma Contains_app (a b c : string) : GoStrings.Contains (a ++ b ++ c) b = true.
Proof.
  induction a as [|x a IH].
  - rewrite Contains_unfold. change ("" ++ b ++ c)%string with (b ++ c)%string.
    now rewrite HasPrefix_app.
  - change (String x a ++ b ++ c)%string with (String x (a ++ b ++ c)).
    rewrite Contains_unfold, IH. apply orb_true_r.
Qed.

Lemma under_cdk_out_unowned c root hash rest event f :
  Local.Name event = ((root ++ "/cdk.out/asset." ++ hash) ++ rest)%string ->
  Local.owned c f event = false.
Proof.
  intros Hn. unfold Local.owned.
  assert (Hig : Local.shouldIgnorePath (Local.Name event) = true).
  { apply shouldIgnorePath_substring. exists "cdk.out". split.
    - right. right. now left.
    - rewrite Hn.
      replace ((root ++ "/cdk.out/asset." ++ hash) ++ rest)%string
        with ((root ++ "/") ++ "cdk.out" ++ ("/asset." ++ hash ++ rest))%string
        by (rewrite !str_app_assoc; reflexivity).
      apply Contains_app. }
  unfold Local.findFunctionByPath. rewrite (findFunctionIn_ignored _ _ _ Hig).
  destruct (String.eqb "" f) eqn:E.
  - apply String.eqb_eq in E. subst f. simpl. apply andb_false_r.
  - now rewrite andb_false_r.
Qed.

Section Staging.

Context {W : Type} (host : Local.Host W).

(** X10. The copies of [handleFileCreation] cannot feed the loop: a copy is
    made only of a path that belongs to a function, and whatever then
    happens under the directory it copies to is attributed to no function. *)
Theorem handleFileCreation_copies_are_unowned path (s : Local.State W) :
  exists s' out,
    Local.completes (Local.handleFileCreation host path) s tt s' out
    /\ forall p d, In (p, d) (Local.copiesOf out) ->
         p = path
         /\ Local.findFunctionByPath (Local.cfg (Local.runner s)) path <> ""
         /\ forall rest event f,
              Local.Name event = (d ++ rest)%string ->
              Local.owned (Local.cfg (Local.runner s)) f event = false.
Proof.
  destruct (handleFileCreation_exact host path s)
    as (s' & out & C & [(_ & ->)|(Hne & err & line & ->)]);
    exists s'; eexists; (split; [exact C|]).
  - intros p d [].
  - intros p d [Hin|[]]. injection Hin as <- <-.
    split; [reflexivity|]. split; [exact Hne|].
    intros rest event f Hn. eapply under_cdk_out_unowned, Hn.
Qed.


End Staging.

(** ** The command [local] *)



Section Command.

Context {W : Type} (host : Local.Host W).



End Command.

Section GoOnly.

Context {W : Type} (host : Local.Host W).

(** X13. [Start] calls [Build] of the Go runtime only: the [Build] methods
    of the Node.js and Python runtimes ([npm install], [pip install]) are
    never reached from it, whatever the configuration and the host. *)
Theorem Start_builds_only_go (s : Local.State W) :
  exists r s' out,
    Local.runs (Local.Start host) s r s' out
    /\ forall f rt p e, In (Local.BuildCall f rt p e) out ->
         rt = Runtime.GolangRuntime.
Proof.
  destruct (Start_runs host s)
    as (r & s' & o1 & o2 & o3 & o4 & R & F1 & F2 & F3 & F4 & _).
  exists r, s', (o1 ++ o2 ++ o3 ++ o4)%list. split; [exact R|].
  intros f rt p e Hin. rewrite List.Forall_forall in F1, F2, F3, F4.
  repeat (apply in_app_or in Hin as [Hin|Hin]).
  - apply F1 in Hin. discriminate Hin.
  - apply F2 in Hin. destruct rt; (reflexivity || discriminate Hin).
  - apply F3 in Hin. discriminate Hin.
  - apply F4 in Hin. discriminate Hin.
Qed.

End GoOnly.

(** ** The two mappings of a runtime identifier *)

Lemma is_space_lower c :
  GoStrings.is_space (GoStrings.lower_ascii c) = GoStrings.is_space c.
Proof.
  destruct c as [[] [] [] [] [] [] [] []]; reflexivity.
Qed.

Lemma TrimLeft_solid c s :
  GoStrings.is_space c = false ->
  GoStrings.TrimLeft (String c s) = String c s.
Proof. intros H. simpl. now rewrite H. Qed.

Lemma TrimRight_solid c s :
  GoStrings.is_space c = false ->
  GoStrings.TrimRight (String c s) = String c (GoStrings.TrimRight s).
Proof. intros H. simpl. rewrite H. now destruct (GoStrings.TrimRight s). Qed.

Lemma RemoveByte_solid b c s :
  Ascii.eqb c b = false ->
  GoStrings.RemoveByte b (String c s) = String c (GoStrings.RemoveByte b s).
Proof. intros H. simpl. now rewrite H. Qed.

Lemma ToLower_TrimLeft s :
  GoStrings.ToLower (GoStrings.TrimLeft s) = GoStrings.TrimLeft (GoStrings.ToLower s).
Proof.
  induction s as [|c s IH]; [reflexivity|].
  simpl. rewrite is_space_lower. destruct (GoStrings.is_space c); [exact IH|reflexivity].
Qed.

Lemma ToLower_TrimRight s :
  GoStrings.ToLower (GoStrings.TrimRight s) = GoStrings.TrimRight (GoStrings.ToLower s).
Proof.
  induction s as [|c s IH]; [reflexivity|].
  simpl. rewrite is_space_lower, <- IH.
  destruct (GoStrings.TrimRight s); simpl; [|reflexivity].
  destruct (GoStrings.is_space c); reflexivity.
Qed.

Lemma ToLower_TrimSpace s :
  GoStrings.ToLower (GoStrings.TrimSpace s) = GoStrings.TrimSpace (GoStrings.ToLower s).
Proof.
  unfold GoStrings.TrimSpace. now rewrite ToLower_TrimRight, ToLower_TrimLeft.
Qed.

(** X14. [toLambdaRuntime] does not look at letter case: two identifiers
    with the same lower-case form are mapped alike. *)
Theorem toLambdaRuntime_case_insensitive (s t : string) :
  GoStrings.ToLower s = GoStrings.ToLower t ->
  Engine.toLambdaRuntime s = Engine.toLambdaRuntime t.
Proof.
  intros H. unfold Engine.toLambdaRuntime. cbv zeta.
  now rewrite !ToLower_TrimSpace, H.
Qed.

Lemma HasPrefix_split s p :
  GoStrings.HasPrefix s p = true -> exists rest, s = (p ++ rest)%string.
Proof.
  revert s. induction p as [|x p IH]; intros s H.
  - exists s. reflexivity.
  - destruct s as [|c s]; [discriminate H|]. simpl in H.
    destruct (Ascii.eqb c x) eqn:E; [|discriminate H].
    apply Ascii.eqb_eq in E. subst c. destruct (IH s H) as [rest ->].
    exists rest. reflexivity.
Qed.

Ltac solid_key H :=
  unfold GoStrings.TrimSpace in H;
  rewrite TrimLeft_solid in H by reflexivity;
  rewrite !TrimRight_solid in H by reflexivity;
  rewrite !RemoveByte_solid in H by reflexivity.

Ltac settle_key H :=
  unfold Engine.oneOf in H; simpl in H;
  repeat match type of H with
         | context [String.eqb ?a ?b] => destruct (String.eqb a b)
         end;
  simpl in H; try discriminate H;
  injection H as <-; reflexivity.

(** X15. The local engine and the deployment never disagree on a runtime
    identifier: whenever [toLambdaRuntime] knows the identifier and
    [GetRuntime] supports it, the kind [GetRuntime] gives is the one that
    belongs to the Lambda runtime.  So an identifier deployed on Java, .NET
    or Ruby is never supported by [GetRuntime]. *)
Theorem runtime_mappings_agree (s : string) r k :
  Engine.toLambdaRuntime s = Some r ->
  Runtime.GetRuntime s = Ok k ->
  Engine.localKind r = Some k.
Proof.
  unfold Engine.toLambdaRuntime, Runtime.GetRuntime. cbv zeta.
  rewrite ToLower_TrimSpace. intros H1 H2.
  destruct (String.eqb (GoStrings.ToLower s) "provided.al2") eqn:E1.
  { apply String.eqb_eq in E1. rewrite E1 in H1. cbn in H2. injection H2 as <-.
    vm_compute in H1. injection H1 as <-. reflexivity. }
  destruct (String.eqb (GoStrings.ToLower s) "provided") eqn:E2.
  { apply String.eqb_eq in E2. rewrite E2 in H1. cbn in H2. injection H2 as <-.
    vm_compute in H1. injection H1 as <-. reflexivity. }
  cbn [orb] in H2.
  destruct (GoStrings.HasPrefix (GoStrings.ToLower s) "go") eqn:P1.
  { injection H2 as <-. apply HasPrefix_split in P1 as [rest P1]. rewrite P1 in H1.
    change ("go" ++ rest)%string with (String "g" (String "o" rest)) in H1.
    solid_key H1. settle_key H1. }
  destruct (GoStrings.HasPrefix (GoStrings.ToLower s) "node") eqn:P2.
  { injection H2 as <-. apply HasPrefix_split in P2 as [rest P2]. rewrite P2 in H1.
    change ("node" ++ rest)%string
      with (String "n" (String "o" (String "d" (String "e" rest)))) in H1.
    solid_key H1. settle_key H1. }
  destruct (GoStrings.HasPrefix (GoStrings.ToLower s) "python") eqn:P3;
    [|discriminate H2].
  injection H2 as <-. apply HasPrefix_split in P3 as [rest P3]. rewrite P3 in H1.
  change ("python" ++ rest)%string
    with (String "p" (String "y" (String "t" (String "h" (String "o"
           (String "n" rest)))))) in H1.
  solid_key H1. settle_key H1.
Qed.

(** ** Detection when entries are added *)



Section MoreEntries.

Variables fs fs' : Runtime.Listing.
Variable dir : string.
Variables names names' : list string.
Hypothesis Hdir : fs dir = Some names.
Hypothesis Hdir' : fs' dir = Some names'.
Hypothesis Hmore : incl names names'.



End MoreEntries.

(** ** Validation of a configuration *)

Lemma LambdaEvent_Validate_ok e funcName i :
  Config.LambdaEvent_Validate e funcName i = None <-> Config.eventOk e = true.
Proof.
  unfold Config.LambdaEvent_Validate, Config.eventOk.
  destruct (String.eqb (Config.Type_ e) ""); simpl; [split; discriminate|].
  destruct (String.eqb (Config.Type_ e) "http"); simpl; [|tauto].
  destruct (String.eqb (Config.Path e) ""); simpl; [split; discriminate|].
  destruct (String.eqb (Config.Method e) ""); simpl; [split; discriminate|tauto].
Qed.

Lemma validateEventsFrom_ok events funcName : forall i,
  Config.validateEventsFrom i events funcName = None
  <-> forallb Config.eventOk events = true.
Proof.
  induction events as [|e events IH]; intros i; simpl; [tauto|].
  pose proof (LambdaEvent_Validate_ok e funcName i) as He.
  destruct (Config.LambdaEvent_Validate e funcName i).
  - destruct (Config.eventOk e); simpl; [|split; discriminate].
    destruct He as [_ He]. discriminate (He eq_refl).
  - destruct He as [He _]. rewrite (He eq_refl). simpl. apply IH.
Qed.

Lemma LambdaFunc_Validate_ok f funcName :
  Config.LambdaFunc_Validate f funcName = None <-> Config.functionOk f = true.
Proof.
  unfold Config.LambdaFunc_Validate, Config.functionOk.
  destruct (String.eqb (Config.FunctionName f) ""); simpl; [split; discriminate|].
  destruct (String.eqb (Config.Handler f) ""); simpl; [split; discriminate|].
  destruct (String.eqb (Config.Runtime f) ""); simpl; [split; discriminate|].
  destruct (Z.ltb_spec (Config.MemorySize f) 128) as [H1|H1]; simpl.
  { split; [discriminate|]. intros Hok.
    destruct (Z.leb_spec 128 (Config.MemorySize f)); [lia|discriminate Hok]. }
  destruct (Z.ltb_spec 10240 (Config.MemorySize f)) as [H2|H2]; simpl.
  { split; [discriminate|]. intros Hok.
    destruct (Z.leb_spec 128 (Config.MemorySize f)); [|discriminate Hok].
    destruct (Z.leb_spec (Config.MemorySize f) 10240); [lia|discriminate Hok]. }
  destruct (Z.leb_spec 128 (Config.MemorySize f)); [|lia].
  destruct (Z.leb_spec (Config.MemorySize f) 10240); [|lia]. simpl.
  destruct (Z.ltb_spec (Config.Timeout f) 1) as [H3|H3]; simpl.
  { split; [discriminate|]. intros Hok.
    destruct (Z.leb_spec 1 (Config.Timeout f)); [lia|discriminate Hok]. }
  destruct (Z.ltb_spec 900 (Config.Timeout f)) as [H4|H4]; simpl.
  { split; [discriminate|]. intros Hok.
    destruct (Z.leb_spec 1 (Config.Timeout f)); [|discriminate Hok].
    destruct (Z.leb_spec (Config.Timeout f) 900); [lia|discriminate Hok]. }
  destruct (Z.leb_spec 1 (Config.Timeout f)); [|lia].
  destruct (Z.leb_spec (Config.Timeout f) 900); [|lia]. simpl.
  apply validateEventsFrom_ok.
Qed.

Lemma validateFunctions_ok fns :
  Config.validateFunctions fns = None
  <-> forallb (fun e => Config.functionOk (snd e)) fns = true.
Proof.
  induction fns as [|[n f] fns IH]; simpl; [tauto|].
  pose proof (LambdaFunc_Validate_ok f n) as Hf.
  destruct (Config.LambdaFunc_Validate f n).
  - destruct (Config.functionOk f); simpl; [|split; discriminate].
    destruct Hf as [_ Hf]. discriminate (Hf eq_refl).
  - destruct Hf as [Hf _]. rewrite (Hf eq_refl). simpl. exact IH.
Qed.

Lemma Validate_configOk c :
  Config.Validate c = None <-> Config.configOk c = true.
Proof.
  unfold Config.Validate, Config.configOk, Config.isValidServiceName.
  destruct (String.eqb (Config.Service c) ""); simpl; [split; discriminate|].
  destruct (forallb Config.isServiceChar (list_ascii_of_string (Config.Service c)));
    simpl; [|split; discriminate].
  destruct (String.eqb (Config.Stage c) ""); simpl; [split; discriminate|].
  destruct (length (Config.Functions c) =? 0)%nat; simpl; [split; discriminate|].
  apply validateFunctions_ok.
Qed.

(** X17. [Validate] returns no error exactly for a configuration with a
    service name of letters, digits and hyphens, a stage, at least one
    function, and in every function a name, a handler, a runtime, a memory
    size from 128 to 10240, a timeout from 1 to 900 and events that have a
    type and, when the type is [http], a path and a method. *)
Theorem Validate_accepts_iff c :
  Config.Validate c = None <->
  Config.isValidServiceName (Config.Service c) = true
  /\ Config.Stage c <> ""
  /\ Config.Functions c <> []
  /\ forall name f, In (name, f) (Config.Functions c) ->
       Config.FunctionName f <> "" /\ Config.Handler f <> ""
       /\ Config.Runtime f <> ""
       /\ (128 <= Config.MemorySize f <= 10240)%Z
       /\ (1 <= Config.Timeout f <= 900)%Z
       /\ forall e, In e (Config.Events f) ->
            Config.Type_ e <> ""
            /\ (Config.Type_ e = "http" ->
                Config.Path e <> "" /\ Config.Method e <> "").
Proof.
  rewrite Validate_configOk. unfold Config.configOk.
  rewrite !andb_true_iff, !negb_true_iff, String.eqb_neq, forallb_forall.
  assert (Hlen : (length (Config.Functions c) =? 0)%nat = false
                 <-> Config.Functions c <> []).
  { destruct (Config.Functions c); simpl; split; congruence. }
  rewrite Hlen.
  assert (Hev : forall e, Config.eventOk e = true <->
            Config.Type_ e <> ""
            /\ (Config.Type_ e = "http" ->
                Config.Path e <> "" /\ Config.Method e <> "")).
  { intros e. unfold Config.eventOk.
    rewrite andb_true_iff, orb_true_iff, andb_true_iff, !negb_true_iff,
      !String.eqb_neq.
    split.
    - intros (Ht & [Hh|Hpm]); (split; [exact Ht|]); [intros; contradiction|auto].
    - intros (Ht & Hh). split; [exact Ht|].
      destruct (String.eqb_spec (Config.Type_ e) "http") as [E|E]; [right|left]; auto. }
  assert (Hfn : forall f, Config.functionOk f = true <->
            Config.FunctionName f <> "" /\ Config.Handler f <> ""
            /\ Config.Runtime f <> ""
            /\ (128 <= Config.MemorySize f <= 10240)%Z
            /\ (1 <= Config.Timeout f <= 900)%Z
            /\ forall e, In e (Config.Events f) ->
                 Config.Type_ e <> ""
                 /\ (Config.Type_ e = "http" ->
                     Config.Path e <> "" /\ Config.Method e <> "")).
  { intros f. unfold Config.functionOk.
    rewrite !andb_true_iff, !negb_true_iff, !String.eqb_neq, !Z.leb_le,
      forallb_forall.
    split.
    - intros (((((((A & B) & C) & D) & E) & F) & G) & H).
      split; [exact A|]. split; [exact B|]. split; [exact C|].
      split; [split; assumption|]. split; [split; assumption|].
      intros e He. apply Hev, H, He.
    - intros (A & B & C & (D & E) & (F & G) & H).
      split; [|intros e He; apply Hev, H, He].
      split; [|exact G]. split; [|exact F]. split; [|exact E]. split; [|exact D].
      split; [|exact C]. split; [exact A|exact B]. }
  split.
  - intros (((A & B) & C) & D).
    split; [exact A|]. split; [exact B|]. split; [exact C|].
    intros name f Hin. apply (Hfn f), (D (name, f)), Hin.
  - intros (A & B & C & D).
    split; [split; [split; [exact A|exact B]|exact C]|].
    intros [name f] Hin. apply Hfn. apply (D name), Hin.
Qed.

(** X18. The functions of a configuration are a Go map, visited in an
    order that changes from run to run: whether [Validate] accepts the
    configuration does not depend on that order (the error it reports
    does). *)
Theorem Validate_order_independent c c' :
  Config.Service c' = Config.Service c ->
  Config.Stage c' = Config.Stage c ->
  Permutation (Config.Functions c) (Config.Functions c') ->
  (Config.Validate c = None <-> Config.Validate c' = None).
Proof.
  intros Hs Hst Hp. rewrite !Validate_configOk. unfold Config.configOk.
  rewrite Hs, Hst, <- (Permutation_length Hp).
  assert (Hall : forallb (fun e => Config.functionOk (snd e)) (Config.Functions c)
                 = forallb (fun e => Config.functionOk (snd e)) (Config.Functions c')).
  { induction Hp as [|x l l' _ IH|x y l|l l' l'' _ IH1 _ IH2]; simpl.
    - reflexivity.
    - now rewrite IH.
    - destruct (Config.functionOk (snd x)), (Config.functionOk (snd y)); reflexivity.
    - now rewrite IH1. }
  now rewrite Hall.
Qed.

(** ** The paths of the gateway resources *)

Lemma HasSuffix_byte c s b :
  GoStrings.HasSuffix (String c s) (String b "")
  = match s with
    | EmptyString => Ascii.eqb c b
    | String _ _ => GoStrings.HasSuffix s (String b "")
    end.
Proof.
  unfold GoStrings.HasSuffix. destruct s as [|d s].
  - simpl. now destruct (Ascii.eqb c b).
  - cbn [String.length Nat.leb Nat.sub andb]. rewrite !Nat.sub_0_r. reflexivity.
Qed.

Lemma HalvePairs_nonempty o c s : GoStrings.HalvePairs o (String c s) <> "".
Proof.
  destruct s as [|d s]; simpl; [discriminate|].
  destruct (Ascii.eqb c o && Ascii.eqb d o); discriminate.
Qed.

Lemma HalvePairs_rooted o t :
  GoStrings.HasPrefix (GoStrings.HalvePairs o (String o t)) (String o "") = true.
Proof.
  destruct t as [|d t].
  - simpl. now rewrite Ascii.eqb_refl.
  - change (GoStrings.HalvePairs o (String o (String d t)))
      with (if Ascii.eqb o o && Ascii.eqb d o
            then String o (GoStrings.HalvePairs o t)
            else String o (GoStrings.HalvePairs o (String d t))).
    destruct (Ascii.eqb o o && Ascii.eqb d o);
      cbn [GoStrings.HasPrefix]; rewrite Ascii.eqb_refl;
      match goal with |- GoStrings.HasPrefix ?x _ = _ => now destruct x end.
Qed.

Lemma HalvePairs_last o s :
  (GoStrings.HasSuffix s (String o "") = false ->
   GoStrings.HasSuffix (GoStrings.HalvePairs o s) (String o "") = false)
  /\ (forall c,
        GoStrings.HasSuffix (String c s) (String o "") = false ->
        GoStrings.HasSuffix (GoStrings.HalvePairs o (String c s)) (String o "") = false).
Proof.
  induction s as [|d s [IH1 IH2]].
  - split; [auto|]. intros c H. exact H.
  - split; [apply IH2|]. intros c H.
    rewrite HasSuffix_byte in H.
    change (GoStrings.HalvePairs o (String c (String d s)))
      with (if Ascii.eqb c o && Ascii.eqb d o
            then String o (GoStrings.HalvePairs o s)
            else String c (GoStrings.HalvePairs o (String d s))).
    destruct (Ascii.eqb c o && Ascii.eqb d o) eqn:E.
    + apply andb_true_iff in E as [_ E]. rewrite HasSuffix_byte in H.
      destruct s as [|e s]; [congruence|].
      rewrite HasSuffix_byte.
      destruct (GoStrings.HalvePairs o (String e s)) eqn:Hh;
        [now apply HalvePairs_nonempty in Hh|].
      apply IH1, H.
    + rewrite HasSuffix_byte.
      destruct (GoStrings.HalvePairs o (String d s)) eqn:Hh;
        [now apply HalvePairs_nonempty in Hh|].
      rewrite <- Hh. apply IH2, H.
Qed.

Lemma TrimRightByte_last b s :
  GoStrings.TrimRightByte b s = ""
  \/ GoStrings.HasSuffix (GoStrings.TrimRightByte b s) (String b "") = false.
Proof.
  induction s as [|c s IH]; [now left|]. simpl.
  destruct (GoStrings.TrimRightByte b s) as [|d r] eqn:E.
  - destruct (Ascii.eqb c b) eqn:Ec; [now left|right].
    rewrite HasSuffix_byte. exact Ec.
  - right. rewrite HasSuffix_byte. destruct IH as [IH|IH]; [discriminate IH|exact IH].
Qed.

Lemma ReplaceByte_bytes old new s :
  old <> new -> ~ In old (list_ascii_of_string (GoStrings.ReplaceByte old new s)).
Proof.
  intros Hne. induction s as [|c s IH]; simpl; [tauto|].
  intros [H|H]; [|exact (IH H)].
  destruct (Ascii.eqb_spec c old) as [->|Hc]; congruence.
Qed.

Lemma TrimLeftByte_bytes b s c :
  In c (list_ascii_of_string (GoStrings.TrimLeftByte b s)) ->
  In c (list_ascii_of_string s).
Proof.
  induction s as [|d s IH]; simpl; [tauto|].
  destruct (Ascii.eqb d b); [intros H; right; exact (IH H)|exact (fun H => H)].
Qed.

Lemma TrimRightByte_bytes b s c :
  In c (list_ascii_of_string (GoStrings.TrimRightByte b s)) ->
  In c (list_ascii_of_string s).
Proof.
  induction s as [|d s IH]; simpl; [tauto|].
  destruct (GoStrings.TrimRightByte b s) as [|e r].
  - destruct (Ascii.eqb d b); simpl; [tauto|]. intros [H|[]]. now left.
  - simpl. intros [H|H]; [now left|right; exact (IH H)].
Qed.

Lemma HalvePairs_bytes o s c :
  (In c (list_ascii_of_string (GoStrings.HalvePairs o s)) ->
   In c (list_ascii_of_string s))
  /\ (forall d,
        In c (list_ascii_of_string (GoStrings.HalvePairs o (String d s))) ->
        In c (list_ascii_of_string (String d s))).
Proof.
  induction s as [|e s [IH1 IH2]].
  - split; [auto|]. intros d H. exact H.
  - split; [apply IH2|]. intros d.
    change (GoStrings.HalvePairs o (String d (String e s)))
      with (if Ascii.eqb d o && Ascii.eqb e o
            then String o (GoStrings.HalvePairs o s)
            else String d (GoStrings.HalvePairs o (String e s))).
    destruct (Ascii.eqb d o && Ascii.eqb e o) eqn:E.
    + apply andb_true_iff in E as [Ed _]. apply Ascii.eqb_eq in Ed. subst d.
      simpl. intros [H|H]; [now left|right; right; exact (IH1 H)].
    + intros [H|H]; [now left|right; exact (IH2 e H)].
Qed.

Lemma norm_shape p :
  GoStrings.HasPrefix (Engine.norm p) "/" = true
  /\ (Engine.norm p = "/" \/ GoStrings.HasSuffix (Engine.norm p) "/" = false)
  /\ ~ In "\"%char (list_ascii_of_string (Engine.norm p)).
Proof.
  unfold Engine.norm, GoStrings.TrimByte. cbv zeta.
  pose proof (TrimRightByte_last "/"
                (GoStrings.TrimLeftByte "/" (GoStrings.ReplaceByte "\" "/" p))) as Hlast.
  pose proof (fun c => TrimRightByte_bytes "/"
                (GoStrings.TrimLeftByte "/" (GoStrings.ReplaceByte "\" "/" p)) c) as Hbytes.
  revert Hlast Hbytes.
  generalize (GoStrings.TrimRightByte "/"
                (GoStrings.TrimLeftByte "/" (GoStrings.ReplaceByte "\" "/" p))).
  intros t Hlast Hbytes.
  change ("/" ++ t)%string with (String "/" t).
  split; [apply HalvePairs_rooted|]. split.
  - destruct t as [|d t]; [now left|right].
    destruct Hlast as [He|Hl]; [discriminate He|].
    apply (HalvePairs_last "/" (String d t)). rewrite HasSuffix_byte. exact Hl.
  - intros H. apply (HalvePairs_bytes "/" t) in H. destruct H as [H|H]; [discriminate H|].
    apply Hbytes, TrimLeftByte_bytes in H.
    revert H. apply ReplaceByte_bytes. discriminate.
Qed.

(** X19. Every path [joinPath] builds for a gateway resource starts with a
    slash, holds no backslash, and ends with a slash only when it is the
    root path itself. *)
Theorem joinPath_shape resource path :
  GoStrings.HasPrefix (Engine.joinPath resource path) "/" = true
  /\ (Engine.joinPath resource path = "/"
      \/ GoStrings.HasSuffix (Engine.joinPath resource path) "/" = false)
  /\ ~ In "\"%char (list_ascii_of_string (Engine.joinPath resource path)).
Proof.
  unfold Engine.joinPath. cbv zeta.
  destruct (_ || _); [apply norm_shape|].
  destruct (_ || _); apply norm_shape.
Qed.

(** ** The end of the loop *)

Section LoopEnd.

Context {W : Type} (host : Local.Host W).

Lemma serve_ends t input post pre : forall l (s : Local.State W),
  Local.endsLoop input = true ->
  Local.serve host l (pre ++ (t, input) :: post)%list s
  = Local.serve host l (pre ++ [(t, input)])%list s.
Proof.
  induction pre as [|[now i] pre IH]; intros l s He.
  - destruct input; try discriminate He; reflexivity.
  - cbn [app Local.serve]. unfold mbind, Local.M_bind.
    destruct (Local.advance host now l s) as [[l1 s1]|msg]; [|reflexivity].
    destruct i; try reflexivity.
    + destruct (Local.onEvent host now event l1 s1) as [[l2 s2]|msg]; [|reflexivity].
      apply IH, He.
    + destruct (Local.emit _ s1) as [[[] s2]|msg]; [|reflexivity].
      apply IH, He.
Qed.

Lemma serve_closed t input pre : forall l (s : Local.State W) l' running s',
  Local.endsLoop input = true ->
  Local.serve host l (pre ++ [(t, input)])%list s = Local.Done ((l', running), s') ->
  running = false.
Proof.
  induction pre as [|[now i] pre IH]; intros l s l' running s' He.
  - cbn [app Local.serve]. unfold mbind, Local.M_bind.
    destruct (Local.advance host t l s) as [[l1 s1]|msg] eqn:E.
    2:{ destruct input; discriminate. }
    destruct input; try discriminate He; cbn; intros [= _ <- _]; reflexivity.
  - cbn [app Local.serve]. unfold mbind, Local.M_bind.
    destruct (Local.advance host now l s) as [[l1 s1]|msg]; [|discriminate].
    destruct i.
    + destruct (Local.onEvent host now event l1 s1) as [[l2 s2]|msg]; [|discriminate].
      apply IH, He.
    + cbn. intros [= _ <- _]. reflexivity.
    + destruct (Local.emit _ s1) as [[[] s2]|msg] eqn:E; [|discriminate].
      apply IH, He.
    + cbn. intros [= _ <- _]. reflexivity.
    + cbn. intros [= _ <- _]. reflexivity.
Qed.

(** X20. [watchForChanges] returns at the first channel it finds closed:
    nothing delivered afterwards is served and the timer is not waited
    for, so the functions still pending then are never handed to
    [handleFileChange]. *)
Theorem watchForChanges_ends_at_close t input pre post (s : Local.State W) :
  Local.endsLoop input = true ->
  Local.watchForChanges host (pre ++ (t, input) :: post)%list s
  = (r ← Local.serve host Local.idle (pre ++ [(t, input)])%list; mret (fst r)) s.
Proof.
  intros He. unfold Local.watchForChanges, Local.reactor, mbind, Local.M_bind.
  rewrite (serve_ends t input post pre Local.idle s He).
  destruct (Local.serve host Local.idle (pre ++ [(t, input)])%list s)
    as [[[l' running] s']|msg] eqn:E; [|reflexivity].
  rewrite (serve_closed t input pre _ _ _ _ _ He E). reflexivity.
Qed.

End LoopEnd.

(** ** The properties above on the demo project *)

(** The directory of [orders] is registered by the first call. *)
Lemma addWatchedDir_once_witness :
  exists r s1,
    Local.addWatchedDir (Demo.host Demo.noFiles []) "/proj/functions/orders"
      Demo.twoGoReady = Local.Done (r, s1)
    /\ match r with
       | None =>
           Local.isWatched (Local.runner s1) "/proj/functions/orders" = true
           /\ Local.addWatchedDir (Demo.host Demo.noFiles []) "/proj/functions/orders" s1
              = Local.Done (None, s1)
       | Some _ =>
           Local.isWatched (Local.runner s1) "/proj/functions/orders" = false
           /\ Local.runner s1 = Local.runner Demo.twoGoReady
       end.
Proof.
  eexists. eexists. split; [reflexivity|].
  apply (addWatchedDir_once (Demo.host Demo.noFiles []) "/proj/functions/orders"
           Demo.twoGoReady _ None).
  reflexivity.
Defined.

Lemma setupFileWatchers_registers_once_witness :
  exists s' out,
    Local.runs (Local.setupFileWatchers (Demo.host Demo.noFiles []))
      Demo.twoGoReady None s' out
    /\ Local.watchProgress (Local.runner Demo.twoGoReady) (Local.runner s') out.
Proof.
  apply (setupFileWatchers_registers_once (Demo.host Demo.noFiles []) Demo.twoGoReady).
  reflexivity.
Defined.

Lemma Start_handle_iff_serving_witness :
  exists r s' out,
    Local.runs (Local.Start (Demo.host Demo.noFiles [])) (Demo.start Demo.twoGo) r s' out
    /\ (r = Local.Serving <-> exists p, Local.apiProcess (Local.runner s') = Some p)
    /\ (r = Local.Serving -> length (Local.spawnsOf out) = 1%nat)
    /\ (r <> Local.Serving ->
        Local.watchedOf out = []
        /\ Local.watchedDirs (Local.runner s')
           = Local.watchedDirs (Local.runner (Demo.start Demo.twoGo))).
Proof.
  apply (Start_handle_iff_serving (Demo.host Demo.noFiles []) (Demo.start Demo.twoGo)).
  reflexivity.
Defined.

(** The demo project before [synth] has written the template. *)
Lemma Start_without_template_witness :
  exists e' s' out,
    Local.runs (Local.Start (Demo.hostNoTemplate Demo.noFiles []))
      (Demo.start Demo.twoGo) (Local.StartFailed e') s' out
    /\ Local.spawnsOf out = []
    /\ Local.watchedOf out = []
    /\ Local.apiProcess (Local.runner s')
       = Local.apiProcess (Local.runner (Demo.start Demo.twoGo)).
Proof.
  apply (Start_without_template (Demo.hostNoTemplate Demo.noFiles [])
           ("stat " ++ Local.templatePath ++ ": no such file or directory")
           (Demo.start Demo.twoGo)).
  intros w. reflexivity.
Defined.

Lemma initializeRuntimes_records_witness :
  exists s',
    Local.initializeRuntimes (Demo.host Demo.noFiles []) (Demo.start Demo.twoGo)
    = Local.Done (None, s')
    /\ (forall f function,
          In (f, function) (Config.Functions Demo.twoGo) ->
          Local.functionRuntimes (Local.runner s') !! f
          = Runtime.kindOf (Local.resolution Demo.noFiles Demo.twoGo function))
    /\ (forall g, ~ In g (map fst (Config.Functions Demo.twoGo)) ->
          Local.functionRuntimes (Local.runner s') !! g
          = Local.functionRuntimes (Local.runner (Demo.start Demo.twoGo)) !! g).
Proof.
  destruct (Local.initializeRuntimes (Demo.host Demo.noFiles []) (Demo.start Demo.twoGo))
    as [[[e|] s']|msg] eqn:E.
  - vm_compute in E. discriminate E.
  - exists s'. split; [reflexivity|].
    apply (initializeRuntimes_records (Demo.host Demo.noFiles []) (Demo.start Demo.twoGo) s').
    + apply (bool_decide_unpack _). vm_compute. exact I.
    + exact E.
  - vm_compute in E. discriminate E.
Defined.

(** Two writes to [orders] and one to [billing] within one delay. *)
Lemma watchForChanges_batches_witness :
  exists l' s' out,
    Local.completes
      (Local.watchForChanges (Demo.host Demo.noFiles [])
         [(0%Z, Local.RecvEvent (Demo.writeTo "/proj/functions/orders/main.go"));
          (100%Z, Local.RecvEvent (Demo.writeTo "/proj/functions/billing/main.go"));
          (200%Z, Local.RecvEvent (Demo.writeTo "/proj/functions/orders/util.go"))])
      Demo.twoGoReady l' s' out
    /\ forall t batch, In (t, batch) (Local.firings out) ->
         NoDup batch /\ batch <> [].
Proof.
  apply (watchForChanges_batches (Demo.host Demo.noFiles [])). reflexivity.
Defined.

Lemma watchForChanges_no_lost_change_witness :
  exists l' s' out,
    Local.completes
      (Local.watchForChanges (Demo.host Demo.noFiles [])
         [(0%Z, Local.RecvEvent (Demo.writeTo "/proj/functions/orders/main.go"));
          (50%Z, Local.RecvError "too many open files");
          (900%Z, Local.RecvEvent (Demo.writeTo "/proj/functions/billing/main.go"))])
      Demo.twoGoReady l' s' out
    /\ Local.changedFunctions l' = []
    /\ forall f,
         Local.changedBy (Local.cfg (Local.runner Demo.twoGoReady))
           [(0%Z, Local.RecvEvent (Demo.writeTo "/proj/functions/orders/main.go"));
            (50%Z, Local.RecvError "too many open files");
            (900%Z, Local.RecvEvent (Demo.writeTo "/proj/functions/billing/main.go"))]
           f ->
         Local.firedIn out f.
Proof.
  apply (watchForChanges_no_lost_change (Demo.host Demo.noFiles [])); reflexivity.
Defined.

(** A file created in a new directory below [orders]. *)
Lemma watchForChanges_only_rebuilds_witness :
  exists l' s' out,
    Local.runs
      (Local.watchForChanges (Demo.host Demo.noFiles [])
         [(0%Z, Local.RecvEvent (Demo.createAt "/proj/functions/orders/pkg/new.go"))])
      Demo.twoGoReady l' s' out
    /\ Local.runner s' = Local.runner Demo.twoGoReady
    /\ Local.watchedOf out = []
    /\ Local.spawnsOf out = []
    /\ Forall (fun a => Local.isReactorAction a = true) out
    /\ (forall f rt p e, In (Local.BuildCall f rt p e) out ->
          rt = Runtime.GolangRuntime).
Proof.
  apply (watchForChanges_only_rebuilds (Demo.host Demo.noFiles [])). reflexivity.
Defined.


Lemma toLambdaRuntime_case_insensitive_witness :
  Engine.toLambdaRuntime "NodeJS20.X" = Engine.toLambdaRuntime "nodejs20.x".
Proof.
  apply (toLambdaRuntime_case_insensitive "NodeJS20.X" "nodejs20.x"). reflexivity.
Defined.

Lemma runtime_mappings_agree_witness :
  Engine.localKind Engine.PROVIDED_AL2 = Some Runtime.GolangRuntime.
Proof.
  apply (runtime_mappings_agree "Go1.x"); reflexivity.
Defined.


Lemma Validate_order_independent_witness :
  Config.Validate Demo.validProject = None
  <-> Config.Validate Demo.validProjectSwapped = None.
Proof.
  apply (Validate_order_independent Demo.validProject Demo.validProjectSwapped).
  - reflexivity.
  - reflexivity.
  - simpl. apply perm_swap.
Defined.

(** A write, the stop signal 100 ms later, and a write after it. *)
Lemma watchForChanges_ends_at_close_witness :
  Local.watchForChanges (Demo.host Demo.noFiles [])
    ([(0%Z, Local.RecvEvent (Demo.writeTo "/proj/functions/orders/main.go"))]
     ++ (100%Z, Local.RecvStop)
        :: [(200%Z, Local.RecvEvent (Demo.writeTo "/proj/functions/billing/main.go"))])%list
    Demo.twoGoReady
  = (r ← Local.serve (Demo.host Demo.noFiles []) Local.idle
           ([(0%Z, Local.RecvEvent (Demo.writeTo "/proj/functions/orders/main.go"))]
            ++ [(100%Z, Local.RecvStop)])%list;
     mret (fst r)) Demo.twoGoReady.
Proof.
  apply (watchForChanges_ends_at_close (Demo.host Demo.noFiles [])). reflexivity.
Defined.
